(** * Montesarchio track mod: binary codecs and racing-line extraction

    A shallow embedding of the scene-tree writer ([scripts/export_kn5.py]),
    the scene-tree reader ([tools/track_viewer.py]) and the racing-line
    generator ([scripts/generate_ai_line.py]), with the properties their
    specification states.

    Conventions of the embedding:
    - a Python exception is a value of [pyerr]; fallible code returns a
      [result];
    - a file opened for writing is the list of bytes written so far, kept
      when an exception interrupts the writer;
    - a file opened for reading is the list of bytes not yet consumed;
    - a Python [float] is an exact rational, or one of the IEEE special
      values [PInf], [NInf], [NaN]: arithmetic is exact (no rounding, no
      overflow, no signed zero), the special values arise as IEEE 754 has
      them (division by zero, invalid operations) and propagate;
    - a float32 (a numpy [float32], or what [struct.pack('<f', _)] emits)
      is its 32-bit IEEE 754 pattern. *)

From Stdlib Require Import ZArith QArith Qabs Qround List Bool Lia Lqa String Sorted
  Permutation.
From Stdlib.Strings Require Import Byte.
Import ListNotations.

Local Open Scope Z_scope.

(** ** Python values shared by the three scripts *)

Module Py.

(** Exceptions the modelled code can raise. *)
Inductive pyerr : Type :=
| ValueError_bad_string_length (length : Z)
| ValueError_not_kn5 (magic : list byte)
| ValueError_empty_reduction
| ValueError_negative_dimensions
| ValueError_buffer_size
| RecursionError
| AttributeError
| StructError
| OverflowError
| IndexError
| SystemExit (code : Z).

Inductive result (A : Type) : Type :=
| Ok (a : A)
| Raise (e : pyerr).
Arguments Ok {A} a.
Arguments Raise {A} e.

Definition rbind {A B} (r : result A) (k : A -> result B) : result B :=
  match r with
  | Ok a => k a
  | Raise e => Raise e
  end.

Definition is_ok {A} (r : result A) : bool :=
  match r with Ok _ => true | Raise _ => false end.

(** *** Bytes and little-endian integers *)

Definition byte_of_Z (z : Z) : byte :=
  match Byte.of_N (Z.to_N (z mod 256)) with
  | Some b => b
  | None => x00
  end.

Definition Z_of_byte (b : byte) : Z := Z.of_N (Byte.to_N b).

(** The [n] low bytes of [z], least significant first (two's complement for
    a negative [z]). *)
Fixpoint le_bytes (n : nat) (z : Z) : list byte :=
  match n with
  | O => []
  | S k => byte_of_Z z :: le_bytes k (z / 256)
  end.

Fixpoint le_value (bs : list byte) : Z :=
  match bs with
  | [] => 0
  | b :: rest => Z_of_byte b + 256 * le_value rest
  end.

(** [struct.pack('<i', z)] *)
Definition pack_i (z : Z) : result (list byte) :=
  if (- 2 ^ 31 <=? z) && (z <? 2 ^ 31) then Ok (le_bytes 4 z) else Raise StructError.

(** [struct.pack('<h', z)] *)
Definition pack_h (z : Z) : result (list byte) :=
  if (- 2 ^ 15 <=? z) && (z <? 2 ^ 15) then Ok (le_bytes 2 z) else Raise StructError.

(** [struct.pack('<H', z)] *)
Definition pack_H (z : Z) : result (list byte) :=
  if (0 <=? z) && (z <? 2 ^ 16) then Ok (le_bytes 2 z) else Raise StructError.

(** [struct.pack('<B', z)] *)
Definition pack_B (z : Z) : result (list byte) :=
  if (0 <=? z) && (z <? 2 ^ 8) then Ok (le_bytes 1 z) else Raise StructError.

(** [struct.unpack('<i', bs)[0]]: exactly four bytes, read as signed. *)
Definition unpack_i (bs : list byte) : result Z :=
  if Nat.eqb (List.length bs) 4 then
    let u := le_value bs in
    Ok (if u <? 2 ^ 31 then u else u - 2 ^ 32)
  else Raise StructError.

(** [struct.unpack('B', bs)[0]] *)
Definition unpack_B (bs : list byte) : result Z :=
  if Nat.eqb (List.length bs) 1 then Ok (le_value bs) else Raise StructError.

(** *** Floats *)

Inductive float : Type :=
| Fin (q : Q)
| PInf
| NInf
| NaN.

Definition fl_of_Z (z : Z) : float := Fin (inject_Z z).

Definition Qsign (q : Q) : comparison := (q ?= 0)%Q.

Definition fl_neg (x : float) : float :=
  match x with
  | Fin q => Fin (- q)
  | PInf => NInf
  | NInf => PInf
  | NaN => NaN
  end.

Definition fl_add (x y : float) : float :=
  match x, y with
  | NaN, _ | _, NaN => NaN
  | Fin a, Fin b => Fin (a + b)
  | PInf, NInf | NInf, PInf => NaN
  | PInf, _ | _, PInf => PInf
  | NInf, _ | _, NInf => NInf
  end.

Definition fl_sub (x y : float) : float := fl_add x (fl_neg y).

(** An infinity of the sign of a finite non-zero factor, [NaN] for zero. *)
Definition inf_times (positive_inf : bool) (q : Q) : float :=
  match Qsign q with
  | Eq => NaN
  | Gt => if positive_inf then PInf else NInf
  | Lt => if positive_inf then NInf else PInf
  end.

Definition fl_mul (x y : float) : float :=
  match x, y with
  | NaN, _ | _, NaN => NaN
  | Fin a, Fin b => Fin (a * b)
  | PInf, Fin q | Fin q, PInf => inf_times true q
  | NInf, Fin q | Fin q, NInf => inf_times false q
  | PInf, PInf | NInf, NInf => PInf
  | PInf, NInf | NInf, PInf => NInf
  end.

(** Division as numpy performs it on arrays: a zero divisor yields an
    infinity or [NaN], never an exception. *)
Definition fl_div (x y : float) : float :=
  match x, y with
  | NaN, _ | _, NaN => NaN
  | Fin a, Fin b =>
      match Qsign b with
      | Eq => inf_times true a
      | _ => Fin (a / b)
      end
  | Fin _, _ => Fin 0
  | _, Fin b =>
      let pos := match x with PInf => true | _ => false end in
      match Qsign b with
      | Lt => if pos then NInf else PInf
      | _ => if pos then PInf else NInf
      end
  | _, _ => NaN
  end.

(** Comparisons: every comparison with [NaN] is false. *)
Definition fl_ltb (x y : float) : bool :=
  match x, y with
  | NaN, _ | _, NaN => false
  | Fin a, Fin b => match (a ?= b)%Q with Lt => true | _ => false end
  | NInf, NInf => false
  | NInf, _ => true
  | _, NInf => false
  | PInf, _ => false
  | _, PInf => true
  end.

Definition fl_leb (x y : float) : bool :=
  match x, y with
  | NaN, _ | _, NaN => false
  | Fin a, Fin b => match (a ?= b)%Q with Gt => false | _ => true end
  | NInf, _ => true
  | _, PInf => true
  | _, NInf => false
  | PInf, _ => false
  end.

Definition fl_gtb (x y : float) : bool := fl_ltb y x.

Definition fl_eqb (x y : float) : bool :=
  match x, y with
  | Fin a, Fin b => Qeq_bool a b
  | PInf, PInf | NInf, NInf => true
  | _, _ => false
  end.

(** The square root of a non-negative rational, rounded down to a multiple of
    [2^-40 / den]: the one inexact operation of the model.  It is exact on
    squares of integers. *)
Definition Qsqrt (q : Q) : Q :=
  Z.sqrt (Qnum q * Zpos (Qden q) * 2 ^ 80) # (Qden q * 2 ^ 40).

Definition fl_sqrt (x : float) : float :=
  match x with
  | Fin q => match Qsign q with Lt => NaN | _ => Fin (Qsqrt q) end
  | PInf => PInf
  | NInf | NaN => NaN
  end.

(** *** float32 *)

(** Nearest integer to [a / b] for [0 < b], ties to even. *)
Definition round_half_even (a b : Z) : Z :=
  let d := a / b in
  match 2 * (a mod b) ?= b with
  | Lt => d
  | Gt => d + 1
  | Eq => if Z.even d then d else d + 1
  end.

(** The binary32 pattern (sign bit clear) of the positive rational [n / d]
    rounded to nearest, ties to even; [0x7f800000] and above mean that the
    rounded value is not finite. *)
Definition binary32_of_pos (n : Z) (d : positive) : Z :=
  let e0 := Z.log2 n - Z.log2 (Zpos d) in
  let below := if 0 <=? e0 then n <? Zpos d * 2 ^ e0 else n * 2 ^ (- e0) <? Zpos d in
  let e := Z.max (if below then e0 - 1 else e0) (-126) in
  let k := 23 - e in
  let m := if 0 <=? k then round_half_even (n * 2 ^ k) (Zpos d)
           else round_half_even n (Zpos d * 2 ^ (- k)) in
  (e + 126) * 2 ^ 23 + m.

Definition f32_inf : Z := 255 * 2 ^ 23.
Definition f32_nan : Z := 255 * 2 ^ 23 + 2 ^ 22.
Definition f32_sign : Z := 2 ^ 31.

(** Conversion of a float to float32 as the C cast and numpy's [astype]
    perform it: a finite value out of range becomes an infinity. *)
Definition f32_bits (x : float) : Z :=
  match x with
  | Fin q =>
      match Qsign q with
      | Eq => 0
      | Gt => Z.min (binary32_of_pos (Qnum q) (Qden q)) f32_inf
      | Lt => f32_sign + Z.min (binary32_of_pos (- Qnum q) (Qden q)) f32_inf
      end
  | PInf => f32_inf
  | NInf => f32_sign + f32_inf
  | NaN => f32_nan
  end.

Definition f32_is_inf (bits : Z) : bool := (bits mod f32_sign) =? f32_inf.

(** [struct.pack('<f', x)]: [OverflowError] when a finite [x] rounds to an
    infinity. *)
Definition pack_f (x : float) : result (list byte) :=
  match x with
  | Fin _ => if f32_is_inf (f32_bits x) then Raise OverflowError else Ok (le_bytes 4 (f32_bits x))
  | _ => Ok (le_bytes 4 (f32_bits x))
  end.

(** A numpy [float32] element written with [struct.pack('<f', _)]: it is
    already a float32, nothing can overflow. *)
Definition pack_f32 (bits : Z) : list byte := le_bytes 4 bits.

(** [struct.unpack_from('<f', raw, off)]: the float32 stored in four bytes. *)
Definition unpack_f (bs : list byte) : result Z :=
  if Nat.eqb (List.length bs) 4 then Ok (le_value bs) else Raise StructError.

End Py.

(** ** The scene-tree writer: [scripts/export_kn5.py] *)

Module ExportKn5.
Import Py.

(** What the exporter prints. *)
Inductive message (name : Type) : Type :=
| Msg_mesh (obj_name : name) (material : Z)
| Msg_counts (vertices indices : nat)
| Msg_empty (obj_name : name) (x y z : float)
| Warning_needs_splitting (obj_name : name) (vertices : nat).
Arguments Msg_mesh {name}.
Arguments Msg_counts {name}.
Arguments Msg_empty {name}.
Arguments Warning_needs_splitting {name}.

Definition vec2 : Type := float * float.
Definition vec3 : Type := float * float * float.
Definition row4 : Type := float * float * float * float.
Definition matrix4 : Type := row4 * row4 * row4 * row4.

(** A vertex as the exporter holds it: the tuple [(pos, normal, uv, tangent)]. *)
Record vertex : Type := Vertex {
  v_pos : vec3;
  v_normal : vec3;
  v_uv : vec2;
  v_tangent : vec3
}.

Section Writer.

(** Python [str], with its UTF-8 encoding and its equality. *)
Variable pystr : Type.
Variable utf8_encode : pystr -> list byte.
Variable pystr_eqb : pystr -> pystr -> bool.

(** A computation that writes to the open file [f] and prints: the bytes
    written, the lines printed, and the value returned or the exception
    raised.  What was written and printed before an exception stays. *)
Definition W (A : Type) : Type := list byte * list (message pystr) * result A.

Definition wret {A} (a : A) : W A := ([], [], Ok a).

Definition wbind {A B} (m : W A) (k : A -> W B) : W B :=
  match m with
  | (out, log, Ok a) =>
      match k a with
      | (out', log', r) => (out ++ out', log ++ log', r)
      end
  | (out, log, Raise e) => (out, log, Raise e)
  end.

Notation "x <- m ;; k" := (wbind m (fun x => k))
  (at level 61, m at next level, right associativity).
Notation "' pat <- m ;; k" := (wbind m (fun x => let 'pat := x in k))
  (at level 61, pat pattern, m at next level, right associativity).
Notation "m ;;; k" := (wbind m (fun _ => k))
  (at level 61, right associativity).

(** [f.write(data)], where computing [data] may raise. *)
Definition f_write (data : result (list byte)) : W unit :=
  match data with
  | Ok bs => (bs, [], Ok tt)
  | Raise e => ([], [], Raise e)
  end.

Definition print (m : message pystr) : W unit := ([], [m], Ok tt).

Definition wraise {A} (e : pyerr) : W A := ([], [], Raise e).

(** [for x in l: body(x)] *)
Fixpoint wfor {A} (l : list A) (body : A -> W unit) : W unit :=
  match l with
  | [] => wret tt
  | x :: rest => body x ;;; wfor rest body
  end.

Definition file_of {A} (m : W A) : list byte := fst (fst m).
Definition log_of {A} (m : W A) : list (message pystr) := snd (fst m).
Definition outcome_of {A} (m : W A) : result A := snd m.

(** [len(x)] as a Python integer. *)
Definition len {A} (l : list A) : Z := Z.of_nat (List.length l).

Definition write_string (s : pystr) : W unit :=
  let data := utf8_encode s in
  f_write (pack_i (len data)) ;;;
  f_write (Ok data).

Definition write_header (version : Z) : W unit :=
  f_write (Ok [x73; x63; x36; x39; x36; x39]) ;;;
  f_write (pack_i version) ;;;
  if 5 <? version then f_write (pack_i 0) else wret tt.

Definition write_textures (textures : list (pystr * list byte)) : W unit :=
  f_write (pack_i (len textures)) ;;;
  wfor textures (fun '(name, dds_data) =>
    f_write (pack_i 1) ;;;
    write_string name ;;;
    f_write (pack_i (len dds_data)) ;;;
    f_write (Ok dds_data)).

Record material : Type := Material {
  mat_name : pystr;
  mat_shader : pystr;
  mat_properties : list (pystr * float);
  mat_samplers : list (pystr * Z * pystr)
}.

Definition write_materials (materials : list material) (version : Z) : W unit :=
  f_write (pack_i (len materials)) ;;;
  wfor materials (fun mat =>
    write_string (mat_name mat) ;;;
    write_string (mat_shader mat) ;;;
    f_write (pack_h 0) ;;;
    (if 4 <? version then f_write (pack_i 0) else wret tt) ;;;
    let props := mat_properties mat in
    f_write (pack_i (len props)) ;;;
    wfor props (fun '(pname, pvalue) =>
      write_string pname ;;;
      f_write (pack_f pvalue) ;;;
      f_write (Ok (repeat x00 36))) ;;;
    let samplers := mat_samplers mat in
    f_write (pack_i (len samplers)) ;;;
    wfor samplers (fun '(sname, slot, tname) =>
      write_string sname ;;;
      f_write (pack_i slot) ;;;
      write_string tname)).

Definition row_list (r : row4) : list float :=
  let '(a, b, c, d) := r in [a; b; c; d].

Definition matrix_rows (m : matrix4) : list row4 :=
  let '(r0, r1, r2, r3) := m in [r0; r1; r2; r3].

Definition write_dummy_node (name : pystr) (matrix : matrix4) (children_count : Z) : W unit :=
  f_write (pack_i 1) ;;;
  write_string name ;;;
  f_write (pack_i children_count) ;;;
  f_write (pack_B 1) ;;;
  wfor (matrix_rows matrix) (fun row =>
    wfor (row_list row) (fun x => f_write (pack_f x))).

(** [struct.pack('<3f', *v)] and [struct.pack('<2f', *v)]: all of the values
    are converted before anything is returned. *)
Definition pack_3f (v : vec3) : result (list byte) :=
  let '(x, y, z) := v in
  rbind (pack_f x) (fun bx =>
  rbind (pack_f y) (fun by_ =>
  rbind (pack_f z) (fun bz => Ok (bx ++ by_ ++ bz)))).

Definition pack_2f (v : vec2) : result (list byte) :=
  let '(x, y) := v in
  rbind (pack_f x) (fun bx =>
  rbind (pack_f y) (fun by_ => Ok (bx ++ by_))).

Definition Fz (z : Z) : float := fl_of_Z z.

Definition make_box_mesh (half : float) : list vertex * list Z :=
  let h := half in
  let mh := fl_neg half in
  let faces_data : list (vec3 * vec3 * vec3 * vec3 * vec3 * vec3) :=
    [ ((Fz 0, Fz 1, Fz 0), (Fz 1, Fz 0, Fz 0), (mh, h, mh), (h, h, mh), (h, h, h), (mh, h, h));
      ((Fz 0, Fz (-1), Fz 0), (Fz 1, Fz 0, Fz 0), (mh, mh, h), (h, mh, h), (h, mh, mh), (mh, mh, mh));
      ((Fz 1, Fz 0, Fz 0), (Fz 0, Fz 0, Fz 1), (h, mh, mh), (h, mh, h), (h, h, h), (h, h, mh));
      ((Fz (-1), Fz 0, Fz 0), (Fz 0, Fz 0, Fz (-1)), (mh, mh, h), (mh, mh, mh), (mh, h, mh), (mh, h, h));
      ((Fz 0, Fz 0, Fz 1), (Fz 1, Fz 0, Fz 0), (mh, mh, h), (h, mh, h), (h, h, h), (mh, h, h));
      ((Fz 0, Fz 0, Fz (-1)), (Fz (-1), Fz 0, Fz 0), (h, mh, mh), (mh, mh, mh), (mh, h, mh), (h, h, mh)) ] in
  let uvs : list vec2 := [(Fz 0, Fz 0); (Fz 1, Fz 0); (Fz 1, Fz 1); (Fz 0, Fz 1)] in
  fold_left
    (fun '(verts, indices) '(normal, tangent, v0, v1, v2, v3) =>
       let base := len verts in
       let verts' :=
         fold_left (fun vs '(v, uv) => vs ++ [Vertex v normal uv tangent])
                   (combine [v0; v1; v2; v3] uvs) verts in
       (verts', indices ++ [base; base + 1; base + 2; base; base + 2; base + 3]))
    faces_data ([], []).

Definition default_half : float := Fin (1 # 4).

(** Python's [min] and [max] over a non-empty list: the first element is
    kept until a strictly smaller (larger) one is met. *)
Definition py_min (x : float) (xs : list float) : float :=
  fold_left (fun m item => if fl_ltb item m then item else m) xs x.

Definition py_max (x : float) (xs : list float) : float :=
  fold_left (fun m item => if fl_gtb item m then item else m) xs x.

Definition two : float := Fin 2.

Definition compute_bounding_sphere (vertices : list vertex) : float * float * float * float :=
  match vertices with
  | [] => (Fin 0, Fin 0, Fin 0, Fin 0)
  | v0 :: rest =>
      let xs := map (fun v => fst (fst (v_pos v))) rest in
      let ys := map (fun v => snd (fst (v_pos v))) rest in
      let zs := map (fun v => snd (v_pos v)) rest in
      let x0 := fst (fst (v_pos v0)) in
      let y0 := snd (fst (v_pos v0)) in
      let z0 := snd (v_pos v0) in
      let cx := fl_div (fl_add (py_min x0 xs) (py_max x0 xs)) two in
      let cy := fl_div (fl_add (py_min y0 ys) (py_max y0 ys)) two in
      let cz := fl_div (fl_add (py_min z0 zs) (py_max z0 zs)) two in
      let radius :=
        fold_left
          (fun radius v =>
             let dx := fl_sub (fst (fst (v_pos v))) cx in
             let dy := fl_sub (snd (fst (v_pos v))) cy in
             let dz := fl_sub (snd (v_pos v)) cz in
             let d := fl_sqrt (fl_add (fl_add (fl_mul dx dx) (fl_mul dy dy)) (fl_mul dz dz)) in
             if fl_gtb d radius then d else radius)
          vertices (Fin 0) in
      (cx, cy, cz, radius)
  end.

(** The loop [for i in range(0, len(indices), 3)] of [write_mesh_node]: three
    indices per turn, [IndexError] when the list stops inside a triple. *)
Fixpoint write_index_triples (indices : list Z) : W unit :=
  match indices with
  | [] => wret tt
  | i0 :: rest0 =>
      f_write (pack_H i0) ;;;
      match rest0 with
      | [] => wraise IndexError
      | i1 :: rest1 =>
          f_write (pack_H i1) ;;;
          match rest1 with
          | [] => wraise IndexError
          | i2 :: rest2 =>
              f_write (pack_H i2) ;;;
              write_index_triples rest2
          end
      end
  end.

Definition write_mesh_node (name : pystr) (vertices : list vertex) (indices : list Z)
    (material_id : Z) : W unit :=
  f_write (pack_i 2) ;;;
  write_string name ;;;
  f_write (pack_i 0) ;;;
  f_write (pack_B 1) ;;;
  f_write (rbind (pack_B 1) (fun a => rbind (pack_B 1) (fun b =>
           rbind (pack_B 0) (fun c => Ok (a ++ b ++ c))))) ;;;
  f_write (pack_i (len vertices)) ;;;
  wfor vertices (fun v =>
    f_write (pack_3f (v_pos v)) ;;;
    f_write (pack_3f (v_normal v)) ;;;
    f_write (pack_2f (v_uv v)) ;;;
    f_write (pack_3f (v_tangent v))) ;;;
  f_write (pack_i (len indices)) ;;;
  write_index_triples indices ;;;
  f_write (pack_i material_id) ;;;
  let '(cx, cy, cz, radius) := compute_bounding_sphere vertices in
  f_write (pack_i 0) ;;;
  f_write (pack_f (Fin 0)) ;;;
  f_write (pack_f (Fin 0)) ;;;
  f_write (pack_3f (cx, cy, cz)) ;;;
  f_write (pack_f radius) ;;;
  f_write (pack_B 1).

(** *** Scene extraction *)

(** Python's [round(x, 6)]. *)
Definition round6 (x : float) : float :=
  match x with
  | Fin q => Fin (round_half_even (Qnum q * 10 ^ 6) (Zpos (Qden q)) # 10 ^ 6)
  | _ => x
  end.

(** One face corner as Blender hands it over: the vertex position in world
    space ([world_mat @ vert.co]), the corner normal transformed and
    normalized, the active UV layer's coordinates (if the mesh has one) and
    the transformed, normalized tangent (if Blender has one). *)
Record corner : Type := Corner {
  c_co : vec3;
  c_nv : vec3;
  c_raw_uv : option vec2;
  c_t : option vec3
}.

(** Blender (x, y, z) to engine (x, z, -y), each component rounded. *)
Definition swap_round (v : vec3) : vec3 :=
  let '(x, y, z) := v in (round6 x, round6 z, round6 (fl_neg y)).

Definition vec2_eqb (a b : vec2) : bool :=
  fl_eqb (fst a) (fst b) && fl_eqb (snd a) (snd b).

Definition vec3_eqb (a b : vec3) : bool :=
  let '(ax, ay, az) := a in
  let '(bx, by_, bz) := b in
  fl_eqb ax bx && fl_eqb ay by_ && fl_eqb az bz.

(** The key of [vert_map]: the tuple [(pos, normal, uv)]. *)
Definition vert_key : Type := vec3 * vec3 * vec2.

Definition vert_key_eqb (a b : vert_key) : bool :=
  let '(ap, an, au) := a in
  let '(bp, bn, bu) := b in
  vec3_eqb ap bp && vec3_eqb an bn && vec2_eqb au bu.

(** [vert_map], a dict, as the list of its entries. *)
Fixpoint vert_map_get (vert_map : list (vert_key * Z)) (k : vert_key) : option Z :=
  match vert_map with
  | [] => None
  | (k', i) :: rest => if vert_key_eqb k' k then Some i else vert_map_get rest k
  end.

Record mesh_object : Type := MeshObject {
  obj_name : pystr;
  obj_material : option pystr;
  obj_polygons : list (list corner)
}.

Record empty_object : Type := EmptyObject {
  empty_name : pystr;
  matrix_world : matrix4
}.

(** The body of the corner loop of [get_mesh_data]. *)
Definition add_corner (st : list vertex * list Z * list (vert_key * Z)) (c : corner)
    : list vertex * list Z * list (vert_key * Z) :=
  let '(vertices, indices, vert_map) := st in
  let pos := swap_round (c_co c) in
  let normal := swap_round (c_nv c) in
  let uv :=
    match c_raw_uv c with
    | Some (u, v) => (round6 u, round6 (fl_sub (Fin 1) v))
    | None => (Fin 0, Fin 0)
    end in
  let tangent :=
    match c_t c with
    | Some t => swap_round t
    | None => (Fin 1, Fin 0, Fin 0)
    end in
  let key := (pos, normal, uv) in
  match vert_map_get vert_map key with
  | Some i => (vertices, indices ++ [i], vert_map)
  | None =>
      let i := len vertices in
      (vertices ++ [Vertex pos normal uv tangent], indices ++ [i], vert_map ++ [(key, i)])
  end.

Definition mesh_data (obj : mesh_object) : list vertex * list Z :=
  fst (fold_left add_corner (List.concat (obj_polygons obj)) ([], [], [])).

Definition get_mesh_data (obj : mesh_object) : W (list vertex * list Z) :=
  let '(vertices, indices) := mesh_data obj in
  (if 65535 <? len vertices
   then print (Warning_needs_splitting (obj_name obj) (List.length vertices))
   else wret tt) ;;;
  wret (vertices, indices).

(** [mat_name_to_id], a dict, as the list of its entries. *)
Fixpoint name_map_get (m : list (pystr * Z)) (k : pystr) : option Z :=
  match m with
  | [] => None
  | (k', i) :: rest => if pystr_eqb k' k then Some i else name_map_get rest k
  end.

Definition get_material_id (obj : mesh_object) (mat_name_to_id : list (pystr * Z)) : Z :=
  match obj_material obj with
  | Some mat_name =>
      match name_map_get mat_name_to_id mat_name with
      | Some i => i
      | None => 0
      end
  | None => 0
  end.

Definition identity_matrix : matrix4 :=
  ((Fz 1, Fz 0, Fz 0, Fz 0), (Fz 0, Fz 1, Fz 0, Fz 0),
   (Fz 0, Fz 0, Fz 1, Fz 0), (Fz 0, Fz 0, Fz 0, Fz 1)).

Definition obj_to_matrix (obj : empty_object) : matrix4 :=
  let '((r00, r01, r02, r03), (r10, r11, r12, r13),
        (r20, r21, r22, r23), (r30, r31, r32, r33)) := matrix_world obj in
  let ct : matrix4 :=
    ((r00, r01, r02, r03),
     (r20, r21, r22, r23),
     (fl_neg r10, fl_neg r11, fl_neg r12, fl_neg r13),
     (r30, r31, r32, r33)) in
  let '((c00, c01, c02, c03), (c10, c11, c12, c13),
        (c20, c21, c22, c23), (c30, c31, c32, c33)) := ct in
  ((c00, c10, c20, c30),
   (c01, c11, c21, c31),
   (c02, c12, c22, c32),
   (c03, c13, c23, c33)).

(** *** The exporter *)

(** The literal ["pista_caudina"]. *)
Variable pista_caudina : pystr.

(** The node hierarchy [main] writes: the root, the meshes, the empties. *)
Definition write_nodes (mesh_objects : list mesh_object) (empty_objects : list empty_object)
    (mat_name_to_id : list (pystr * Z)) : W unit :=
  let total_children := len mesh_objects + len empty_objects in
  write_dummy_node pista_caudina identity_matrix total_children ;;;
  wfor mesh_objects (fun obj =>
    let mat_id := get_material_id obj mat_name_to_id in
    print (Msg_mesh (obj_name obj) mat_id) ;;;
    '(verts, indices) <- get_mesh_data obj ;;
    print (Msg_counts (List.length verts) (List.length indices)) ;;;
    write_mesh_node (obj_name obj) verts indices mat_id) ;;;
  let '(box_verts, box_indices) := make_box_mesh default_half in
  wfor empty_objects (fun obj =>
    let mat := obj_to_matrix obj in
    let '(_, _, _, (x, y, z, _)) := mat in
    print (Msg_empty (empty_name obj) x y z) ;;;
    write_dummy_node (empty_name obj) mat 1 ;;;
    write_mesh_node (empty_name obj) box_verts box_indices 0).

(** The [with open(KN5_PATH, 'wb') as f] block of [main].  The scene is
    the sorted lists of mesh and empty objects; [build_material_map], which
    reads Blender's shading graphs and the file system, is represented by
    its result. *)
Definition main (mesh_objects : list mesh_object) (empty_objects : list empty_object)
    (materials_list : list material) (mat_name_to_id : list (pystr * Z))
    (textures : list (pystr * list byte)) : W unit :=
  write_header 6 ;;;
  write_textures textures ;;;
  write_materials materials_list 6 ;;;
  write_nodes mesh_objects empty_objects mat_name_to_id.

End Writer.

Arguments wret {pystr A} a.
Arguments wbind {pystr A B} m k.
Arguments f_write {pystr} data.
Arguments print {pystr} m.
Arguments wraise {pystr A} e.
Arguments wfor {pystr A} l body.
Arguments file_of {pystr A} m.
Arguments log_of {pystr A} m.
Arguments outcome_of {pystr A} m.
Arguments write_string {pystr} utf8_encode s.
Arguments write_header {pystr} version.
Arguments write_textures {pystr} utf8_encode textures.
Arguments write_materials {pystr} utf8_encode materials version.
Arguments write_dummy_node {pystr} utf8_encode name matrix children_count.
Arguments write_index_triples {pystr} indices.
Arguments write_mesh_node {pystr} utf8_encode name vertices indices material_id.
Arguments mesh_data {pystr} obj.
Arguments get_mesh_data {pystr} obj.
Arguments get_material_id {pystr} pystr_eqb obj mat_name_to_id.
Arguments obj_to_matrix {pystr} obj.
Arguments write_nodes {pystr} utf8_encode pystr_eqb pista_caudina mesh_objects empty_objects mat_name_to_id.
Arguments main {pystr} utf8_encode pystr_eqb pista_caudina mesh_objects empty_objects materials_list mat_name_to_id textures.
Arguments MeshObject {pystr}.
Arguments EmptyObject {pystr}.
Arguments obj_name {pystr}.
Arguments obj_material {pystr}.
Arguments obj_polygons {pystr}.
Arguments empty_name {pystr}.
Arguments matrix_world {pystr}.
Arguments Material {pystr}.

End ExportKn5.

(** ** The scene-tree reader: [tools/track_viewer.py] *)

Module TrackViewer.
Import Py.

Definition f32x2 : Type := Z * Z.
Definition f32x3 : Type := Z * Z * Z.

(** A mesh as [parse_kn5] returns it.  The arrays [verts], [normals] and
    [uvs] are float32, [indices] is uint16. *)
Record mesh (name : Type) : Type := Mesh {
  m_name : name;
  m_verts : list f32x3;
  m_normals : list f32x3;
  m_uvs : list f32x2;
  m_indices : list Z;
  m_mat_id : Z;
  m_tri_count : Z
}.
Arguments Mesh {name}.
Arguments m_name {name}.
Arguments m_verts {name}.
Arguments m_normals {name}.
Arguments m_uvs {name}.
Arguments m_indices {name}.
Arguments m_mat_id {name}.
Arguments m_tri_count {name}.

Record material (name : Type) : Type := Material {
  mat_name : name;
  mat_shader : name;
  mat_samplers : list (name * Z * name)
}.
Arguments Material {name}.

Section Reader.

(** Python [str] and [bytes.decode('utf-8', errors='replace')]. *)
Variable pystr : Type.
Variable utf8_decode_replace : list byte -> pystr.

(** A computation that reads from the open file [f]: from the bytes not yet
    consumed to a value and the bytes left, or an exception. *)
Definition R (A : Type) : Type := list byte -> result (A * list byte).

Definition ret {A} (a : A) : R A := fun s => Ok (a, s).

Definition bind {A B} (m : R A) (k : A -> R B) : R B :=
  fun s =>
    match m s with
    | Ok (a, s') => k a s'
    | Raise e => Raise e
    end.

Definition raise {A} (e : pyerr) : R A := fun _ => Raise e.

Definition lift {A} (r : result A) : R A :=
  fun s => match r with Ok a => Ok (a, s) | Raise e => Raise e end.

Notation "x <- m ;; k" := (bind m (fun x => k))
  (at level 61, m at next level, right associativity).
Notation "' pat <- m ;; k" := (bind m (fun x => let 'pat := x in k))
  (at level 61, pat pattern, m at next level, right associativity).
Notation "m ;;; k" := (bind m (fun _ => k))
  (at level 61, right associativity).

(** [f.read(n)]: at most [n] bytes, everything that is left when [n < 0]. *)
Definition f_read (n : Z) : R (list byte) :=
  fun s =>
    if n <? 0 then Ok (s, [])
    else Ok (firstn (Z.to_nat n) s, skipn (Z.to_nat n) s).

(** [struct.unpack('<i', f.read(4))[0]] *)
Definition read_i : R Z := bs <- f_read 4 ;; lift (unpack_i bs).

(** [for _ in range(n): acc = body(acc)] *)
Fixpoint repeat_R {S} (n : nat) (body : S -> R S) (acc : S) : R S :=
  match n with
  | O => ret acc
  | Datatypes.S k => acc' <- body acc ;; repeat_R k body acc'
  end.

Definition range (n : Z) : nat := Z.to_nat n.

Definition read_string : R pystr :=
  length <- read_i ;;
  if (length <? 0) || (10000 <? length)
  then raise (ValueError_bad_string_length length)
  else bs <- f_read length ;; ret (utf8_decode_replace bs).

(** [raw[off : off + n]] for [0 <= off]. *)
Definition slice (raw : list byte) (off n : nat) : list byte :=
  firstn n (skipn off raw).

(** [struct.unpack_from('<3f', raw, off)] and [struct.unpack_from('<2f', raw, off)] *)
Definition unpack_from_3f (raw : list byte) (off : nat) : result f32x3 :=
  if Nat.leb (off + 12) (List.length raw) then
    rbind (unpack_f (slice raw off 4)) (fun x =>
    rbind (unpack_f (slice raw (off + 4) 4)) (fun y =>
    rbind (unpack_f (slice raw (off + 8) 4)) (fun z => Ok (x, y, z))))
  else Raise StructError.

Definition unpack_from_2f (raw : list byte) (off : nat) : result f32x2 :=
  if Nat.leb (off + 8) (List.length raw) then
    rbind (unpack_f (slice raw off 4)) (fun x =>
    rbind (unpack_f (slice raw (off + 4) 4)) (fun y => Ok (x, y)))
  else Raise StructError.

(** The loop that fills [verts], [normals] and [uvs] for the vertices
    [i], ..., [i + n - 1]. *)
Fixpoint unpack_vertices (raw : list byte) (i n : nat)
    : result (list f32x3 * list f32x3 * list f32x2) :=
  match n with
  | O => Ok ([], [], [])
  | Datatypes.S k =>
      let off := (i * 44)%nat in
      rbind (unpack_from_3f raw off) (fun v =>
      rbind (unpack_from_3f raw (off + 12)) (fun nrm =>
      rbind (unpack_from_2f raw (off + 24)) (fun uv =>
      rbind (unpack_vertices raw (Datatypes.S i) k) (fun '(vs, ns, us) =>
      Ok (v :: vs, nrm :: ns, uv :: us)))))
  end.

(** [np.frombuffer(idx_raw, dtype=np.uint16)] on a little-endian host. *)
Fixpoint frombuffer_uint16 (idx_raw : list byte) : result (list Z) :=
  match idx_raw with
  | [] => Ok []
  | [_] => Raise ValueError_buffer_size
  | lo :: hi :: rest =>
      rbind (frombuffer_uint16 rest) (fun l => Ok (le_value [lo; hi] :: l))
  end.

(** The nested function [parse_node] of [parse_kn5]; it appends to the list
    [meshes] of the enclosing call.  [depth] is the number of nested calls
    the interpreter still allows. *)
Fixpoint parse_node (depth : nat) (meshes : list (mesh pystr)) : R (list (mesh pystr)) :=
  match depth with
  | O => raise RecursionError
  | Datatypes.S depth' =>
      node_type <- read_i ;;
      name <- read_string ;;
      num_children <- read_i ;;
      node_flag <- (bs <- f_read 1 ;; lift (unpack_B bs)) ;;
      if node_type =? 1 then
        f_read 64 ;;;
        repeat_R (range num_children) (parse_node depth') meshes
      else if node_type =? 2 then
        f_read 3 ;;;
        vert_count <- read_i ;;
        raw <- f_read (vert_count * 44) ;;
        (if vert_count <? 0 then raise ValueError_negative_dimensions else ret tt) ;;;
        '(verts, normals, uvs) <- lift (unpack_vertices raw 0 (range vert_count)) ;;
        idx_count <- read_i ;;
        idx_raw <- f_read (idx_count * 2) ;;
        indices <- lift (frombuffer_uint16 idx_raw) ;;
        mat_id <- read_i ;;
        f_read 4 ;;;
        f_read 4 ;;;
        f_read 4 ;;;
        f_read 12 ;;;
        f_read 4 ;;;
        f_read 1 ;;;
        let meshes' :=
          meshes ++ [Mesh name verts normals uvs indices mat_id (idx_count / 3)] in
        repeat_R (range num_children) (parse_node depth') meshes'
      else ret meshes
  end.

(** Python's default recursion limit. *)
Definition recursion_limit : nat := 1000.

(** [parse_kn5], from the [open] of the file on: the textures (the
    assignments to the dict [textures], in order), the materials and the
    meshes. *)
Definition parse_kn5
    : R (list (pystr * list byte) * list (material pystr) * list (mesh pystr)) :=
  magic <- f_read 6 ;;
  (if list_eq_dec Byte.byte_eq_dec magic [x73; x63; x36; x39; x36; x39]
   then ret tt else raise (ValueError_not_kn5 magic)) ;;;
  version <- read_i ;;
  (if 5 <? version then f_read 4 ;;; ret tt else ret tt) ;;;
  tex_count <- read_i ;;
  textures <- repeat_R (range tex_count) (fun textures =>
    tex_type <- read_i ;;
    tex_name <- read_string ;;
    tex_size <- read_i ;;
    tex_data <- f_read tex_size ;;
    ret (if tex_type =? 1 then textures ++ [(tex_name, tex_data)] else textures)) [] ;;
  mat_count <- read_i ;;
  materials <- repeat_R (range mat_count) (fun materials =>
    mat_name <- read_string ;;
    shader <- read_string ;;
    f_read 2 ;;;
    (if 4 <? version then f_read 4 ;;; ret tt else ret tt) ;;;
    prop_count <- read_i ;;
    repeat_R (range prop_count) (fun _ =>
      read_string ;;;
      f_read (4 + 36) ;;;
      ret tt) tt ;;;
    samp_count <- read_i ;;
    samplers <- repeat_R (range samp_count) (fun samplers =>
      samp_name <- read_string ;;
      samp_slot <- read_i ;;
      samp_tex <- read_string ;;
      ret (samplers ++ [(samp_name, samp_slot, samp_tex)])) [] ;;
    ret (materials ++ [Material mat_name shader samplers])) [] ;;
  meshes <- parse_node recursion_limit [] ;;
  ret (textures, materials, meshes).

End Reader.

Arguments ret {A} a.
Arguments bind {A B} m k.
Arguments raise {A} e.
Arguments lift {A} r.
Arguments repeat_R {S} n body acc.
Arguments read_string {pystr} utf8_decode_replace.
Arguments parse_node {pystr} utf8_decode_replace depth meshes.
Arguments parse_kn5 {pystr} utf8_decode_replace.

End TrackViewer.

(** ** The racing-line generator: [scripts/generate_ai_line.py] *)

Module GenerateAiLine.
Import Py.

Local Open Scope Q_scope.

(** Coordinates of the road mesh are finite floats. *)
Definition point2 : Type := Q * Q.
Definition point3 : Type := Q * Q * Q.

(** A 4x4 matrix, as [obj.matrix_world]. *)
Definition qrow4 : Type := Q * Q * Q * Q.
Definition qmatrix4 : Type := qrow4 * qrow4 * qrow4 * qrow4.

(** [world_mat @ v.co]: the matrix applied to [(x, y, z, 1)], the first three
    components kept. *)
Definition mat_apply (m : qmatrix4) (p : point3) : point3 :=
  let '((m00, m01, m02, m03), (m10, m11, m12, m13), (m20, m21, m22, m23), _) := m in
  let '(x, y, z) := p in
  (m00 * x + m01 * y + m02 * z + m03,
   m10 * x + m11 * y + m12 * z + m13,
   m20 * x + m21 * y + m22 * z + m23).

(** What the script prints. *)
Inductive message : Type :=
| Generating
| Error_object_not_found
| Found_boundary_edges (n : nat)
| Error_no_boundary_edges
| Found_boundary_loops (n : nat) (sizes : list nat)
| Error_expected_two_loops (got : nat)
| Warning_loop_sizes_differ (a b : nat)
| Centerline_direction (points : nat) (ccw : bool)
| Reversed_to_cw
| Writing_ai_file
| Warning_start_not_found
| Start_finish_at (x y : Q) (idx : nat)
| Reindexed (start_idx : nat)
| Written_points (n : nat)
| Total_length (metres : Q)
| Speed_range (lo hi : float)
| Done.

(** What the script does to the outside world: it prints, it creates the
    directory of [OUTPUT_PATH], it opens [OUTPUT_PATH] for writing (which
    creates or truncates the file) and it writes to it. *)
Inductive event : Type :=
| Print (m : message)
| Makedirs
| Open_wb
| Write (data : list byte).

(** A computation of the script: the events it caused, in order, and the
    value returned or the exception raised. *)
Definition P (A : Type) : Type := list event * result A.

Definition pret {A} (a : A) : P A := ([], Ok a).

Definition pbind {A B} (m : P A) (k : A -> P B) : P B :=
  match m with
  | (ev, Ok a) => match k a with (ev', r) => (ev ++ ev', r) end
  | (ev, Raise e) => (ev, Raise e)
  end.

Notation "x <- m ;; k" := (pbind m (fun x => k))
  (at level 61, m at next level, right associativity).
Notation "' pat <- m ;; k" := (pbind m (fun x => let 'pat := x in k))
  (at level 61, pat pattern, m at next level, right associativity).
Notation "m ;;; k" := (pbind m (fun _ => k))
  (at level 61, right associativity).

Definition print (m : message) : P unit := ([Print m], Ok tt).
Definition praise {A} (e : pyerr) : P A := ([], Raise e).
Definition plift {A} (r : result A) : P A := ([], r).

(** [sys.exit(1)] *)
Definition sys_exit {A} (code : Z) : P A := praise (SystemExit code).

(** [f.write(data)], where computing [data] may raise. *)
Definition f_write (data : result (list byte)) : P unit :=
  match data with
  | Ok bs => ([Write bs], Ok tt)
  | Raise e => ([], Raise e)
  end.

Fixpoint pfor {A} (l : list A) (body : A -> P unit) : P unit :=
  match l with
  | [] => pret tt
  | x :: rest => body x ;;; pfor rest body
  end.

(** The content of the output file after the events [ev], if it was opened. *)
Fixpoint written (ev : list event) : list byte :=
  match ev with
  | [] => []
  | Write data :: rest => data ++ written rest
  | _ :: rest => written rest
  end.

Definition touches_file_system (e : event) : bool :=
  match e with
  | Print _ => false
  | _ => true
  end.

(** *** The road mesh *)

(** The road mesh as [bmesh] presents it.  Edges and vertices are numbered;
    [bm.edges] is [0, ..., n_edges - 1]. *)
Record bmesh : Type := BMesh {
  n_edges : nat;
  edge_verts : nat -> nat * nat;
  edge_is_boundary : nat -> bool;
  vert_co : nat -> point3;
  vert_link_edges : nat -> list nat
}.

Definition mem (e : nat) (s : list nat) : bool := existsb (Nat.eqb e) s.

(** [edge.other_vert(v)]: [None] when [v] is not a vertex of the edge. *)
Definition other_vert (bm : bmesh) (e v : nat) : option nat :=
  let '(a, b) := edge_verts bm e in
  if Nat.eqb v a then Some b
  else if Nat.eqb v b then Some a
  else None.

(** The [while] loop of [_chain_boundary_loops], from its test on.  [fuel]
    bounds the number of turns; [None] means that it was too small. *)
Fixpoint walk (fuel : nat) (bm : bmesh) (world_mat : qmatrix4) (edge_set visited : list nat)
    (current v : nat) (loop_verts : list point3) : option (result (list point3 * list nat)) :=
  match fuel with
  | O => None
  | S fuel' =>
      if mem current visited then Some (Ok (loop_verts, visited))
      else
        let visited := current :: visited in
        let co := mat_apply world_mat (vert_co bm v) in
        let loop_verts := loop_verts ++ [co] in
        match other_vert bm current v with
        | None => Some (Raise AttributeError)
        | Some other =>
            match find (fun e => mem e edge_set && negb (mem e visited))
                       (vert_link_edges bm other) with
            | None => Some (Ok (loop_verts, visited))
            | Some next_edge =>
                walk fuel' bm world_mat edge_set visited next_edge other loop_verts
            end
        end
  end.

Definition boundary_edges_of (bm : bmesh) : list nat :=
  filter (edge_is_boundary bm) (seq 0 (n_edges bm)).

(** The [for start_edge in boundary_edges] loop.  [keep] decides whether a
    chain is appended to [loops]. *)
Fixpoint chain_from (keep : list point3 -> bool) (bm : bmesh) (world_mat : qmatrix4)
    (edge_set : list nat) (starts : list nat) (visited : list nat) (loops : list (list point3))
    : option (result (list (list point3))) :=
  match starts with
  | [] => Some (Ok loops)
  | start_edge :: rest =>
      if mem start_edge visited
      then chain_from keep bm world_mat edge_set rest visited loops
      else
        match walk (S (List.length edge_set)) bm world_mat edge_set visited
                   start_edge (fst (edge_verts bm start_edge)) [] with
        | None => None
        | Some (Raise e) => Some (Raise e)
        | Some (Ok (loop_verts, visited')) =>
            chain_from keep bm world_mat edge_set rest visited'
              (if keep loop_verts then loops ++ [loop_verts] else loops)
        end
  end.

(** [len(loop_verts) > 2] *)
Definition more_than_two (loop_verts : list point3) : bool :=
  Nat.ltb 2 (List.length loop_verts).

Definition _chain_boundary_loops (bm : bmesh) (world_mat : qmatrix4)
    : option (P (list (list point3))) :=
  let boundary_edges := boundary_edges_of bm in
  match boundary_edges with
  | [] =>
      Some (print (Found_boundary_edges 0) ;;;
            print Error_no_boundary_edges ;;;
            sys_exit 1)
  | _ =>
      match chain_from more_than_two bm world_mat boundary_edges boundary_edges [] [] with
      | None => None
      | Some r =>
          Some (print (Found_boundary_edges (List.length boundary_edges)) ;;; plift r)
      end
  end.

(** *** numpy on arrays of finite floats *)

Definition sum_Q (l : list Q) : Q := fold_left Qplus l 0.

(** [np.argmin]: the first index of the least element. *)
Fixpoint argmin_from (l : list Q) (i : nat) (best : Q) (best_i : nat) : nat :=
  match l with
  | [] => best_i
  | x :: rest =>
      if Qlt_le_dec x best
      then argmin_from rest (S i) x i
      else argmin_from rest (S i) best best_i
  end.

Definition argmin (l : list Q) : result nat :=
  match l with
  | [] => Raise ValueError_empty_reduction
  | x :: rest => Ok (argmin_from rest 1 x 0)
  end.

(** [np.roll(a, -k, axis=0)] for [0 < k < len(a)]. *)
Definition roll_left {A} (k : nat) (a : list A) : list A := skipn k a ++ firstn k a.

(** [a[i]] for [0 <= i]. *)
Definition index {A} (a : list A) (i : nat) : result A :=
  match nth_error a i with
  | Some x => Ok x
  | None => Raise IndexError
  end.

(** [a[-1]] *)
Definition index_last {A} (a : list A) : result A :=
  match rev a with
  | x :: _ => Ok x
  | [] => Raise IndexError
  end.

(** [np.sum((p - q) ** 2)] for two points. *)
Definition sq_dist (p q : point3) : Q :=
  let '(px, py, pz) := p in
  let '(qx, qy, qz) := q in
  (px - qx) ^ 2 + (py - qy) ^ 2 + (pz - qz) ^ 2.

(** *** The centerline *)

(** Rotate [loop_b] so that it starts at the point nearest to [a0]. *)
Definition align (loop_b : list point3) (a0 : point3) : result (list point3) :=
  let dists := map (fun b => sq_dist b a0) loop_b in
  rbind (argmin dists) (fun offset =>
  Ok (if Nat.ltb 0 offset then roll_left offset loop_b else loop_b)).

Definition midpoint (a b : point3) : point3 :=
  let '(ax, ay, az) := a in
  let '(bx, by_, bz) := b in
  ((ax + bx) / 2, (ay + by_) / 2, (az + bz) / 2).

Definition xy (p : point3) : point2 := (fst (fst p), snd (fst p)).

(** [np.sum(pts[:-1, 0] * pts[1:, 1] - pts[1:, 0] * pts[:-1, 1])] *)
Definition signed_area (pts : list point2) : Q :=
  sum_Q (map (fun '((x0, y0), (x1, y1)) => x0 * y1 - x1 * y0)
             (combine (removelast pts) (tl pts))).

(** [extract_centerline] once the two loops are known. *)
Definition centerline_of (loop_a loop_b : list point3) : P (list point3) :=
  '(loop_a, loop_b) <-
    (if Nat.eqb (List.length loop_a) (List.length loop_b)
     then pret (loop_a, loop_b)
     else
       print (Warning_loop_sizes_differ (List.length loop_a) (List.length loop_b)) ;;;
       let min_len := Nat.min (List.length loop_a) (List.length loop_b) in
       pret (firstn min_len loop_a, firstn min_len loop_b)) ;;
  a0 <- plift (index loop_a 0) ;;
  loop_b <- plift (align loop_b a0) ;;
  a1 <- plift (index loop_a 1) ;;
  b1 <- plift (index loop_b 1) ;;
  b_last <- plift (index_last loop_b) ;;
  let d_fwd := sq_dist a1 b1 in
  let d_bwd := sq_dist a1 b_last in
  loop_b <- (if Qlt_le_dec d_bwd d_fwd then plift (align (rev loop_b) a0) else pret loop_b) ;;
  let centerline := map (fun '(a, b) => midpoint a b) (combine loop_a loop_b) in
  let pts := map xy centerline in
  let area := signed_area pts in
  let ccw := if Qlt_le_dec 0 area then true else false in
  print (Centerline_direction (List.length centerline) ccw) ;;;
  if ccw then print Reversed_to_cw ;;; pret (rev centerline)
  else pret centerline.

(** The scene as the script queries it: the object ["1ROAD"] with its mesh
    and world matrix, and the world position of ["AC_START_0"]. *)
Record scene : Type := Scene {
  road : option (bmesh * qmatrix4);
  ac_start_0 : option point3
}.

(** [None] only when the fuel of [walk] was too small. *)
Definition extract_centerline (sc : scene) : option (P (list point3)) :=
  match road sc with
  | None => Some (print Error_object_not_found ;;; sys_exit 1)
  | Some (bm, matrix_world) =>
      match _chain_boundary_loops bm matrix_world with
      | None => None
      | Some chained =>
          Some (
            loops <- chained ;;
            print (Found_boundary_loops (List.length loops) (map (@List.length point3) loops)) ;;;
            match loops with
            | [loop_a; loop_b] => centerline_of loop_a loop_b
            | _ => print (Error_expected_two_loops (List.length loops)) ;;; sys_exit 1
            end)
      end
  end.

(** *** Curvature and speed *)

(** [np.linalg.norm] of a vector given by the sum of its squared components. *)
Definition norm_of_sq (s : Q) : Q := Qsqrt s.

Definition compute_curvature (pts_2d : list point2) : list Q :=
  let n := List.length pts_2d in
  map (fun i =>
    let p0 := nth ((i + n - 1) mod n)%nat pts_2d (0, 0) in
    let p1 := nth i pts_2d (0, 0) in
    let p2 := nth ((i + 1) mod n)%nat pts_2d (0, 0) in
    let v1 := (fst p1 - fst p0, snd p1 - snd p0) in
    let v2 := (fst p2 - fst p1, snd p2 - snd p1) in
    let cross := Qabs (fst v1 * snd v2 - snd v1 * fst v2) in
    let l1 := norm_of_sq (fst v1 ^ 2 + snd v1 ^ 2) in
    let l2 := norm_of_sq (fst v2 ^ 2 + snd v2 ^ 2) in
    if Qlt_le_dec 0 l1 then
      if Qlt_le_dec 0 l2 then cross / (l1 * l2) else 0
    else 0)
  (seq 0 n).

Fixpoint insert_sorted (x : Q) (l : list Q) : list Q :=
  match l with
  | [] => [x]
  | y :: rest => if Qle_bool x y then x :: l else y :: insert_sorted x rest
  end.

Definition sort_Q (l : list Q) : list Q := fold_right insert_sorted [] l.

(** [np.percentile(a, q)] with the default, linear, interpolation, for a
    non-empty [a]. *)
Definition percentile (a : list Q) (q : Q) : Q :=
  let sorted := sort_Q a in
  let n := List.length a in
  let virtual_index := inject_Z (Z.of_nat (n - 1)) * (q / 100) in
  let previous := Z.to_nat (Qfloor virtual_index) in
  let next := Nat.min (previous + 1) (n - 1) in
  let gamma := virtual_index - inject_Z (Qfloor virtual_index) in
  let lo := nth previous sorted 0 in
  let hi := nth next sorted 0 in
  lo + (hi - lo) * gamma.

(** [np.max] of an array of finite floats; the array is not empty where it
    is used. *)
Definition max_Q (l : list Q) : Q :=
  match l with
  | [] => 0
  | x :: xs => fold_left (fun m y => if Qlt_le_dec m y then y else m) xs x
  end.

(** [np.clip(x, lo, hi)]: [NaN] stays [NaN]. *)
Definition fl_clip (x lo hi : float) : float :=
  match x with
  | NaN => NaN
  | _ => if fl_ltb x lo then lo else if fl_gtb x hi then hi else x
  end.

(** [np.max] and [np.min] of a non-empty float array: [NaN] if any element is. *)
Definition fl_max2 (a b : float) : float :=
  match a, b with
  | NaN, _ | _, NaN => NaN
  | _, _ => if fl_ltb a b then b else a
  end.

Definition fl_min2 (a b : float) : float :=
  match a, b with
  | NaN, _ | _, NaN => NaN
  | _, _ => if fl_ltb b a then b else a
  end.

Definition np_max (l : list float) : result float :=
  match l with
  | [] => Raise ValueError_empty_reduction
  | x :: rest => Ok (fold_left fl_max2 rest x)
  end.

Definition np_min (l : list float) : result float :=
  match l with
  | [] => Raise ValueError_empty_reduction
  | x :: rest => Ok (fold_left fl_min2 rest x)
  end.

(** Entry [j] of the full discrete convolution of [a] and [v]. *)
Definition convolve_at (a v : list float) (j : nat) : float :=
  fold_left
    (fun acc i =>
       if Nat.leb i j && Nat.ltb (j - i) (List.length v)
       then fl_add acc (fl_mul (nth i a NaN) (nth (j - i) v NaN))
       else acc)
    (seq 0 (List.length a)) (Fin 0).

(** [np.convolve(a, v, mode='same')] for non-empty arrays: the arguments are
    swapped when [v] is the longer one, and the result is the middle of the
    full convolution, as long as the longer argument. *)
Definition convolve_same (a v : list float) : list float :=
  let '(a, v) := if Nat.ltb (List.length a) (List.length v) then (v, a) else (a, v) in
  let offset := ((List.length v - 1) / 2)%nat in
  map (fun k => convolve_at a v (k + offset)) (seq 0 (List.length a)).

Section Speeds.

(** [ai_line.default_speed] and [ai_line.min_corner_speed] of
    [track_config.json] (80.0 and 40.0 when absent), in km/h. *)
Variable DEFAULT_SPEED : Q.
Variable MIN_CORNER_SPEED : Q.

(** The value of [speeds] before the smoothing filter is applied, for a
    non-empty [curvature]. *)
Definition speeds_before_smoothing (curvature : list Q) : list float :=
  let max_curv :=
    if Qlt_le_dec 0 (max_Q curvature) then percentile curvature 95 else 1 in
  let norm_curv :=
    map (fun c => fl_clip (fl_div (Fin c) (Fin max_curv)) (Fin 0) (Fin 1)) curvature in
  map (fun nc => fl_sub (Fin DEFAULT_SPEED)
                        (fl_mul nc (Fin (DEFAULT_SPEED - MIN_CORNER_SPEED))))
      norm_curv.

Definition kernel_size : nat := 15.

Definition compute_speeds (curvature : list Q) : result (list float) :=
  match curvature with
  | [] => Raise ValueError_empty_reduction
  | _ =>
      let speeds := speeds_before_smoothing curvature in
      let kernel := repeat (fl_div (Fin 1) (Fin (inject_Z (Z.of_nat kernel_size)))) kernel_size in
      Ok (convolve_same speeds kernel)
  end.

(** *** The racing-line file *)

Definition find_start_index (start_obj : option point3) (pts_blender : list point3)
    : P nat :=
  match start_obj with
  | None => print Warning_start_not_found ;;; pret 0%nat
  | Some pos =>
      let '(pos_x, pos_y, _) := pos in
      let dists :=
        map (fun '(x, y, _) => (x - pos_x) ^ 2 + (y - pos_y) ^ 2) pts_blender in
      idx <- plift (argmin dists) ;;
      print (Start_finish_at pos_x pos_y idx) ;;;
      pret idx
  end.

(** Blender (x, y, z) to engine (x, z, -y).  The script keeps [ac_pts],
    [cum_dist], [gas], [brake] and [lateral] in float32 arrays; here their
    elements are exact values, and take their float32 pattern where they
    are packed. *)
Definition to_ac (p : point3) : point3 :=
  let '(x, y, z) := p in (x, z, - y).

(** [np.linalg.norm] of the difference of two consecutive points. *)
Definition seg_length (p q : point3) : Q := norm_of_sq (sq_dist q p).

(** [np.linalg.norm(np.diff(ac_pts, axis=0), axis=1)] *)
Definition seg_lengths (ac_pts : list point3) : list Q :=
  map (fun '(p, q) => seg_length p q) (combine (removelast ac_pts) (tl ac_pts)).

(** [np.cumsum] *)
Fixpoint cumsum_from (acc : Q) (l : list Q) : list Q :=
  match l with
  | [] => []
  | x :: rest => (acc + x) :: cumsum_from (acc + x) rest
  end.

(** [cum_dist]: zeros, then [cum_dist[1:] = np.cumsum(seg_lengths)]. *)
Definition cum_dist_of (ac_pts : list point3) : list Q :=
  match ac_pts with
  | [] => []
  | _ => 0 :: cumsum_from 0 (seg_lengths ac_pts)
  end.

(** A float32 array element handed to [struct.pack('<f', _)]. *)
Definition pack_q32 (q : Q) : result (list byte) := Ok (pack_f32 (f32_bits (Fin q))).
Definition pack_fl32 (x : float) : result (list byte) := Ok (pack_f32 (f32_bits x)).

Definition three_point_six : float := Fin (36 # 10).
Definition zero_point_three : float := Fin (3 # 10).

Definition indices_upto (n : nat) : list nat := seq 0 n.

(** One of the four sections that follow the points. *)
Definition write_section (n : nat) (value_at : nat -> result (list byte)) : P unit :=
  f_write (pack_i (Z.of_nat n)) ;;;
  pfor (indices_upto n) (fun i => f_write (value_at i)).

Definition write_ai_file (start_obj : option point3) (centerline_blender : list point3)
    : P unit :=
  ([Makedirs], Ok tt) ;;;
  start_idx <- find_start_index start_obj centerline_blender ;;
  centerline_blender <-
    (if Nat.ltb 0 start_idx
     then print (Reindexed start_idx) ;;; pret (roll_left start_idx centerline_blender)
     else pret centerline_blender) ;;
  let n := List.length centerline_blender in
  let ac_pts := map to_ac centerline_blender in
  let cum_dist := cum_dist_of ac_pts in
  let curvature := compute_curvature (map xy centerline_blender) in
  speeds <- plift (compute_speeds curvature) ;;
  max_speed <- plift (np_max speeds) ;;
  let gas := map (fun s => fl_div s max_speed) speeds in
  let brake :=
    map (fun g => fl_mul (fl_clip (fl_sub (Fin 1) g) (Fin 0) (Fin 1)) zero_point_three) gas in
  let lateral := repeat (Fin 0) n in
  ([Open_wb], Ok tt) ;;;
  f_write (rbind (pack_i 7) (fun a => rbind (pack_i (Z.of_nat n)) (fun b =>
           rbind (pack_i 0) (fun c => rbind (pack_i 0) (fun d => Ok (a ++ b ++ c ++ d)))))) ;;;
  pfor (indices_upto n) (fun i =>
    let '(x, y, z) := nth i ac_pts (0, 0, 0) in
    f_write (rbind (pack_q32 x) (fun a => rbind (pack_q32 y) (fun b =>
             rbind (pack_q32 z) (fun c => Ok (a ++ b ++ c))))) ;;;
    f_write (pack_q32 (nth i cum_dist 0)) ;;;
    f_write (pack_i (Z.of_nat i))) ;;;
  write_section n (fun i => rbind (index speeds i) (fun s => pack_f (fl_div s three_point_six))) ;;;
  write_section n (fun i => rbind (index gas i) pack_fl32) ;;;
  write_section n (fun i => rbind (index brake i) pack_fl32) ;;;
  write_section n (fun i => rbind (index lateral i) pack_fl32) ;;;
  total_length <- plift (index_last cum_dist) ;;
  print (Written_points n) ;;;
  print (Total_length total_length) ;;;
  lo <- plift (np_min speeds) ;;
  hi <- plift (np_max speeds) ;;
  print (Speed_range lo hi).

(** [None] only when the fuel of [walk] was too small. *)
Definition main (sc : scene) : option (P unit) :=
  match extract_centerline sc with
  | None => None
  | Some extracted =>
      Some (
        print Generating ;;;
        centerline <- extracted ;;
        print Writing_ai_file ;;;
        write_ai_file (ac_start_0 sc) centerline ;;;
        print Done)
  end.

End Speeds.
End GenerateAiLine.

(** ** Vocabulary of the statements *)

(** What the reader sees of a vertex, and the node tree of the data model
    with the serialization in which every node declares the number of
    children that follow it. *)
Module Kn5Model.
Import Py ExportKn5.

(** The float32 patterns of a vector, as the reader decodes them. *)
Definition bits3 (v : vec3) : Z * Z * Z :=
  let '(x, y, z) := v in (f32_bits x, f32_bits y, f32_bits z).

Definition bits2 (v : vec2) : Z * Z :=
  let '(x, y) := v in (f32_bits x, f32_bits y).

(** The eleven float32 of a vertex record, in file order. *)
Definition vertex_words (v : vertex) : list Z :=
  let '(px, py, pz) := bits3 (v_pos v) in
  let '(nx, ny, nz) := bits3 (v_normal v) in
  let '(u, w) := bits2 (v_uv v) in
  let '(tx, ty, tz) := bits3 (v_tangent v) in
  [px; py; pz; nx; ny; nz; u; w; tx; ty; tz].

Definition words_bytes (ws : list Z) : list byte := List.concat (map (le_bytes 4) ws).

Definition vertex_bytes (v : vertex) : list byte := words_bytes (vertex_words v).

Definition word_ok (w : Z) : Prop := 0 <= w < 2 ^ 32.

(** A writer raises. *)
Definition raises {pystr A} (m : W pystr A) : Prop := exists e, outcome_of m = Raise e.

(** A run of the writer with what it printed forgotten. *)
Definition silent {pystr A} (m : W pystr A) : W pystr A := (file_of m, [], outcome_of m).

(** Every vertex gathered so far is referred to by an index. *)
Definition covered (st : list vertex * list Z * list (vert_key * Z)) : Prop :=
  let '(vertices, indices, _) := st in
  forall i, 0 <= i < len vertices -> In i indices.

Section Tree.

Context {pystr : Type}.
Variable utf8_encode : pystr -> list byte.
Variable utf8_decode_replace : list byte -> pystr.

Notation "m ;;; k" := (wbind m (fun _ => k))
  (at level 61, right associativity).

(** The mesh the reader builds from the node of [name], [vertices],
    [indices] and [material_id]: positions, normals and texture coordinates
    as float32, the indices and the material id unchanged. *)
Definition mesh_read_back (name : pystr) (vertices : list vertex) (indices : list Z)
    (material_id : Z) : TrackViewer.mesh pystr :=
  TrackViewer.Mesh (utf8_decode_replace (utf8_encode name))
       (map (fun v => bits3 (v_pos v)) vertices)
       (map (fun v => bits3 (v_normal v)) vertices)
       (map (fun v => bits2 (v_uv v)) vertices)
       indices material_id (len indices / 3).

#[local] Unset Elimination Schemes.

Inductive node : Type :=
| Dummy (name : pystr) (matrix : matrix4) (children : list node)
| MeshLeaf (name : pystr) (vertices : list vertex) (indices : list Z) (material_id : Z).

#[local] Set Elimination Schemes.

Definition children (t : node) : list node :=
  match t with
  | Dummy _ _ cs => cs
  | MeshLeaf _ _ _ _ => []
  end.








Variable pystr_eqb : pystr -> pystr -> bool.
Variable pista_caudina : pystr.





End Tree.

Arguments node pystr : clear implicits.

End Kn5Model.

(** Polygon area, path length and file offsets for the racing line. *)
Module AiModel.
Import Py GenerateAiLine.
Local Open Scope Q_scope.

(** Twice the signed area of the closed polygon through [pts] (the shoelace
    formula, the edge from the last point back to the first included):
    positive when the polygon runs counter-clockwise. *)
Definition polygon_signed_area2 (pts : list point2) : Q :=
  sum_Q (map (fun '((x0, y0), (x1, y1)) => x0 * y1 - x1 * y0)
             (combine pts (tl pts ++ firstn 1 pts))).

Definition in_interval (lo hi : Q) (x : float) : bool :=
  fl_leb (Fin lo) x && fl_leb x (Fin hi).

(** The pairs of consecutive points of [pts]. *)
Definition adjacent (pts : list point2) : list (point2 * point2) :=
  combine (removelast pts) (tl pts).

Definition cross2 (pq : point2 * point2) : Q :=
  let '((x0, y0), (x1, y1)) := pq in x0 * y1 - x1 * y0.

Definition swap2 (pq : point2 * point2) : point2 * point2 := (snd pq, fst pq).





(** The visited edges are distinct edges of [edge_set]. *)
Definition visited_ok (edge_set visited : list nat) : Prop :=
  NoDup visited /\ incl visited edge_set.

End AiModel.

(** ** Concrete scenes *)

Module Examples.
Import Py ExportKn5 GenerateAiLine.

(** Strings of ASCII characters stand for Python strings. *)
Definition ascii_encode : string -> list byte := list_byte_of_string.
Definition ascii_decode : list byte -> string := string_of_list_byte.

(** A name of 10001 characters. *)
Definition long_name : string := string_of_list_byte (repeat x61 (Z.to_nat 10001)).

(** Corner number [i], facing up, without UV layer: at [(i, 0, 0)], and at
    [(i, 1, 0)] for the third corner of a triangle. *)
Definition corner_at (i : nat) : corner :=
  Corner (Fin (inject_Z (Z.of_nat i)), Fin (if Nat.eqb (i mod 3) 2 then 1 else 0), Fin 0)
         (Fin 0, Fin 0, Fin 1) None None.

(** [n] triangles [(i, 0, 0)], [(i + 1, 0, 0)], [(i + 2, 1, 0)] for
    [i = start], [start + 3], ... *)
Fixpoint triangles (start n : nat) : list (list corner) :=
  match n with
  | O => []
  | S k =>
      [corner_at start; corner_at (start + 1); corner_at (start + 2)]
        :: triangles (start + 3) k
  end.

(** A mesh of 21846 triangles that share no vertex: 65538 vertices. *)
Definition big_mesh : mesh_object string :=
  MeshObject "1ROAD"%string None (triangles 0 (Z.to_nat 21846)).

(** The key of [vert_map] for [corner_at i]. *)
Definition key_at (i : nat) : vert_key :=
  (swap_round (c_co (corner_at i)), swap_round (c_nv (corner_at i)), (Fin 0, Fin 0)).

Definition keys_below (a : nat) (vert_map : list (vert_key * Z)) : Prop :=
  Forall (fun kv => exists j, (j < a)%nat /\ fst kv = key_at j) vert_map.

Local Open Scope Q_scope.

(** A road mesh given by the list of its edges (two vertices and whether the
    edge is a boundary) and the list of its vertices (position and incident
    edges). *)
Definition bmesh_of (edges : list (nat * nat * bool)) (verts : list (point3 * list nat)) : bmesh :=
  BMesh (List.length edges)
        (fun e => fst (nth e edges (0%nat, 0%nat, false)))
        (fun e => snd (nth e edges (0%nat, 0%nat, false)))
        (fun v => fst (nth v verts ((0, 0, 0), [])))
        (fun v => snd (nth v verts ((0, 0, 0), []))).

Definition identity : qmatrix4 :=
  ((1, 0, 0, 0), (0, 1, 0, 0), (0, 0, 1, 0), (0, 0, 0, 1)).

(** A triangular ring of three quads: the outer boundary 0-1-2, the inner
    boundary 3-4-5, both counter-clockwise seen from +Z. *)
Definition ring : bmesh :=
  bmesh_of
    [ (0, 1, true); (1, 2, true); (2, 0, true);
      (3, 4, true); (4, 5, true); (5, 3, true);
      (0, 3, false); (1, 4, false); (2, 5, false) ]%nat
    [ ((100, 104, 0), [0; 2; 6]%nat); ((96, 98, 0), [0; 1; 7]%nat);
      ((104, 98, 0), [1; 2; 8]%nat); ((100, 102, 0), [3; 5; 6]%nat);
      ((98, 99, 0), [3; 4; 7]%nat); ((102, 99, 0), [4; 5; 8]%nat) ].

Definition ring_scene : scene := Scene (Some (ring, identity)) None.

(** Three separate triangles: three boundary loops. *)
Definition three_triangles : bmesh :=
  bmesh_of
    [ (0, 1, true); (1, 2, true); (2, 0, true);
      (3, 4, true); (4, 5, true); (5, 3, true);
      (6, 7, true); (7, 8, true); (8, 6, true) ]%nat
    [ ((0, 0, 0), [0; 2]%nat); ((1, 0, 0), [0; 1]%nat); ((0, 1, 0), [1; 2]%nat);
      ((10, 0, 0), [3; 5]%nat); ((11, 0, 0), [3; 4]%nat); ((10, 1, 0), [4; 5]%nat);
      ((20, 0, 0), [6; 8]%nat); ((21, 0, 0), [6; 7]%nat); ((20, 1, 0), [7; 8]%nat) ].

Definition three_triangles_scene : scene := Scene (Some (three_triangles, identity)) None.

Definition three_triangles_loops : list (list point3) :=
  [ [(0, 0, 0); (1, 0, 0); (0, 1, 0)];
    [(10, 0, 0); (11, 0, 0); (10, 1, 0)];
    [(20, 0, 0); (21, 0, 0); (20, 1, 0)] ].

(** Three triangles around the edge 0-1, which is therefore not a boundary:
    the vertices 0 and 1 have three boundary edges each. *)
Definition fan : bmesh :=
  bmesh_of
    [ (0, 1, false); (2, 0, true); (1, 2, true); (0, 3, true);
      (1, 3, true); (0, 4, true); (1, 4, true) ]%nat
    [ ((0, 0, 0), [0; 1; 3; 5]%nat); ((1, 0, 0), [0; 2; 4; 6]%nat);
      ((0, 1, 0), [1; 2]%nat); ((0, 0, 1), [3; 4]%nat); ((0, -1, 0), [5; 6]%nat) ].

(** The chains of [fan]: the second one has two vertices. *)
Definition fan_walks : list (list point3) :=
  [ [(0, 1, 0); (0, 0, 0); (0, 0, 1); (1, 0, 0)]; [(0, 0, 0); (0, -1, 0)] ].

(** A rectangle of 30 by 20, one point per unit of length: 100 points, the
    four corners among them. *)
Definition rectangle : list point3 :=
  map (fun i => (inject_Z (Z.of_nat i), 0, 0)) (seq 0 30) ++
  map (fun i => (30, inject_Z (Z.of_nat i), 0)) (seq 0 20) ++
  map (fun i => (30 - inject_Z (Z.of_nat i), 20, 0)) (seq 0 30) ++
  map (fun i => (0, 20 - inject_Z (Z.of_nat i), 0)) (seq 0 20).


End Examples.

(** ** The marker reader of the manager: [manager.py] *)

Module Manager.
Import Py TrackViewer.

Section Empties.

(** Python [str], [bytes.decode('utf-8', errors='replace')],
    [name.startswith('AC_')] and the literal [""]. *)
Variable pystr : Type.
Variable utf8_decode_replace : list byte -> pystr.
Variable starts_with_AC : pystr -> bool.
Variable empty_str : pystr.

Notation "x <- m ;; k" := (bind m (fun x => k))
  (at level 61, m at next level, right associativity).
Notation "m ;;; k" := (bind m (fun _ => k))
  (at level 61, right associativity).

(** The nested function [_rs]: a length out of range gives the empty
    string and nothing more is read. *)
Definition _rs : R pystr :=
  n <- read_i ;;
  if (n <? 0) || (10000 <? n) then ret empty_str
  else bs <- f_read n ;; ret (utf8_decode_replace bs).

(** The float32 of [struct.unpack('<16f', bs)], four bytes each. *)
Fixpoint words_of (n : nat) (bs : list byte) : list Z :=
  match n with
  | O => []
  | S k => le_value (firstn 4 bs) :: words_of k (skipn 4 bs)
  end.

Definition unpack_16f (bs : list byte) : result (list Z) :=
  if Nat.eqb (List.length bs) 64 then Ok (words_of 16 bs) else Raise StructError.

(** A marker: its name and the float32 of its position. *)
Definition empty : Type := pystr * Z * Z * Z.

(** The nested function [parse_node]; it appends to the list [empties] of
    the enclosing call.  [depth] is the number of nested calls the
    interpreter still allows. *)
Fixpoint parse_node (depth : nat) (empties : list empty) : R (list empty) :=
  match depth with
  | O => raise RecursionError
  | S depth' =>
      node_type <- read_i ;;
      name <- _rs ;;
      num_children <- read_i ;;
      f_read 1 ;;;
      if node_type =? 1 then
        raw <- f_read 64 ;;
        mtx <- lift (unpack_16f raw) ;;
        let empties' :=
          if starts_with_AC name
          then empties ++ [(name, nth 12 mtx 0, nth 13 mtx 0, nth 14 mtx 0)]
          else empties in
        repeat_R (range num_children) (parse_node depth') empties'
      else if node_type =? 2 then
        f_read 3 ;;;
        vc <- read_i ;;
        f_read (vc * 44) ;;;
        ic <- read_i ;;
        f_read (ic * 2) ;;;
        f_read (4 + 29) ;;;
        repeat_R (range num_children) (parse_node depth') empties
      else ret empties
  end.

(** [parse_kn5_empties], from the [open] of the file on. *)
Definition parse_kn5_empties : R (list empty) :=
  magic <- f_read 6 ;;
  if list_eq_dec Byte.byte_eq_dec magic [x73; x63; x36; x39; x36; x39] then
    version <- read_i ;;
    (if 5 <? version then f_read 4 ;;; ret tt else ret tt) ;;;
    tex_count <- read_i ;;
    repeat_R (range tex_count) (fun _ =>
      read_i ;;;
      _rs ;;;
      size <- read_i ;;
      f_read size ;;;
      ret tt) tt ;;;
    mat_count <- read_i ;;
    repeat_R (range mat_count) (fun _ =>
      _rs ;;;
      _rs ;;;
      f_read 2 ;;;
      (if 4 <? version then f_read 4 ;;; ret tt else ret tt) ;;;
      prop_count <- read_i ;;
      repeat_R (range prop_count) (fun _ => _rs ;;; f_read 40 ;;; ret tt) tt ;;;
      samp_count <- read_i ;;
      repeat_R (range samp_count) (fun _ => _rs ;;; f_read 4 ;;; _rs ;;; ret tt) tt) tt ;;;
    parse_node recursion_limit []
  else ret [].

End Empties.

Arguments _rs {pystr} utf8_decode_replace empty_str.
Arguments parse_node {pystr} utf8_decode_replace starts_with_AC empty_str depth empties.
Arguments parse_kn5_empties {pystr} utf8_decode_replace starts_with_AC empty_str.

End Manager.

(** ** The bytes of the sections of a file *)

Module Kn5Bytes.
Import Py ExportKn5 Kn5Model.

Section Bytes.

Context {pystr : Type}.
Variable utf8_encode : pystr -> list byte.
Variable utf8_decode_replace : list byte -> pystr.

(** A string in the file: the length of its encoding, then the encoding. *)
Definition string_bytes (s : pystr) : list byte :=
  le_bytes 4 (len (utf8_encode s)) ++ utf8_encode s.







(** Every string that a material writes is within the guard of the
    readers. *)
Definition short (s : pystr) : Prop := len (utf8_encode s) <= 10000.


(** A string as a reader gets it back. *)
Definition reread (s : pystr) : pystr := utf8_decode_replace (utf8_encode s).



End Bytes.
End Kn5Bytes.

(** ** Markers in a written file *)

Module MarkerModel.
Import Py ExportKn5 Kn5Model Kn5Bytes.

Section Markers.

Context {pystr : Type}.
Variable utf8_encode : pystr -> list byte.
Variable utf8_decode_replace : list byte -> pystr.
Variable starts_with_AC : pystr -> bool.





End Markers.
End MarkerModel.

(** ** Vocabulary for the vertices of a mesh *)

Module MeshModel.
Import Py ExportKn5.

(** The key under which [get_mesh_data] looks a corner up, and the key of a
    vertex it has stored. *)
Definition corner_key (c : corner) : vert_key :=
  (swap_round (c_co c), swap_round (c_nv c),
   match c_raw_uv c with
   | Some (u, v) => (round6 u, round6 (fl_sub (Fin 1) v))
   | None => (Fin 0, Fin 0)
   end).

Definition vertex_key (v : vertex) : vert_key := (v_pos v, v_normal v, v_uv v).

(** The corners of a mesh object in the order of the loops. *)
Definition corners {pystr} (obj : mesh_object pystr) : list corner :=
  List.concat (obj_polygons obj).

(** The state of the corner loop is consistent: [vert_map] has one entry
    per vertex, in order, under the key of the vertex, and every index
    refers to a vertex. *)
Definition consistent (st : list vertex * list Z * list (vert_key * Z)) : Prop :=
  let '(vertices, indices, vert_map) := st in
  vert_map = combine (map vertex_key vertices) (map Z.of_nat (seq 0 (List.length vertices))) /\
  Forall (fun i => 0 <= i < len vertices) indices.

(** The vertices gathered so far have pairwise different keys. *)
Definition distinct_keys (vertices : list vertex) : Prop :=
  forall i j vi vj, (i < j)%nat ->
    nth_error vertices i = Some vi -> nth_error vertices j = Some vj ->
    vert_key_eqb (vertex_key vi) (vertex_key vj) = false.

(** Index number [k] refers to a vertex with the key of corner number [k]. *)
Definition refers (vertices : list vertex) (cs : list corner) (indices : list Z) : Prop :=
  Forall2 (fun c i =>
             exists v, 0 <= i /\ nth_error vertices (Z.to_nat i) = Some v /\
                       (vertex_key v = corner_key c \/
                        vert_key_eqb (vertex_key v) (corner_key c) = true))
          cs indices.

(** A vertex whose position has finite coordinates. *)
Definition finite_pos (v : vertex) : Prop :=
  exists x y z : Q, v_pos v = (Fin x, Fin y, Fin z).

(** The distance from [(cx, cy, cz)] to [(x, y, z)] as
    [compute_bounding_sphere] computes it. *)
Definition distance_from (cx cy cz x y z : Q) : Q :=
  Qsqrt ((x + - cx) * (x + - cx) + (y + - cy) * (y + - cy) + (z + - cz) * (z + - cz)).

End MeshModel.

(** ** The materials of the exporter: [build_material_map] *)

Module MaterialMap.
Import Py ExportKn5.

(** A Blender image: [packed] is the truth value of [img.packed_file],
    [img_rendered] the bytes that [img.save_render] writes. *)
Record image (pystr : Type) : Type := Image {
  img_name : pystr;
  img_packed : bool;
  img_filepath : pystr;
  img_rendered : list byte
}.
Arguments Image {pystr}.
Arguments img_name {pystr}.
Arguments img_packed {pystr}.
Arguments img_filepath {pystr}.
Arguments img_rendered {pystr}.

(** A node of a material's node tree: its [type] and its [image], [None]
    where the node has none. *)
Record shader_node (pystr : Type) : Type := ShaderNode {
  node_type : pystr;
  node_image : option (image pystr)
}.
Arguments ShaderNode {pystr}.
Arguments node_type {pystr}.
Arguments node_image {pystr}.

(** A Blender material.  Its custom properties are the string
    ['ac_shader'] and the numbers [bl_custom]. *)
Record bl_material (pystr : Type) : Type := BlMaterial {
  bl_name : pystr;
  bl_use_nodes : bool;
  bl_nodes : list (shader_node pystr);
  bl_ac_shader : option pystr;
  bl_custom : list (pystr * float)
}.
Arguments BlMaterial {pystr}.
Arguments bl_name {pystr}.
Arguments bl_use_nodes {pystr}.
Arguments bl_nodes {pystr}.
Arguments bl_ac_shader {pystr}.
Arguments bl_custom {pystr}.

(** A mesh object with its material slots, [obj.data.materials]. *)
Record bl_object (pystr : Type) : Type := BlObject {
  bo_name : pystr;
  bo_materials : list (bl_material pystr);
  bo_polygons : list (list corner)
}.
Arguments BlObject {pystr}.
Arguments bo_name {pystr}.
Arguments bo_materials {pystr}.
Arguments bo_polygons {pystr}.

Inductive warning (pystr : Type) : Type :=
| Texture_not_found (path : pystr).
Arguments Texture_not_found {pystr}.

(** The files on disk: the content of each path that [os.path.isfile]
    accepts. *)
Definition files (pystr : Type) : Type := pystr -> option (list byte).

(** The variables of the loop of [build_material_map], the disk and what
    was printed. *)
Record state (pystr : Type) : Type := State {
  materials_list : list (ExportKn5.material pystr);
  mat_name_to_id : list (pystr * Z);
  textures : list (pystr * list byte);
  seen_tex : list pystr;
  disk : files pystr;
  log : list (warning pystr)
}.
Arguments State {pystr}.
Arguments materials_list {pystr}.
Arguments mat_name_to_id {pystr}.
Arguments textures {pystr}.
Arguments seen_tex {pystr}.
Arguments disk {pystr}.
Arguments log {pystr}.

Section Blender.

Variable pystr : Type.
Variable pystr_eqb : pystr -> pystr -> bool.

(** The string operations of the loop: [not s], [a in b], [a + b],
    [os.path.splitext(s)[1]], [os.path.basename], [bpy.path.abspath] and
    [os.path.join(tempfile.gettempdir(), _)]. *)
Variable is_empty : pystr -> bool.
Variable contains : pystr -> pystr -> bool.
Variable str_add : pystr -> pystr -> pystr.
Variable splitext_ext : pystr -> pystr.
Variable basename : pystr -> pystr.
Variable abspath : pystr -> pystr.
Variable in_tempdir : pystr -> pystr.

(** The literals ['TEX_IMAGE'], ['.png'], ['ksPerPixel'], ['txDiffuse'] and
    the four names of [AC_PROPERTY_NAMES]. *)
Variable TEX_IMAGE dot_png DEFAULT_SHADER txDiffuse : pystr.
Variable ksAmbient ksDiffuse ksSpecular ksSpecularEXP : pystr.

(** [AC_PROPERTY_NAMES], each name with its entry of [DEFAULT_PROPERTIES]. *)
Definition DEFAULT_PROPERTIES : list (pystr * float) :=
  [ (ksAmbient, Fin (5 # 10)); (ksDiffuse, Fin (7 # 10));
    (ksSpecular, Fin (2 # 10)); (ksSpecularEXP, Fin 15) ].

(** [bl_mat.get(key, default)] on the numeric custom properties. *)
Definition custom_get (bl_mat : bl_material pystr) (key : pystr) (default : float) : float :=
  match find (fun '(k, _) => pystr_eqb k key) (bl_custom bl_mat) with
  | Some (_, v) => v
  | None => default
  end.

Definition read_ac_properties (bl_mat : bl_material pystr) : list (pystr * float) :=
  map (fun '(key, default) => (key, custom_get bl_mat key default)) DEFAULT_PROPERTIES.

(** [tex_name in seen_tex] *)
Definition seen (tex_name : pystr) (seen_tex : list pystr) : bool :=
  existsb (fun t => pystr_eqb t tex_name) seen_tex.

(** [img.save_render(tmp)] *)
Definition save (d : files pystr) (path : pystr) (data : list byte) : files pystr :=
  fun p => if pystr_eqb path p then Some data else d p.

(** [if tex_name not in seen_tex: seen_tex.add(tex_name);
     textures.append((tex_name, fh.read()))] *)
Definition embed (tex_name : pystr) (data : list byte) (st : state pystr) : state pystr :=
  if seen tex_name (seen_tex st) then st
  else State (materials_list st) (mat_name_to_id st)
             (textures st ++ [(tex_name, data)]) (seen_tex st ++ [tex_name])
             (disk st) (log st).

(** The body of [if node.type == 'TEX_IMAGE' and node.image], up to the
    [break]: the name of the texture, if there is one. *)
Definition image_texture (img : image pystr) (st : state pystr) : option pystr * state pystr :=
  if img_packed img then
    let ext :=
      let e := splitext_ext (img_name img) in
      if is_empty e then dot_png else e in
    let name :=
      if contains ext (img_name img) then img_name img else str_add (img_name img) ext in
    let tmp := in_tempdir name in
    let st := State (materials_list st) (mat_name_to_id st) (textures st) (seen_tex st)
                    (save (disk st) tmp (img_rendered img)) (log st) in
    (Some name, embed name (img_rendered img) st)
  else
    let path := abspath (img_filepath img) in
    match disk st path with
    | Some data =>
        let tex_name := basename path in
        (Some tex_name, embed tex_name data st)
    | None =>
        (None, State (materials_list st) (mat_name_to_id st) (textures st) (seen_tex st)
                     (disk st) (log st ++ [Texture_not_found path]))
    end.

Definition is_image_node (node : shader_node pystr) : bool :=
  pystr_eqb (node_type node) TEX_IMAGE &&
  match node_image node with Some _ => true | None => false end.

(** The loop over the nodes of the material: the first image node decides. *)
Definition texture_of (bl_mat : bl_material pystr) (st : state pystr)
    : option pystr * state pystr :=
  if bl_use_nodes bl_mat then
    match find is_image_node (bl_nodes bl_mat) with
    | Some node =>
        match node_image node with
        | Some img => image_texture img st
        | None => (None, st)
        end
    | None => (None, st)
    end
  else (None, st).

(** The body of the loop over the mesh objects. *)
Definition add_material (st : state pystr) (obj : bl_object pystr) : state pystr :=
  match bo_materials obj with
  | [] => st
  | bl_mat :: _ =>
      let mat_name := bl_name bl_mat in
      match name_map_get pystr pystr_eqb (mat_name_to_id st) mat_name with
      | Some _ => st
      | None =>
          let '(tex_name, st) := texture_of bl_mat st in
          let shader :=
            match bl_ac_shader bl_mat with
            | Some s => s
            | None => DEFAULT_SHADER
            end in
          let props := read_ac_properties bl_mat in
          let samplers :=
            match tex_name with
            | Some t => if is_empty t then [] else [(txDiffuse, 0, t)]
            | None => []
            end in
          let mat_id := len (materials_list st) in
          State (materials_list st ++ [ExportKn5.Material mat_name shader props samplers])
                (mat_name_to_id st ++ [(mat_name, mat_id)])
                (textures st) (seen_tex st) (disk st) (log st)
      end
  end.

(** [build_material_map] on a disk [d]: the state when the loop ends, of
    which the function returns [materials_list], [mat_name_to_id] and
    [textures]. *)
Definition build_material_map (d : files pystr) (mesh_objects : list (bl_object pystr))
    : state pystr :=
  fold_left add_material mesh_objects (State [] [] [] [] d []).

(** The object as the rest of the exporter sees it: its name, the name of
    its first material and its polygons. *)
Definition as_mesh_object (obj : bl_object pystr) : mesh_object pystr :=
  MeshObject (bo_name obj)
    match bo_materials obj with
    | [] => None
    | bl_mat :: _ => Some (bl_name bl_mat)
    end
    (bo_polygons obj).

(** A sampler of a written material names an embedded texture. *)
Definition sampler_ok (st : state pystr) (s : pystr * Z * pystr) : Prop :=
  let '(name, slot, tex_name) := s in
  name = txDiffuse /\ slot = 0 /\ exists data, In (tex_name, data) (textures st).

(** What the loop keeps true of its variables. *)
Definition well_formed (st : state pystr) : Prop :=
  map fst (mat_name_to_id st) = map (ExportKn5.mat_name pystr) (materials_list st) /\
  map snd (mat_name_to_id st) = map Z.of_nat (seq 0 (List.length (materials_list st))) /\
  NoDup (map fst (mat_name_to_id st)) /\
  seen_tex st = map fst (textures st) /\
  NoDup (seen_tex st).

(** The materials and textures of [st] are still those of [st'], at the
    same places. *)
Definition extends (st st' : state pystr) : Prop :=
  (exists more, materials_list st' = materials_list st ++ more) /\
  (exists more, mat_name_to_id st' = mat_name_to_id st ++ more) /\
  (exists more, textures st' = textures st ++ more).

(** What a step on the textures keeps: the materials and the dict are not
    touched, the textures are only appended to. *)
Definition texture_step (st st' : state pystr) : Prop :=
  materials_list st' = materials_list st /\
  mat_name_to_id st' = mat_name_to_id st /\
  (exists more, textures st' = textures st ++ more) /\
  (well_formed st -> well_formed st').

(** Every sampler of every material names an embedded texture, and no
    material has two samplers. *)
Definition samplers_ok (st : state pystr) : Prop :=
  Forall (fun mat => Forall (sampler_ok st) (ExportKn5.mat_samplers pystr mat) /\
                     (List.length (ExportKn5.mat_samplers pystr mat) <= 1)%nat)
         (materials_list st).

(** The first materials of the objects. *)
Definition first_materials (mesh_objects : list (bl_object pystr)) : list (bl_material pystr) :=
  flat_map (fun obj => match bo_materials obj with [] => [] | bl_mat :: _ => [bl_mat] end)
           mesh_objects.

End Blender.

End MaterialMap.

(** ** Vocabulary for the chains and the centerline *)

Module ChainModel.
Import Py GenerateAiLine.

(** The number of vertices that a list of chains records. *)
Definition total (walks : list (list point3)) : nat :=
  list_sum (map (@List.length point3) walks).

End ChainModel.

(** ** Vocabulary for curvature, speeds and the start of the line *)

Module SpeedModel.
Import Py GenerateAiLine.
Local Open Scope Q_scope.

(** A finite float between 0 and [hi]. *)
Definition bounded (hi : Q) (x : float) : Prop :=
  exists q, x = Fin q /\ 0 <= q <= hi.

(** The squared distance, in the Blender XY plane, from [pos] to [p]. *)
Definition xy_distance2 (pos p : point3) : Q :=
  let '(pos_x, pos_y, _) := pos in
  let '(x, y, _) := p in
  (x - pos_x) ^ 2 + (y - pos_y) ^ 2.





End SpeedModel.

(** ** A small scene *)

Module SmallScene.
Import Py ExportKn5 GenerateAiLine.

Definition up : vec3 := (Fin 0, Fin 0, Fin 1).

(** One triangle in the plane z = 0, with a UV layer. *)
Definition triangle_mesh : mesh_object string :=
  MeshObject "1ROAD"%string (Some "asphalt"%string)
    [[Corner (Fin 0, Fin 0, Fin 0) up (Some (Fin 0, Fin 0)) None;
      Corner (Fin 1, Fin 0, Fin 0) up (Some (Fin 1, Fin 0)) None;
      Corner (Fin 0, Fin 1, Fin 0) up (Some (Fin 0, Fin 1)) None]].

(** Two triangles that share an edge: four vertices for six corners. *)
Definition quad_mesh : mesh_object string :=
  MeshObject "1GRASS"%string None
    [[Corner (Fin 0, Fin 0, Fin 0) up None None;
      Corner (Fin 1, Fin 0, Fin 0) up None None;
      Corner (Fin 1, Fin 1, Fin 0) up None None];
     [Corner (Fin 0, Fin 0, Fin 0) up None None;
      Corner (Fin 1, Fin 1, Fin 0) up None None;
      Corner (Fin 0, Fin 1, Fin 0) up None None]].

(** The start marker, at (1, 2, 3) in Blender. *)
Definition start_marker : empty_object string :=
  EmptyObject "AC_START_0"%string
    ((Fin 1, Fin 0, Fin 0, Fin 1), (Fin 0, Fin 1, Fin 0, Fin 2),
     (Fin 0, Fin 0, Fin 1, Fin 3), (Fin 0, Fin 0, Fin 0, Fin 1)).

Definition asphalt : ExportKn5.material string :=
  ExportKn5.Material "asphalt"%string "ksPerPixel"%string
    [("ksAmbient"%string, Fin (1 # 2)); ("ksDiffuse"%string, Fin (7 # 10))]
    [("txDiffuse"%string, 0%Z, "road.png"%string)].

Definition road_png : string * list byte := ("road.png"%string, [x89; x50; x4e; x47]).

(** [name.startswith('AC_')] *)
Definition starts_with_AC (name : string) : bool := String.prefix "AC_" name.

(** A loop of four points around the origin. *)
Definition small_loop : list point3 :=
  [(3, 0, 0); (0, 3, 0); (-3, 0, 0); (0, -3, 0)]%Q.

(** The start marker of the racing line, near the second point of
    [small_loop]. *)
Definition line_start : point3 := (0, 2, 0)%Q.

(** An inner loop for [small_loop]. *)
Definition inner_loop : list point3 :=
  [(0, 1, 0); (-1, 0, 0); (0, -1, 0); (1, 0, 0)]%Q.

(** The two loops of the ring of [Examples], as the chaining returns them,
    and the centerline that the extraction returns for them. *)
Definition ring_loops : list (list point3) :=
  Eval vm_compute in
    match _chain_boundary_loops Examples.ring Examples.identity with
    | Some (_, Ok loops) => loops
    | _ => []
    end.

Definition small_centerline : list point3 :=
  Eval vm_compute in
    match centerline_of small_loop inner_loop with
    | (_, Ok centerline) => centerline
    | _ => []
    end.

(** The material of the road, with a packed image behind a shader node. *)
Definition road_image : MaterialMap.image string :=
  MaterialMap.Image "road.png"%string true ""%string [x89; x50; x4e; x47].

Definition asphalt_material : MaterialMap.bl_material string :=
  MaterialMap.BlMaterial "asphalt"%string true
    [ MaterialMap.ShaderNode "BSDF_PRINCIPLED"%string None;
      MaterialMap.ShaderNode "TEX_IMAGE"%string (Some road_image) ]
    None [("ksAmbient"%string, Fin (4 # 10))].

(** A material with an image in a file, and its own shader. *)
Definition kerb_image : MaterialMap.image string :=
  MaterialMap.Image "kerb"%string false "kerb.dds"%string [].

Definition kerb_material : MaterialMap.bl_material string :=
  MaterialMap.BlMaterial "kerb"%string true
    [MaterialMap.ShaderNode "TEX_IMAGE"%string (Some kerb_image)]
    (Some "ksPerPixelNM"%string) [].

(** [triangle_mesh] and [quad_mesh] with their material slots, and two
    more objects. *)
Definition road_object : MaterialMap.bl_object string :=
  MaterialMap.BlObject "1ROAD"%string [asphalt_material] (obj_polygons triangle_mesh).

Definition grass_object : MaterialMap.bl_object string :=
  MaterialMap.BlObject "1GRASS"%string [] (obj_polygons quad_mesh).

Definition kerb_object : MaterialMap.bl_object string :=
  MaterialMap.BlObject "1KERB"%string [kerb_material] (obj_polygons quad_mesh).

Definition pit_object : MaterialMap.bl_object string :=
  MaterialMap.BlObject "1PIT"%string [asphalt_material] (obj_polygons quad_mesh).

(** [a in b] *)
Definition str_contains (a b : string) : bool :=
  match String.index 0 a b with
  | Some _ => true
  | None => false
  end.

(** The extension of a name with at most one dot and no directory. *)
Definition extension (s : string) : string :=
  match String.index 0 "."%string s with
  | Some i => String.substring i (String.length s - i) s
  | None => ""%string
  end.

(** [build_material_map] on strings, where no path has a directory. *)
Definition string_material_map (d : MaterialMap.files string)
    (mesh_objects : list (MaterialMap.bl_object string)) : MaterialMap.state string :=
  MaterialMap.build_material_map string String.eqb
    (fun s => String.eqb s ""%string) str_contains String.append extension
    (fun path => path) (fun path => path) (fun name => name)
    "TEX_IMAGE"%string ".png"%string "ksPerPixel"%string "txDiffuse"%string
    "ksAmbient"%string "ksDiffuse"%string "ksSpecular"%string "ksSpecularEXP"%string
    d mesh_objects.

(** A disk with the image of the kerb. *)
Definition small_disk : MaterialMap.files string :=
  fun path => if String.eqb path "kerb.dds"%string then Some [x44; x44; x53; x20] else None.

End SmallScene.

(** * Properties *)

(** ** Bytes, integers and float32 *)

Module PyFacts.
Import Py.

Ltac zbool :=
  repeat match goal with
  | H : (_ && _)%bool = true |- _ => apply andb_true_iff in H; destruct H
  | H : (_ || _)%bool = false |- _ => apply orb_false_iff in H; destruct H
  | H : (_ <=? _) = true |- _ => apply Z.leb_le in H
  | H : (_ <? _) = true |- _ => apply Z.ltb_lt in H
  | H : (_ <=? _) = false |- _ => apply Z.leb_gt in H
  | H : (_ <? _) = false |- _ => apply Z.ltb_ge in H
  | H : (_ =? _) = true |- _ => apply Z.eqb_eq in H
  | H : (_ =? _) = false |- _ => apply Z.eqb_neq in H
  end.

Lemma Z_of_byte_range (b : byte) : 0 <= Z_of_byte b < 256.
Proof.
  unfold Z_of_byte. pose proof (Byte.to_N_bounded b) as H.
  split; [apply N2Z.is_nonneg|]. apply N.lt_succ_r in H. change 256 with (Z.of_N 256%N). apply N2Z.inj_lt. exact H.
Qed.

Lemma Z_of_byte_of_Z (z : Z) : Z_of_byte (byte_of_Z z) = z mod 256.
Proof.
  unfold byte_of_Z, Z_of_byte.
  assert (Hr : 0 <= z mod 256 < 256) by (apply Z.mod_pos_bound; lia).
  destruct (Byte.of_N (Z.to_N (z mod 256))) as [b|] eqn:E.
  - apply Byte.to_of_N in E. rewrite E. rewrite Z2N.id; lia.
  - apply Byte.of_N_None_iff in E. exfalso.
    apply N2Z.inj_lt in E. rewrite Z2N.id in E by lia. simpl in E. lia.
Qed.

Lemma byte_of_Z_of_byte (b : byte) : byte_of_Z (Z_of_byte b) = b.
Proof.
  unfold byte_of_Z. rewrite Z.mod_small by apply Z_of_byte_range.
  unfold Z_of_byte. rewrite N2Z.id, Byte.of_to_N. reflexivity.
Qed.

Lemma length_le_bytes (n : nat) (z : Z) : List.length (le_bytes n z) = n.
Proof. revert z; induction n as [|n IH]; intro z; simpl; [reflexivity | now rewrite IH]. Qed.

Lemma le_value_le_bytes (n : nat) (z : Z) :
  le_value (le_bytes n z) = z mod 256 ^ Z.of_nat n.
Proof.
  revert z; induction n as [|n IH]; intro z.
  - simpl. now rewrite Z.mod_1_r.
  - cbn [le_bytes le_value]. rewrite IH, Z_of_byte_of_Z.
    rewrite Nat2Z.inj_succ, Z.pow_succ_r by lia.
    rewrite Z.rem_mul_r by (try apply Z.pow_nonzero; lia).
    reflexivity.
Qed.

Lemma le_value_range (bs : list byte) : 0 <= le_value bs < 256 ^ Z.of_nat (List.length bs).
Proof.
  induction bs as [|b bs IH].
  - simpl. lia.
  - cbn [le_value List.length]. rewrite Nat2Z.inj_succ, Z.pow_succ_r by lia.
    pose proof (Z_of_byte_range b). lia.
Qed.

Lemma le_bytes_le_value (bs : list byte) : le_bytes (List.length bs) (le_value bs) = bs.
Proof.
  induction bs as [|b bs IH]; [reflexivity|].
  cbn [le_value List.length le_bytes].
  pose proof (Z_of_byte_range b) as Hb.
  f_equal.
  - rewrite <- (byte_of_Z_of_byte b) at 2. unfold byte_of_Z.
    replace ((Z_of_byte b + 256 * le_value bs) mod 256) with (Z_of_byte b mod 256); [reflexivity|].
    replace (Z_of_byte b + 256 * le_value bs) with (Z_of_byte b + le_value bs * 256) by lia.
    rewrite Z.mod_add by lia. reflexivity.
  - replace ((Z_of_byte b + 256 * le_value bs) / 256) with (le_value bs); [exact IH|].
    replace (Z_of_byte b + 256 * le_value bs) with (Z_of_byte b + le_value bs * 256) by lia.
    rewrite Z.div_add by lia. rewrite (Z.div_small (Z_of_byte b)) by lia. lia.
Qed.

(** What a successful [struct.pack] returns. *)
Lemma pack_i_ok z bs : pack_i z = Ok bs -> bs = le_bytes 4 z /\ - 2 ^ 31 <= z < 2 ^ 31.
Proof.
  unfold pack_i. destruct (_ && _) eqn:E; [|discriminate].
  intros [= <-]. zbool. split; [reflexivity | lia].
Qed.

Lemma pack_H_ok z bs : pack_H z = Ok bs -> bs = le_bytes 2 z /\ 0 <= z < 2 ^ 16.
Proof.
  unfold pack_H. destruct (_ && _) eqn:E; [|discriminate].
  intros [= <-]. zbool. split; [reflexivity | lia].
Qed.

Lemma pack_B_ok z bs : pack_B z = Ok bs -> bs = le_bytes 1 z /\ 0 <= z < 2 ^ 8.
Proof.
  unfold pack_B. destruct (_ && _) eqn:E; [|discriminate].
  intros [= <-]. zbool. split; [reflexivity | lia].
Qed.

Lemma pack_i_in_range z : - 2 ^ 31 <= z < 2 ^ 31 -> pack_i z = Ok (le_bytes 4 z).
Proof.
  intro H. unfold pack_i.
  rewrite (proj2 (Z.leb_le _ _)), (proj2 (Z.ltb_lt _ _)) by lia. reflexivity.
Qed.

Lemma unpack_i_le_bytes z : - 2 ^ 31 <= z < 2 ^ 31 -> unpack_i (le_bytes 4 z) = Ok z.
Proof.
  intro H. unfold unpack_i. rewrite length_le_bytes. cbn [Nat.eqb].
  rewrite le_value_le_bytes. change (256 ^ Z.of_nat 4) with (2 ^ 32). cbv zeta.
  f_equal. destruct (Z_lt_le_dec z 0).
  - replace (z mod 2 ^ 32) with (z + 2 ^ 32).
    + destruct (Z.ltb_spec (z + 2 ^ 32) (2 ^ 31)); lia.
    + apply Z.mod_unique with (q := -1); lia.
  - rewrite Z.mod_small by lia. destruct (Z.ltb_spec z (2 ^ 31)); lia.
Qed.

Lemma le_value_le_bytes_2 z : 0 <= z < 2 ^ 16 -> le_value (le_bytes 2 z) = z.
Proof.
  intro H. rewrite le_value_le_bytes. change (256 ^ Z.of_nat 2) with (2 ^ 16).
  apply Z.mod_small. exact H.
Qed.

(** *** float32 patterns are 32 bits wide *)

Lemma round_half_even_nonneg a b : 0 <= a -> 0 < b -> 0 <= round_half_even a b.
Proof.
  intros Ha Hb. unfold round_half_even.
  pose proof (Z.div_pos a b Ha Hb).
  destruct (2 * (a mod b) ?= b); [destruct (Z.even _)| |]; lia.
Qed.

Lemma binary32_of_pos_nonneg n d : 0 <= n -> 0 <= binary32_of_pos n d.
Proof.
  intro Hn. unfold binary32_of_pos.
  set (e0 := Z.log2 n - Z.log2 (Z.pos d)).
  set (below := if 0 <=? e0 then _ else _).
  set (e := Z.max _ (-126)).
  assert (He : -126 <= e) by apply Z.le_max_r.
  assert (Hm : 0 <= (if 0 <=? 23 - e
                     then round_half_even (n * 2 ^ (23 - e)) (Z.pos d)
                     else round_half_even n (Z.pos d * 2 ^ (- (23 - e))))).
  { destruct (0 <=? 23 - e) eqn:Hk.
    - apply round_half_even_nonneg; [|lia].
      apply Z.mul_nonneg_nonneg; [lia|]. apply Z.pow_nonneg; lia.
    - apply round_half_even_nonneg; [lia|].
      apply Z.mul_pos_pos; [lia|]. apply Z.pow_pos_nonneg; lia. }
  nia.
Qed.

Lemma f32_bits_range (x : float) : 0 <= f32_bits x < 2 ^ 32.
Proof.
  destruct x as [q| | |]; cbn [f32_bits];
    [| cbv; split; congruence | cbv; split; congruence | cbv; split; congruence].
  unfold Qsign. destruct (q ?= 0)%Q eqn:E.
  - lia.
  - apply Qlt_alt in E. unfold Qlt in E. simpl in E.
    pose proof (binary32_of_pos_nonneg (- Qnum q) (Qden q) ltac:(lia)).
    change f32_sign with (2 ^ 31). change f32_inf with (255 * 2 ^ 23). lia.
  - apply Qgt_alt in E. unfold Qlt in E. simpl in E.
    pose proof (binary32_of_pos_nonneg (Qnum q) (Qden q) ltac:(lia)).
    change f32_inf with (255 * 2 ^ 23). lia.
Qed.

Lemma unpack_f_le_bytes (x : float) : unpack_f (le_bytes 4 (f32_bits x)) = Ok (f32_bits x).
Proof.
  unfold unpack_f. rewrite length_le_bytes. cbn [Nat.eqb].
  rewrite le_value_le_bytes. change (256 ^ Z.of_nat 4) with (2 ^ 32).
  rewrite Z.mod_small by apply f32_bits_range. reflexivity.
Qed.

Lemma pack_f_ok x bs : pack_f x = Ok bs -> bs = le_bytes 4 (f32_bits x).
Proof.
  unfold pack_f. destruct x; [destruct (f32_is_inf _)|..]; congruence.
Qed.

End PyFacts.

(** ** The writer *)

Module ExportKn5Facts.
Import Py PyFacts ExportKn5 Kn5Model.

Section WriterFacts.

Context {pystr : Type}.
Variable utf8_encode : pystr -> list byte.

#[local] Notation "x <- m ;; k" := (wbind m (fun x => k))
  (at level 61, m at next level, right associativity).
#[local] Notation "m ;;; k" := (wbind m (fun _ => k))
  (at level 61, right associativity).

Lemma wbind_ok {A B} (m : W pystr A) (k : A -> W pystr B) out log b :
  wbind m k = (out, log, Ok b) ->
  exists out1 log1 a out2 log2,
    m = (out1, log1, Ok a) /\ k a = (out2, log2, Ok b) /\
    out = out1 ++ out2 /\ log = log1 ++ log2.
Proof.
  unfold wbind. destruct m as [[out1 log1] [a|e]]; [|discriminate].
  destruct (k a) as [[out2 log2] r] eqn:E. intros [= <- <- ->].
  now exists out1, log1, a, out2, log2.
Qed.

Lemma f_write_ok (data : result (list byte)) out (log : list (message pystr)) u :
  f_write data = (out, log, Ok u) -> data = Ok out /\ log = [].
Proof. unfold f_write. destruct data; [intros [= <- <- _]; auto | discriminate]. Qed.

Lemma wret_ok {A} (a b : A) out (log : list (message pystr)) :
  wret a = (out, log, Ok b) -> out = [] /\ log = [] /\ a = b.
Proof. unfold wret. intros [= <- <- <-]. auto. Qed.

(** Monad laws of [W], used to compare two ways of writing the same bytes. *)
Lemma wbind_assoc {A B C} (m : W pystr A) (k : A -> W pystr B) (h : B -> W pystr C) :
  wbind (wbind m k) h = wbind m (fun a => wbind (k a) h).
Proof.
  unfold wbind. destruct m as [[o l] [a|e]]; [|reflexivity].
  destruct (k a) as [[o2 l2] [b|e]]; [|reflexivity].
  destruct (h b) as [[o3 l3] r]. now rewrite !app_assoc.
Qed.

Lemma wbind_wret_r {A} (m : W pystr A) : wbind m wret = m.
Proof.
  unfold wbind, wret. destruct m as [[o l] [a|e]]; [|reflexivity].
  now rewrite !app_nil_r.
Qed.

(** Inversion of a successful run, one [wbind] or [f_write] at a time. *)
Ltac winv :=
  repeat match goal with
  | H : wbind _ _ = (_, _, Ok _) |- _ =>
      let o1 := fresh "o" in let l1 := fresh "l" in let a := fresh "a" in
      let o2 := fresh "o" in let l2 := fresh "l" in
      apply wbind_ok in H; destruct H as (o1 & l1 & a & o2 & l2 & ? & H & -> & ->)
  | H : f_write _ = (_, _, Ok _) |- _ => apply f_write_ok in H; destruct H as [H ->]
  | H : wret _ = (_, _, Ok _) |- _ => apply wret_ok in H; destruct H as (-> & -> & ?)
  | H : pack_i _ = Ok _ |- _ => apply pack_i_ok in H; destruct H as [-> H]
  | H : pack_H _ = Ok _ |- _ => apply pack_H_ok in H; destruct H as [-> H]
  | H : pack_f _ = Ok ?bs |- _ => apply pack_f_ok in H; subst bs
  end.

Lemma pack_3f_ok v bs : pack_3f v = Ok bs -> bs = words_bytes (let '(x, y, z) := bits3 v in [x; y; z]).
Proof.
  destruct v as [[x y] z]. unfold pack_3f, rbind.
  destruct (pack_f x) eqn:Ex; [|discriminate].
  destruct (pack_f y) eqn:Ey; [|discriminate].
  destruct (pack_f z) eqn:Ez; [|discriminate].
  intros [= <-]. winv. unfold words_bytes. cbn [bits3 bits2 map List.concat]. now rewrite app_nil_r.
Qed.

Lemma pack_2f_ok v bs : pack_2f v = Ok bs -> bs = words_bytes (let '(x, y) := bits2 v in [x; y]).
Proof.
  destruct v as [x y]. unfold pack_2f, rbind.
  destruct (pack_f x) eqn:Ex; [|discriminate].
  destruct (pack_f y) eqn:Ey; [|discriminate].
  intros [= <-]. winv. unfold words_bytes. cbn [bits3 bits2 map List.concat]. now rewrite app_nil_r.
Qed.

Ltac winv ::=
  repeat match goal with
  | H : wbind _ _ = (_, _, Ok _) |- _ =>
      let o1 := fresh "o" in let l1 := fresh "l" in let a := fresh "a" in
      let o2 := fresh "o" in let l2 := fresh "l" in
      apply wbind_ok in H; destruct H as (o1 & l1 & a & o2 & l2 & ? & H & -> & ->)
  | H : f_write _ = (_, _, Ok _) |- _ => apply f_write_ok in H; destruct H as [H ->]
  | H : wret _ = (_, _, Ok _) |- _ => apply wret_ok in H; destruct H as (-> & -> & ?)
  | H : pack_i _ = Ok _ |- _ => apply pack_i_ok in H; destruct H as [-> H]
  | H : pack_H _ = Ok _ |- _ => apply pack_H_ok in H; destruct H as [-> H]
  | H : pack_f _ = Ok ?bs |- _ => apply pack_f_ok in H; subst bs
  | H : pack_B _ = Ok _ |- _ => apply pack_B_ok in H; destruct H as [-> H]
  | H : Ok _ = Ok _ |- _ => injection H as H; subst
  | H : pack_3f _ = Ok ?bs |- _ => apply pack_3f_ok in H; subst bs
  | H : pack_2f _ = Ok ?bs |- _ => apply pack_2f_ok in H; subst bs
  end.

Lemma words_bytes_app a b : words_bytes (a ++ b) = words_bytes a ++ words_bytes b.
Proof. unfold words_bytes. now rewrite map_app, concat_app. Qed.

Lemma length_words_bytes ws : List.length (words_bytes ws) = (4 * List.length ws)%nat.
Proof.
  induction ws as [|w ws IH]; [reflexivity|].
  unfold words_bytes in *. cbn [map List.concat]. rewrite length_app, IH, length_le_bytes.
  cbn [List.length]. lia.
Qed.

(** The body of the vertex loop writes the 44 bytes of the record. *)
Lemma write_vertices_ok (vertices : list vertex) out (log : list (message pystr)) :
  wfor vertices (fun v =>
    f_write (pack_3f (v_pos v)) ;;;
    f_write (pack_3f (v_normal v)) ;;;
    f_write (pack_2f (v_uv v)) ;;;
    f_write (pack_3f (v_tangent v))) = (out, log, Ok tt) ->
  out = List.concat (map vertex_bytes vertices) /\ log = [].
Proof.
  revert out log. induction vertices as [|v vs IH]; intros out log H.
  - cbn in H. winv. auto.
  - cbn [wfor] in H. winv.
    destruct (IH _ _ H) as [-> ->]. split; [|reflexivity].
    cbn [map List.concat]. rewrite !app_assoc. f_equal.
    unfold vertex_bytes, vertex_words.
    destruct (bits3 (v_pos v)) as [[px py] pz].
    destruct (bits3 (v_normal v)) as [[nx ny] nz].
    destruct (bits2 (v_uv v)) as [u w].
    destruct (bits3 (v_tangent v)) as [[tx ty] tz].
    rewrite <- !words_bytes_app. reflexivity.
Qed.

Lemma write_index_triples_ok (indices : list Z) out (log : list (message pystr)) :
  write_index_triples indices = (out, log, Ok tt) ->
  out = List.concat (map (le_bytes 2) indices) /\ log = [] /\
  Forall (fun i => 0 <= i < 2 ^ 16) indices /\
  (List.length indices mod 3 = 0)%nat.
Proof.
  remember (List.length indices) as n eqn:Hn.
  revert indices Hn out log.
  induction n as [n IH] using lt_wf_ind. intros indices Hn out log H.
  destruct indices as [|i0 [|i1 [|i2 rest]]]; cbn [write_index_triples] in H.
  - winv. subst. repeat split; auto.
  - winv. discriminate.
  - winv. discriminate.
  - winv. cbn [List.length] in Hn.
    destruct (IH (List.length rest) ltac:(lia) rest eq_refl _ _ H) as (-> & -> & HF & Hm).
    split; [|split; [|split]].
    + cbn [map List.concat le_bytes app]. reflexivity.
    + reflexivity.
    + repeat constructor; auto; lia.
    + subst n. change (S (S (S (List.length rest)))) with (3 + List.length rest)%nat.
      rewrite Nat.add_comm. rewrite <- (Nat.mul_1_l 3) at 1.
      rewrite Nat.Div0.mod_add. exact Hm.
Qed.

(** The bytes of a mesh node that was written without an exception. *)
Lemma write_mesh_node_ok name vertices indices material_id out (log : list (message pystr)) :
  write_mesh_node utf8_encode name vertices indices material_id = (out, log, Ok tt) ->
  exists trailer,
    List.length trailer = 29%nat /\
    out = le_bytes 4 2 ++ le_bytes 4 (len (utf8_encode name)) ++ utf8_encode name ++
          le_bytes 4 0 ++ [x01] ++ [x01; x01; x00] ++
          le_bytes 4 (len vertices) ++ List.concat (map vertex_bytes vertices) ++
          le_bytes 4 (len indices) ++ List.concat (map (le_bytes 2) indices) ++
          le_bytes 4 material_id ++ trailer /\
    log = [] /\
    len (utf8_encode name) < 2 ^ 31 /\
    len vertices < 2 ^ 31 /\
    len indices < 2 ^ 31 /\
    Forall (fun i => 0 <= i < 2 ^ 16) indices /\
    (List.length indices mod 3 = 0)%nat /\
    - 2 ^ 31 <= material_id < 2 ^ 31.
Proof.
  unfold write_mesh_node, write_string.
  destruct (compute_bounding_sphere vertices) as [[[cx cy] cz] radius].
  intro H. winv.
  repeat match goal with a : unit |- _ => destruct a end.
  match goal with
  | Hv : wfor vertices _ = _ |- _ => apply write_vertices_ok in Hv; destruct Hv as [-> ->]
  end.
  match goal with
  | Hi : write_index_triples indices = _ |- _ =>
      apply write_index_triples_ok in Hi; destruct Hi as (-> & -> & HF & Hm)
  end.
  match goal with
  | Hf : rbind (pack_B 1) _ = Ok _ |- _ => cbn in Hf; injection Hf as <-
  end.
  exists (le_bytes 4 0 ++ le_bytes 4 (f32_bits (Fin 0)) ++ le_bytes 4 (f32_bits (Fin 0)) ++
          words_bytes [f32_bits cx; f32_bits cy; f32_bits cz] ++
          le_bytes 4 (f32_bits radius) ++ le_bytes 1 1).
  split; [|split; [|split; [|split; [|split; [|split; [|split; [|split]]]]]]];
    try assumption; try reflexivity; try lia.
Qed.

End WriterFacts.
End ExportKn5Facts.

(** ** The reader *)

Module TrackViewerFacts.
Import Py PyFacts Kn5Model ExportKn5Facts TrackViewer.

#[local] Notation "x <- m ;; k" := (bind m (fun x => k))
  (at level 61, m at next level, right associativity).
#[local] Notation "m ;;; k" := (bind m (fun _ => k))
  (at level 61, right associativity).

Lemma bind_ok {A B} (m : R A) (k : A -> R B) s a s' :
  m s = Ok (a, s') -> bind m k s = k a s'.
Proof. unfold bind. now intros ->. Qed.

Lemma bind_raise {A B} (m : R A) (k : A -> R B) s e :
  m s = Raise e -> bind m k s = Raise e.
Proof. unfold bind. now intros ->. Qed.

Lemma f_read_app (n : Z) (bs rest : list byte) :
  n = Z.of_nat (List.length bs) -> f_read n (bs ++ rest) = Ok (bs, rest).
Proof.
  intros ->. unfold f_read.
  destruct (Z.ltb_spec (Z.of_nat (List.length bs)) 0); [lia|].
  rewrite Nat2Z.id, firstn_app, skipn_app, Nat.sub_diag, firstn_all, skipn_all.
  cbn. now rewrite app_nil_r.
Qed.

Lemma read_i_app (z : Z) (rest : list byte) :
  - 2 ^ 31 <= z < 2 ^ 31 -> read_i (le_bytes 4 z ++ rest) = Ok (z, rest).
Proof.
  intro H. unfold read_i.
  rewrite (bind_ok _ _ _ _ _ (f_read_app 4 (le_bytes 4 z) rest ltac:(now rewrite length_le_bytes))).
  unfold lift. now rewrite unpack_i_le_bytes.
Qed.

Lemma read_B_app (z : Z) (rest : list byte) :
  0 <= z < 2 ^ 8 ->
  (bs <- f_read 1 ;; lift (unpack_B bs)) (le_bytes 1 z ++ rest) = Ok (z, rest).
Proof.
  intro H.
  rewrite (bind_ok _ _ _ _ _ (f_read_app 1 (le_bytes 1 z) rest ltac:(now rewrite length_le_bytes))).
  unfold lift, unpack_B. rewrite length_le_bytes. cbn [Nat.eqb].
  rewrite le_value_le_bytes. change (256 ^ Z.of_nat 1) with (2 ^ 8).
  now rewrite Z.mod_small.
Qed.

Section ReaderFacts.

Context {pystr : Type}.
Variable utf8_decode_replace : list byte -> pystr.

(** [read_string] on a length prefix followed by that many bytes. *)
Lemma read_string_app (data rest : list byte) :
  Z.of_nat (List.length data) <= 10000 ->
  read_string utf8_decode_replace (le_bytes 4 (Z.of_nat (List.length data)) ++ data ++ rest)
  = Ok (utf8_decode_replace data, rest).
Proof.
  intro H. unfold read_string.
  rewrite (bind_ok _ _ _ _ _ (read_i_app (Z.of_nat (List.length data)) (data ++ rest) ltac:(lia))).
  destruct (Z.ltb_spec (Z.of_nat (List.length data)) 0); [lia|].
  destruct (Z.ltb_spec 10000 (Z.of_nat (List.length data))); [lia|].
  cbn [orb].
  now rewrite (bind_ok _ _ _ _ _ (f_read_app _ data rest eq_refl)).
Qed.

(** [read_string] on a length outside of [0, 10000]. *)
Lemma read_string_bad_length (length : Z) (rest : list byte) :
  - 2 ^ 31 <= length < 2 ^ 31 ->
  length < 0 \/ 10000 < length ->
  read_string utf8_decode_replace (le_bytes 4 length ++ rest)
  = Raise (ValueError_bad_string_length length).
Proof.
  intros Hr H. unfold read_string.
  rewrite (bind_ok _ _ _ _ _ (read_i_app _ _ Hr)).
  destruct (Z.ltb_spec length 0); [reflexivity|].
  destruct (Z.ltb_spec 10000 length); [reflexivity|lia].
Qed.

End ReaderFacts.

(** *** Decoding vertex records *)

Lemma slice_app (pre x rest : list byte) (off n : nat) :
  off = List.length pre -> n = List.length x -> slice (pre ++ x ++ rest) off n = x.
Proof.
  intros -> ->. unfold slice.
  rewrite skipn_app, skipn_all, Nat.sub_diag. cbn [skipn app].
  rewrite firstn_app, Nat.sub_diag, firstn_all. cbn. now rewrite app_nil_r.
Qed.

Lemma unpack_f_word w : word_ok w -> unpack_f (le_bytes 4 w) = Ok w.
Proof.
  intro H. unfold unpack_f. rewrite length_le_bytes. cbn [Nat.eqb].
  rewrite le_value_le_bytes. change (256 ^ Z.of_nat 4) with (2 ^ 32).
  now rewrite Z.mod_small.
Qed.

(** The float32 number [k] of a run of float32 that starts at [off]. *)
Lemma word_at (ws : list Z) (k : nat) (pre rest : list byte) (off : nat) :
  off = List.length pre -> (k < List.length ws)%nat -> Forall word_ok ws ->
  unpack_f (slice (pre ++ words_bytes ws ++ rest) (off + 4 * k) 4) = Ok (nth k ws 0).
Proof.
  revert k pre off. induction ws as [|w ws IH]; intros k pre off Hoff Hk HF.
  - cbn in Hk. lia.
  - inversion HF as [|? ? Hw HF']; subst.
    unfold words_bytes. cbn [map List.concat]. fold (words_bytes ws).
    destruct k as [|k].
    + rewrite Nat.mul_0_r, Nat.add_0_r, <- app_assoc.
      rewrite slice_app by (now rewrite ?length_le_bytes).
      cbn [nth]. now apply unpack_f_word.
    + cbn [nth]. rewrite <- app_assoc.
      replace (pre ++ le_bytes 4 w ++ words_bytes ws ++ rest)
        with ((pre ++ le_bytes 4 w) ++ words_bytes ws ++ rest) by now rewrite <- app_assoc.
      replace (List.length pre + 4 * S k)%nat with (List.length pre + 4 + 4 * k)%nat by lia.
      apply IH; [| cbn in Hk; lia | assumption].
      rewrite length_app, length_le_bytes. reflexivity.
Qed.

Import ExportKn5.

Lemma vertex_words_ok v : Forall word_ok (vertex_words v).
Proof.
  unfold vertex_words.
  destruct (v_pos v) as [[? ?] ?], (v_normal v) as [[? ?] ?], (v_uv v) as [? ?],
           (v_tangent v) as [[? ?] ?].
  cbn [bits3 bits2]. repeat constructor; apply f32_bits_range.
Qed.

Lemma length_vertex_words v : List.length (vertex_words v) = 11%nat.
Proof.
  unfold vertex_words.
  destruct (v_pos v) as [[? ?] ?], (v_normal v) as [[? ?] ?], (v_uv v) as [? ?],
           (v_tangent v) as [[? ?] ?].
  reflexivity.
Qed.

Lemma length_vertex_bytes v : List.length (vertex_bytes v) = 44%nat.
Proof. unfold vertex_bytes. now rewrite length_words_bytes, length_vertex_words. Qed.

Lemma length_vertices_bytes vs :
  List.length (List.concat (map vertex_bytes vs)) = (44 * List.length vs)%nat.
Proof.
  induction vs as [|v vs IH]; [reflexivity|].
  cbn [map List.concat List.length]. rewrite length_app, length_vertex_bytes, IH. lia.
Qed.

Lemma unpack_vertices_records (vs : list vertex) (pre : list byte) (i : nat) :
  List.length pre = (i * 44)%nat ->
  unpack_vertices (pre ++ List.concat (map vertex_bytes vs)) i (List.length vs)
  = Ok (map (fun v => bits3 (v_pos v)) vs,
        map (fun v => bits3 (v_normal v)) vs,
        map (fun v => bits2 (v_uv v)) vs).
Proof.
  revert pre i. induction vs as [|v vs IH]; intros pre i Hpre; [reflexivity|].
  cbn [List.length unpack_vertices map List.concat].
  pose proof (vertex_words_ok v) as Hok.
  pose proof (length_vertex_words v) as Hlen.
  assert (Hraw : List.length (pre ++ vertex_bytes v ++ List.concat (map vertex_bytes vs))
                 = (i * 44 + 44 + 44 * List.length vs)%nat).
  { rewrite !length_app, length_vertex_bytes, length_vertices_bytes. lia. }
  assert (W : forall k, (k < 11)%nat ->
            unpack_f (slice (pre ++ vertex_bytes v ++ List.concat (map vertex_bytes vs))
                            (i * 44 + 4 * k) 4) = Ok (nth k (vertex_words v) 0)).
  { intros k Hk. unfold vertex_bytes. apply word_at; [lia | lia | assumption]. }
  unfold unpack_from_3f, unpack_from_2f. rewrite Hraw.
  repeat match goal with
  | |- context [Nat.leb ?a ?b] =>
      let E := fresh in destruct (Nat.leb_spec a b) as [E|E]; [clear E | exfalso; lia]
  end.
  replace (i * 44 + 4)%nat with (i * 44 + 4 * 1)%nat by lia.
  replace (i * 44 + 8)%nat with (i * 44 + 4 * 2)%nat by lia.
  replace (i * 44 + 12 + 4)%nat with (i * 44 + 4 * 4)%nat by lia.
  replace (i * 44 + 12 + 8)%nat with (i * 44 + 4 * 5)%nat by lia.
  replace (i * 44 + 12)%nat with (i * 44 + 4 * 3)%nat by lia.
  replace (i * 44 + 24 + 4)%nat with (i * 44 + 4 * 7)%nat by lia.
  replace (i * 44 + 24)%nat with (i * 44 + 4 * 6)%nat by lia.
  replace (i * 44)%nat with (i * 44 + 4 * 0)%nat at 1 by lia.
  rewrite !W by lia. cbn [rbind].
  replace (pre ++ vertex_bytes v ++ List.concat (map vertex_bytes vs))
    with ((pre ++ vertex_bytes v) ++ List.concat (map vertex_bytes vs))
    by now rewrite <- app_assoc.
  rewrite IH by (rewrite length_app, length_vertex_bytes; lia).
  unfold vertex_words.
  destruct (v_pos v) as [[? ?] ?], (v_normal v) as [[? ?] ?], (v_uv v) as [? ?],
           (v_tangent v) as [[? ?] ?].
  reflexivity.
Qed.

Lemma frombuffer_uint16_indices (indices : list Z) :
  Forall (fun i => 0 <= i < 2 ^ 16) indices ->
  frombuffer_uint16 (List.concat (map (le_bytes 2) indices)) = Ok indices.
Proof.
  induction 1 as [|i l Hi _ IH]; [reflexivity|].
  cbn [map List.concat].
  change (le_bytes 2 i ++ List.concat (map (le_bytes 2) l))
    with (byte_of_Z i :: byte_of_Z (i / 256) :: List.concat (map (le_bytes 2) l)).
  change (frombuffer_uint16 (byte_of_Z i :: byte_of_Z (i / 256) :: List.concat (map (le_bytes 2) l)))
    with (rbind (frombuffer_uint16 (List.concat (map (le_bytes 2) l)))
                (fun r => Ok (le_value (le_bytes 2 i) :: r))).
  rewrite IH. cbn [rbind]. now rewrite le_value_le_bytes_2.
Qed.

End TrackViewerFacts.

(** ** Writing a mesh node and reading it back *)

Module Kn5RoundTrip.
Import Py PyFacts ExportKn5 Kn5Model ExportKn5Facts TrackViewer TrackViewerFacts Examples.

#[local] Notation "x <- m ;; k" := (bind m (fun x => k))
  (at level 61, m at next level, right associativity).
#[local] Notation "m ;;; k" := (bind m (fun _ => k))
  (at level 61, right associativity).

Lemma length_indices_bytes (indices : list Z) :
  List.length (List.concat (map (le_bytes 2) indices)) = (2 * List.length indices)%nat.
Proof.
  induction indices as [|i l IH]; [reflexivity|].
  cbn [map List.concat List.length]. rewrite length_app, length_le_bytes, IH. lia.
Qed.

(** The reader skips the 29 bytes that follow the material id. *)
Lemma skip_trailer {A} (trailer rest : list byte) (k : R A) :
  List.length trailer = 29%nat ->
  (f_read 4 ;;; f_read 4 ;;; f_read 4 ;;; f_read 12 ;;; f_read 4 ;;; f_read 1 ;;; k)
    (trailer ++ rest) = k rest.
Proof.
  intro H.
  do 29 (destruct trailer as [|? trailer]; [discriminate H|]).
  destruct trailer; [|discriminate H]. reflexivity.
Qed.

Section RoundTrip.

Context {pystr : Type}.
Variable utf8_encode : pystr -> list byte.
Variable utf8_decode_replace : list byte -> pystr.

Ltac rstep tac := erewrite bind_ok by tac; cbv beta.

Lemma parse_written_mesh_node name vertices indices material_id out log depth meshes rest :
  write_mesh_node utf8_encode name vertices indices material_id = (out, log, Ok tt) ->
  len (utf8_encode name) <= 10000 ->
  parse_node utf8_decode_replace (S depth) meshes (out ++ rest)
  = Ok (meshes ++ [mesh_read_back utf8_encode utf8_decode_replace name vertices indices material_id], rest).
Proof.
  intros Hw Hname.
  apply write_mesh_node_ok in Hw.
  destruct Hw as (trailer & Htr & -> & _ & _ & Hnv & Hni & HF & _ & Hmat).
  unfold len in *.
  cbn [parse_node]. rewrite <- !app_assoc.
  rstep ltac:(apply read_i_app; lia).
  rstep ltac:(apply read_string_app; lia).
  rstep ltac:(apply read_i_app; lia).
  rstep ltac:(apply (read_B_app 1); lia).
  change (2 =? 1) with false. change (2 =? 2) with true. cbv iota.
  rstep ltac:(apply f_read_app; reflexivity).
  rstep ltac:(apply read_i_app; lia).
  rstep ltac:(apply f_read_app; rewrite length_vertices_bytes; lia).
  destruct (Z.ltb_spec (Z.of_nat (List.length vertices)) 0); [lia|].
  rstep ltac:(reflexivity).
  unfold range. rewrite Nat2Z.id.
  pose proof (unpack_vertices_records vertices [] 0 eq_refl) as Hv.
  cbn [app] in Hv. rewrite Hv.
  unfold bind at 1, lift at 1. cbv beta iota.
  rstep ltac:(apply read_i_app; lia).
  rstep ltac:(apply f_read_app; rewrite length_indices_bytes; lia).
  rewrite (frombuffer_uint16_indices indices HF).
  unfold bind at 1, lift at 1. cbv beta iota.
  rstep ltac:(apply read_i_app; lia).
  rewrite skip_trailer by assumption.
  reflexivity.
Qed.

End RoundTrip.
End Kn5RoundTrip.

(** ** The node tree *)

Module NodeTreeFacts.
Import Py ExportKn5 Kn5Model ExportKn5Facts.

Section Facts.

Context {pystr : Type}.
Variable utf8_encode : pystr -> list byte.
Variable pystr_eqb : pystr -> pystr -> bool.
Variable pista_caudina : pystr.

#[local] Notation "x <- m ;; k" := (wbind m (fun x => k))
  (at level 61, m at next level, right associativity).
#[local] Notation "m ;;; k" := (wbind m (fun _ => k))
  (at level 61, right associativity).

Lemma silent_wbind {A B} (m : W pystr A) (k : A -> W pystr B) :
  silent (wbind m k) = wbind (silent m) (fun a => silent (k a)).
Proof.
  unfold silent, wbind, file_of, outcome_of.
  destruct m as [[o l] [a|e]]; cbn; [|reflexivity].
  destruct (k a) as [[o' l'] r]; reflexivity.
Qed.

Lemma wbind_ext {A B} (m : W pystr A) (k k' : A -> W pystr B) :
  (forall a, k a = k' a) -> wbind m k = wbind m k'.
Proof.
  intro H. unfold wbind. destruct m as [[o l] [a|e]]; [|reflexivity]. now rewrite H.
Qed.



Lemma silent_f_write data : silent (f_write (pystr := pystr) data) = f_write data.
Proof. destruct data; reflexivity. Qed.


Lemma wbind_wret_l {A B} (a : A) (k : A -> W pystr B) : wbind (wret a) k = k a.
Proof. unfold wbind, wret. destruct (k a) as [[o l] r]. reflexivity. Qed.





(** Writers that print nothing. *)
Lemma silent_write_string s : silent (write_string utf8_encode s) = write_string utf8_encode s.
Proof.
  unfold write_string. rewrite silent_wbind, silent_f_write.
  apply wbind_ext. intros _. apply silent_f_write.
Qed.




Lemma silent_silent {A} (m : W pystr A) : silent (silent m) = silent m.
Proof. reflexivity. Qed.


Lemma log_wbind_nil {A B} (m : W pystr A) (k : A -> W pystr B) :
  log_of m = [] -> (forall a, log_of (k a) = []) -> log_of (wbind m k) = [].
Proof.
  destruct m as [[o l] [a|e]]; cbn; intros -> H; [|reflexivity].
  specialize (H a). destruct (k a) as [[o' l'] r]. cbn in *. now subst.
Qed.

Lemma log_f_write data : log_of (f_write (pystr := pystr) data) = [].
Proof. destruct data; reflexivity. Qed.

Lemma log_wfor_nil {A} (l : list A) (body : A -> W pystr unit) :
  (forall x, log_of (body x) = []) -> log_of (wfor l body) = [].
Proof.
  intro H. induction l as [|x l IH]; [reflexivity|].
  cbn [wfor]. apply log_wbind_nil; auto.
Qed.

Lemma log_write_index_triples indices : log_of (write_index_triples (pystr := pystr) indices) = [].
Proof.
  remember (List.length indices) as n eqn:Hn. revert indices Hn.
  induction n as [n IH] using lt_wf_ind. intros indices Hn.
  destruct indices as [|i0 [|i1 [|i2 rest]]]; cbn [write_index_triples];
    repeat (apply log_wbind_nil; [apply log_f_write | intros _]); try reflexivity.
  apply (IH (List.length rest)); [subst; cbn; lia | reflexivity].
Qed.

Ltac quiet :=
  repeat first
    [ apply log_f_write
    | apply log_write_index_triples
    | apply log_wbind_nil; [| intros ?]
    | apply log_wfor_nil; intros ?
    | reflexivity ].





End Facts.
End NodeTreeFacts.

(** ** Reading the node hierarchy back *)

Module Kn5Hierarchy.
Import Py PyFacts ExportKn5 Kn5Model ExportKn5Facts TrackViewer TrackViewerFacts Kn5RoundTrip.
Import NodeTreeFacts.

Section Hierarchy.

Context {pystr : Type}.
Variable utf8_encode : pystr -> list byte.
Variable utf8_decode_replace : list byte -> pystr.

#[local] Notation "m ;;; k" := (wbind m (fun _ => k))
  (at level 61, right associativity).

Ltac winv :=
  repeat match goal with
  | H : wbind _ _ = (_, _, Ok _) |- _ =>
      let o1 := fresh "o" in let l1 := fresh "l" in let a := fresh "a" in
      let o2 := fresh "o" in let l2 := fresh "l" in
      apply wbind_ok in H; destruct H as (o1 & l1 & a & o2 & l2 & ? & H & -> & ->)
  | H : f_write _ = (_, _, Ok _) |- _ => apply f_write_ok in H; destruct H as [H ->]
  | H : wret _ = (_, _, Ok _) |- _ => apply wret_ok in H; destruct H as (-> & -> & ?)
  | H : pack_i _ = Ok _ |- _ => apply pack_i_ok in H; destruct H as [-> H]
  | H : pack_f _ = Ok ?bs |- _ => apply pack_f_ok in H; subst bs
  | H : pack_B _ = Ok _ |- _ => apply pack_B_ok in H; destruct H as [-> H]
  | H : Ok _ = Ok _ |- _ => injection H as H; subst
  end.


Ltac rstep tac := erewrite bind_ok by tac; cbv beta.




Variable pystr_eqb : pystr -> pystr -> bool.
Variable pista_caudina : pystr.


End Hierarchy.
End Kn5Hierarchy.

(** ** Meshes beyond the 16-bit index range *)

Module ExportKn5Overflow.
Import Py PyFacts ExportKn5 Kn5Model ExportKn5Facts NodeTreeFacts Examples.

Section Overflow.

Context {pystr : Type}.
Variable utf8_encode : pystr -> list byte.
Variable pystr_eqb : pystr -> pystr -> bool.
Variable pista_caudina : pystr.

#[local] Notation "x <- m ;; k" := (wbind m (fun x => k))
  (at level 61, m at next level, right associativity).
#[local] Notation "m ;;; k" := (wbind m (fun _ => k))
  (at level 61, right associativity).

Lemma raises_wbind_l {A B} (m : W pystr A) (k : A -> W pystr B) :
  raises m -> raises (wbind m k).
Proof.
  unfold raises, outcome_of, wbind. destruct m as [[o l] [a|e]]; cbn; intros [e' H]; [discriminate|].
  now exists e.
Qed.

Lemma raises_wbind_r {A B} (m : W pystr A) (k : A -> W pystr B) :
  (forall a, raises (k a)) -> raises (wbind m k).
Proof.
  unfold raises, outcome_of, wbind. intro H. destruct m as [[o l] [a|e]]; cbn; [|now exists e].
  destruct (H a) as [e He]. destruct (k a) as [[o' l'] r]. cbn in *. now exists e.
Qed.

Lemma raises_wfor {A} (l : list A) (body : A -> W pystr unit) x :
  In x l -> raises (body x) -> raises (wfor l body).
Proof.
  intros Hin Hx. induction l as [|y l IH]; [contradiction|].
  cbn [wfor]. destruct Hin as [-> | Hin].
  - now apply raises_wbind_l.
  - apply raises_wbind_r. intros _. auto.
Qed.

Lemma add_corner_covered st c : covered st -> covered (add_corner st c).
Proof.
  destruct st as [[vertices indices] vert_map]. unfold covered, add_corner.
  intro H. destruct (vert_map_get vert_map _) as [i|].
  - intros j Hj. apply in_or_app. left. auto.
  - intros j Hj. apply in_or_app. unfold len in *. rewrite length_app in Hj. cbn in Hj.
    destruct (Z.eq_dec j (Z.of_nat (List.length vertices))) as [-> | Hne].
    + right. now left.
    + left. apply H. lia.
Qed.

Lemma fold_add_corner_covered corners st :
  covered st -> covered (fold_left add_corner corners st).
Proof.
  revert st. induction corners as [|c cs IH]; intros st H; [exact H|].
  cbn [fold_left]. apply IH. now apply add_corner_covered.
Qed.

Lemma mesh_data_covered (obj : mesh_object pystr) i :
  0 <= i < len (fst (mesh_data obj)) -> In i (snd (mesh_data obj)).
Proof.
  unfold mesh_data.
  pose proof (fold_add_corner_covered (List.concat (obj_polygons obj)) ([], [], [])) as H.
  destruct (fold_left add_corner _ _) as [[vertices indices] vert_map].
  cbn [fst snd]. apply H. intros j Hj. cbn in Hj. lia.
Qed.

(** A mesh of more than 65536 vertices cannot be written: one of its
    indices does not fit 16 bits. *)
Lemma write_mesh_node_overflow (obj : mesh_object pystr) name material_id :
  65536 < len (fst (mesh_data obj)) ->
  raises (write_mesh_node utf8_encode name (fst (mesh_data obj)) (snd (mesh_data obj)) material_id).
Proof.
  intro Hlen. unfold raises.
  destruct (write_mesh_node _ _ _ _ _) as [[out log] [[]|e]] eqn:E; [|now exists e].
  exfalso. apply write_mesh_node_ok in E.
  destruct E as (_ & _ & _ & _ & _ & _ & _ & HF & _).
  pose proof (mesh_data_covered obj 65536 ltac:(lia)) as Hin.
  rewrite Forall_forall in HF. specialize (HF _ Hin). lia.
Qed.

(** The export stops with an exception at such a mesh. *)
Lemma main_overflow mesh_objects empty_objects materials_list mat_name_to_id textures obj :
  In obj mesh_objects ->
  65536 < len (fst (mesh_data obj)) ->
  raises (main utf8_encode pystr_eqb pista_caudina mesh_objects empty_objects
               materials_list mat_name_to_id textures).
Proof.
  intros Hin Hlen. unfold main, write_nodes.
  do 4 (apply raises_wbind_r; intros _).
  apply raises_wbind_l.
  apply raises_wfor with (x := obj); [exact Hin|].
  apply raises_wbind_r; intros _.
  unfold get_mesh_data.
  pose proof (write_mesh_node_overflow obj (obj_name obj)
                (get_material_id pystr_eqb obj mat_name_to_id) Hlen) as Hr.
  destruct (mesh_data obj) as [vertices indices]. cbn [fst snd] in *.
  rewrite wbind_assoc. apply raises_wbind_r; intros _.
  rewrite wbind_wret_l.
  apply raises_wbind_r; intros _. exact Hr.
Qed.

End Overflow.

(** *** The mesh of 65538 vertices *)

Lemma round_half_even_1 z : round_half_even z 1 = z.
Proof.
  unfold round_half_even. rewrite Z.mod_1_r, Z.div_1_r. reflexivity.
Qed.

Lemma key_at_distinct i j : i <> j -> vert_key_eqb (key_at i) (key_at j) = false.
Proof.
  intro H. unfold key_at, vert_key_eqb, corner_at, swap_round, c_co, c_nv, vec3_eqb.
  match goal with |- (?a && _ && _) && _ && _ = false => assert (Ha : a = false) end.
  { unfold round6, fl_eqb, inject_Z, Qnum, Qden. rewrite !round_half_even_1.
    destruct (Qeq_bool _ _) eqn:E; [|reflexivity].
    apply Qeq_bool_iff in E. unfold Qeq in E. cbn [Qnum Qden] in E. lia. }
  rewrite Ha. reflexivity.
Qed.

Lemma vert_map_get_fresh a vert_map :
  keys_below a vert_map -> vert_map_get vert_map (key_at a) = None.
Proof.
  induction 1 as [|[k i] vm (j & Hj & Hk) _ IH]; [reflexivity|].
  cbn [vert_map_get]. cbn [fst] in Hk. subst k.
  rewrite key_at_distinct by lia. exact IH.
Qed.

Lemma add_corner_fresh a vertices indices vert_map :
  keys_below a vert_map ->
  exists v,
    add_corner (vertices, indices, vert_map) (corner_at a)
    = (vertices ++ [v], indices ++ [len vertices], vert_map ++ [(key_at a, len vertices)]).
Proof.
  intro H. unfold add_corner.
  change (swap_round (c_co (corner_at a)), swap_round (c_nv (corner_at a)),
          match c_raw_uv (corner_at a) with
          | Some (u, v) => (round6 u, round6 (fl_sub (Fin 1) v))
          | None => (Fin 0, Fin 0)
          end) with (key_at a).
  rewrite (vert_map_get_fresh a vert_map H). eexists. reflexivity.
Qed.

Lemma fold_add_corner_fresh k : forall a vertices indices vert_map,
  keys_below a vert_map ->
  List.length (fst (fst (fold_left add_corner (map corner_at (seq a k))
                                   (vertices, indices, vert_map))))
  = (List.length vertices + k)%nat.
Proof.
  induction k as [|k IH]; intros a vertices indices vert_map H.
  - cbn. lia.
  - cbn [seq map fold_left].
    destruct (add_corner_fresh a vertices indices vert_map H) as [v ->].
    rewrite IH.
    + rewrite length_app. cbn. lia.
    + apply Forall_app. split.
      * eapply Forall_impl; [|exact H]. intros kv (j & Hj & Hk). exists j. split; [lia | exact Hk].
      * constructor; [|constructor]. exists a. split; [lia | reflexivity].
Qed.

Lemma concat_triangles n : forall start,
  List.concat (triangles start n) = map corner_at (seq start (3 * n)).
Proof.
  induction n as [|n IH]; intro start; [reflexivity|].
  cbn [triangles List.concat]. rewrite IH.
  replace (3 * S n)%nat with (S (S (S (3 * n)))) by lia.
  cbn [seq map app].
  replace (start + 3)%nat with (S (S (S start))) by lia.
  replace (start + 1)%nat with (S start) by lia.
  replace (start + 2)%nat with (S (S start)) by lia.
  reflexivity.
Qed.

Lemma big_mesh_vertices : len (fst (mesh_data big_mesh)) = 65538.
Proof.
  unfold mesh_data, big_mesh. cbn [obj_polygons]. rewrite concat_triangles.
  unfold len.
  rewrite fold_add_corner_fresh by constructor.
  reflexivity.
Qed.

(** What was printed before an exception stays printed. *)
Lemma in_log_wbind_l {pystr A B} (m : W pystr A) (k : A -> W pystr B) x :
  In x (log_of m) -> In x (log_of (wbind m k)).
Proof.
  unfold log_of, wbind. destruct m as [[o l] [a|e]]; cbn [fst snd]; [|auto].
  destruct (k a) as [[o' l'] r]. cbn [fst snd]. intro H. apply in_or_app. now left.
Qed.

Lemma in_log_wbind_r {pystr A B} (m : W pystr A) (k : A -> W pystr B) o l a x :
  m = (o, l, Ok a) -> In x (log_of (k a)) -> In x (log_of (wbind m k)).
Proof.
  intros ->. unfold log_of, wbind.
  destruct (k a) as [[o' l'] r]. cbn [fst snd]. intro H. apply in_or_app. now right.
Qed.

Lemma big_mesh_warning :
  In (Warning_needs_splitting "1ROAD"%string (Z.to_nat 65538))
     (log_of (main ascii_encode String.eqb "pista_caudina"%string [big_mesh] [] [] [] [])).
Proof.
  unfold main, write_nodes. cbv zeta.
  eapply (in_log_wbind_r (write_header 6)); [vm_compute; reflexivity|].
  eapply (in_log_wbind_r (write_textures ascii_encode [])); [vm_compute; reflexivity|].
  eapply (in_log_wbind_r (write_materials ascii_encode [] 6)); [vm_compute; reflexivity|].
  change (len [big_mesh] + len []) with 1.
  eapply (in_log_wbind_r (write_dummy_node ascii_encode _ _ _)); [vm_compute; reflexivity|].
  apply in_log_wbind_l.
  change (wfor [big_mesh] ?body) with (wbind (body big_mesh) (fun _ => wret tt)).
  apply in_log_wbind_l.
  eapply (in_log_wbind_r (print _)); [reflexivity|].
  apply in_log_wbind_l.
  unfold get_mesh_data.
  pose proof big_mesh_vertices as Hn.
  destruct (mesh_data big_mesh) as [vertices indices]. cbn [fst] in Hn.
  rewrite Hn. change (65535 <? 65538) with true. cbv iota.
  apply in_log_wbind_l. left. cbn [obj_name big_mesh].
  f_equal. unfold len in Hn. rewrite <- Hn. now rewrite Nat2Z.id.
Qed.

End ExportKn5Overflow.

(** ** Chaining the boundary edges *)

Module ChainFacts.
Import Py GenerateAiLine AiModel.

#[local] Notation "x <- m ;; k" := (pbind m (fun x => k))
  (at level 61, m at next level, right associativity).
#[local] Notation "m ;;; k" := (pbind m (fun _ => k))
  (at level 61, right associativity).

Lemma mem_In e s : mem e s = true <-> In e s.
Proof.
  unfold mem. rewrite existsb_exists. split.
  - intros (x & Hx & E). apply Nat.eqb_eq in E. now subst.
  - intro H. exists e. split; [exact H | apply Nat.eqb_refl].
Qed.

Lemma mem_not_In e s : mem e s = false <-> ~ In e s.
Proof. rewrite <- mem_In. destruct (mem e s); split; congruence. Qed.

Section Chain.

Variable bm : bmesh.
Variable world_mat : qmatrix4.
Variable edge_set : list nat.

(** The visited edges are distinct boundary edges, so the [while] loop
    makes at most [len(edge_set)] turns. *)
Lemma visited_ok_length visited : visited_ok edge_set visited -> (List.length visited <= List.length edge_set)%nat.
Proof. intros [Hnd Hincl]. now apply NoDup_incl_length. Qed.

Lemma walk_enough_fuel fuel : forall visited current v loop_verts,
  visited_ok edge_set visited ->
  In current edge_set ->
  (S (List.length edge_set) <= fuel + List.length visited)%nat ->
  exists r,
    walk fuel bm world_mat edge_set visited current v loop_verts = Some r /\
    forall loop_verts' visited', r = Ok (loop_verts', visited') -> visited_ok edge_set visited'.
Proof.
  induction fuel as [|fuel IH]; intros visited current v loop_verts Hok Hcur Hfuel.
  - pose proof (visited_ok_length visited Hok). lia.
  - cbn [walk]. destruct (mem current visited) eqn:Hmem.
    + eexists. split; [reflexivity|]. intros ? ? [= <- <-]. exact Hok.
    + assert (Hok' : visited_ok edge_set (current :: visited)).
      { destruct Hok as [Hnd Hincl]. split.
        - constructor; [now apply mem_not_In | exact Hnd].
        - intros x [<- | Hx]; auto. }
      destruct (other_vert bm current v) as [other|].
      * destruct (find _ (vert_link_edges bm other)) as [next_edge|] eqn:Hfind.
        -- apply find_some in Hfind. destruct Hfind as [_ Hnext].
           apply andb_true_iff in Hnext. destruct Hnext as [Hin _].
           apply mem_In in Hin.
           apply IH; [exact Hok' | exact Hin | cbn [List.length]; lia].
        -- eexists. split; [reflexivity|]. intros ? ? [= <- <-]. exact Hok'.
      * eexists. split; [reflexivity|]. intros ? ? H. discriminate H.
Qed.

Lemma chain_from_terminates keep starts : forall visited loops,
  visited_ok edge_set visited -> incl starts edge_set ->
  chain_from keep bm world_mat edge_set starts visited loops <> None.
Proof.
  induction starts as [|start_edge rest IH]; intros visited loops Hok Hincl; [discriminate|].
  cbn [chain_from].
  assert (Hrest : incl rest edge_set) by (intros x Hx; apply Hincl; now right).
  destruct (mem start_edge visited); [now apply IH|].
  destruct (walk_enough_fuel (S (List.length edge_set)) visited start_edge
              (fst (edge_verts bm start_edge)) [] Hok (Hincl _ (or_introl eq_refl)) ltac:(lia))
    as (r & -> & Hr).
  destruct r as [[loop_verts visited']|e]; [|discriminate].
  apply IH; [now apply (Hr loop_verts visited') | exact Hrest].
Qed.

(** Whether a chain is kept does not change the walks: the loops returned
    are the walks that record more than two vertices. *)
Lemma chain_from_filter starts : forall visited walks kept all_walks,
  kept = filter more_than_two walks ->
  chain_from (fun _ => true) bm world_mat edge_set starts visited walks = Some (Ok all_walks) ->
  chain_from more_than_two bm world_mat edge_set starts visited kept
  = Some (Ok (filter more_than_two all_walks)).
Proof.
  induction starts as [|start_edge rest IH]; intros visited walks kept all_walks Hk H.
  - cbn in *. injection H as <-. now subst.
  - cbn [chain_from] in *. destruct (mem start_edge visited); [now apply IH with walks|].
    destruct (walk _ _ _ _ _ _ _ _) as [[[loop_verts visited']|e]|]; try discriminate.
    apply IH with (walks ++ [loop_verts]); [|exact H].
    subst kept. rewrite filter_app. cbn [filter].
    destruct (more_than_two loop_verts); [reflexivity | now rewrite app_nil_r].
Qed.

End Chain.

Lemma chain_boundary_loops_terminates bm world_mat : _chain_boundary_loops bm world_mat <> None.
Proof.
  unfold _chain_boundary_loops.
  destruct (boundary_edges_of bm) as [|e l] eqn:E; [discriminate|].
  pose proof (chain_from_terminates bm world_mat (e :: l) more_than_two (e :: l) [] []
                (conj (NoDup_nil _) (incl_nil_l _)) (incl_refl _)) as H.
  destruct (chain_from _ _ _ _ _ _ _); [discriminate | contradiction].
Qed.

(** The model of the stage never runs out of fuel. *)
Lemma main_terminates DEFAULT_SPEED MIN_CORNER_SPEED sc :
  main DEFAULT_SPEED MIN_CORNER_SPEED sc <> None.
Proof.
  unfold main, extract_centerline.
  destruct (road sc) as [[bm world_mat]|]; [|discriminate].
  pose proof (chain_boundary_loops_terminates bm world_mat) as H.
  destruct (_chain_boundary_loops bm world_mat); [discriminate | contradiction].
Qed.

(** The chaining only prints. *)
Lemma chain_boundary_loops_prints bm world_mat ev r :
  _chain_boundary_loops bm world_mat = Some (ev, r) ->
  existsb touches_file_system ev = false.
Proof.
  unfold _chain_boundary_loops.
  destruct (boundary_edges_of bm) as [|e l].
  - intros [= <- _]. reflexivity.
  - destruct (chain_from _ _ _ _ _ _ _) as [r'|]; [|discriminate].
    destruct r'; intros [= <- _]; reflexivity.
Qed.

End ChainFacts.

(** ** The racing-line stage *)

Module AiLineFacts.
Import Py GenerateAiLine AiModel ChainFacts Examples.

#[local] Notation "x <- m ;; k" := (pbind m (fun x => k))
  (at level 61, m at next level, right associativity).
#[local] Notation "m ;;; k" := (pbind m (fun _ => k))
  (at level 61, right associativity).

Lemma wrong_loop_count DEFAULT_SPEED MIN_CORNER_SPEED sc bm world_mat ev loops :
  road sc = Some (bm, world_mat) ->
  _chain_boundary_loops bm world_mat = Some (ev, Ok loops) ->
  List.length loops <> 2%nat ->
  let events :=
    Print Generating :: ev ++
    [Print (Found_boundary_loops (List.length loops) (map (@List.length point3) loops));
     Print (Error_expected_two_loops (List.length loops))] in
  main DEFAULT_SPEED MIN_CORNER_SPEED sc = Some (events, Raise (SystemExit 1)) /\
  existsb touches_file_system events = false /\
  written events = [].
Proof.
  intros Hroad Hchain Hlen events.
  assert (Hev : existsb touches_file_system ev = false)
    by exact (chain_boundary_loops_prints _ _ _ _ Hchain).
  assert (Hmain : main DEFAULT_SPEED MIN_CORNER_SPEED sc = Some (events, Raise (SystemExit 1))).
  { unfold main, extract_centerline. rewrite Hroad, Hchain. subst events.
    match goal with
    | |- Some (_ ;;; (_ <- ?x ;; _)) = _ =>
        assert (HX : x = (ev ++ [Print (Found_boundary_loops (List.length loops)
                                          (map (@List.length point3) loops));
                                 Print (Error_expected_two_loops (List.length loops))],
                          Raise (SystemExit 1)))
    end.
    { destruct loops as [|a [|b [|c l]]]; [reflexivity | reflexivity | | reflexivity].
      contradiction Hlen. reflexivity. }
    rewrite HX. reflexivity. }
  split; [exact Hmain|]. subst events. split.
  - cbn [existsb touches_file_system orb]. rewrite existsb_app, Hev. reflexivity.
  - cbn [written].
    assert (Hw : forall l, existsb touches_file_system l = false -> written l = []).
    { induction l as [|e l IH]; [reflexivity|]. cbn [existsb written].
      intro H. apply orb_false_iff in H. destruct H as [He Hl].
      destruct e; try discriminate He. auto. }
    apply Hw. rewrite existsb_app, Hev. reflexivity.
Qed.

Lemma short_chains_dropped bm world_mat walks :
  boundary_edges_of bm <> [] ->
  chain_from (fun _ => true) bm world_mat (boundary_edges_of bm) (boundary_edges_of bm) [] []
    = Some (Ok walks) ->
  let loops := filter more_than_two walks in
  _chain_boundary_loops bm world_mat
    = Some ([Print (Found_boundary_edges (List.length (boundary_edges_of bm)))], Ok loops) /\
  (forall w, In w walks -> (List.length w < 3)%nat -> ~ In w loops) /\
  (forall w, In w walks -> (3 <= List.length w)%nat -> In w loops).
Proof.
  intros Hne Hwalks loops. split; [|split].
  - unfold _chain_boundary_loops.
    destruct (boundary_edges_of bm) as [|e l] eqn:E; [contradiction|].
    rewrite (chain_from_filter bm world_mat (e :: l) (e :: l) [] [] [] walks eq_refl Hwalks).
    reflexivity.
  - intros w _ Hshort Hin. subst loops. apply filter_In in Hin. destruct Hin as [_ Hlong].
    unfold more_than_two in Hlong. apply Nat.ltb_lt in Hlong. lia.
  - intros w Hin Hlong. subst loops. apply filter_In. split; [exact Hin|].
    unfold more_than_two. apply Nat.ltb_lt. lia.
Qed.

End AiLineFacts.

(** ** Distances, direction and speeds *)

Module DistanceFacts.
Import Py GenerateAiLine AiModel ChainFacts Examples AiLineFacts.
Local Open Scope Q_scope.











(** The centerline of the triangular ring runs counter-clockwise. *)
Lemma ring_centerline_ccw :
  exists ev centerline,
    extract_centerline ring_scene = Some (ev, Ok centerline) /\
    signed_area (map xy centerline) <= 0 /\
    0 < polygon_signed_area2 (map xy centerline).
Proof.
  eexists. eexists. split; [vm_compute; reflexivity|].
  split; vm_compute; congruence.
Qed.

(** The speeds of a rectangular centerline, before smoothing. *)
Lemma rectangle_speeds_nan :
  let curvature := compute_curvature (map xy rectangle) in
  List.length curvature = 100%nat /\
  forallb (fun c => Qle_bool 0 c) curvature = true /\
  percentile curvature 95 == 0 /\
  nth 1 (speeds_before_smoothing 80 40 curvature) (Fin 0) = NaN /\
  forallb (in_interval 40 80) (speeds_before_smoothing 80 40 curvature) = false.
Proof.
  cbv zeta. repeat split; vm_compute; reflexivity.
Qed.

End DistanceFacts.

(** ** The racing-line file *)

Module AiFileFacts.
Import Py PyFacts GenerateAiLine AiModel ChainFacts Examples AiLineFacts.

#[local] Notation "x <- m ;; k" := (pbind m (fun x => k))
  (at level 61, m at next level, right associativity).
#[local] Notation "m ;;; k" := (pbind m (fun _ => k))
  (at level 61, right associativity).




Lemma pbind_ok {A B} (m : P A) (k : A -> P B) ev b :
  pbind m k = (ev, Ok b) ->
  exists ev1 a ev2, m = (ev1, Ok a) /\ k a = (ev2, Ok b) /\ ev = ev1 ++ ev2.
Proof.
  unfold pbind. destruct m as [ev1 [a|e]]; [|discriminate].
  destruct (k a) as [ev2 r] eqn:E. intros [= <- ->]. now exists ev1, a, ev2.
Qed.


Lemma written_app ev1 ev2 : written (ev1 ++ ev2) = written ev1 ++ written ev2.
Proof.
  induction ev1 as [|e ev1 IH]; [reflexivity|].
  destruct e; cbn [app written]; rewrite IH; try reflexivity. now rewrite app_assoc.
Qed.

Lemma plift_ok {A} (r : result A) ev a : plift r = (ev, Ok a) -> r = Ok a /\ ev = [].
Proof. unfold plift. intros [= <- ->]. auto. Qed.



(** A loop whose every turn writes [size] bytes. *)
Lemma pfor_length {A} (l : list A) (body : A -> P unit) (size : nat) ev :
  (forall x ev', body x = (ev', Ok tt) -> List.length (written ev') = size) ->
  pfor l body = (ev, Ok tt) ->
  List.length (written ev) = (size * List.length l)%nat.
Proof.
  intro Hbody. revert ev. induction l as [|x l IH]; intros ev H.
  - cbn in H. injection H as <-. cbn. lia.
  - cbn [pfor] in H. apply pbind_ok in H. destruct H as (ev1 & [] & ev2 & H1 & H2 & ->).
    rewrite written_app, length_app, (Hbody _ _ H1), (IH _ H2). cbn [List.length]. lia.
Qed.


End AiFileFacts.

Module AiFileLayout.
Import Py PyFacts GenerateAiLine AiModel ChainFacts Examples AiLineFacts AiFileFacts.

#[local] Notation "x <- m ;; k" := (pbind m (fun x => k))
  (at level 61, m at next level, right associativity).
#[local] Notation "m ;;; k" := (pbind m (fun _ => k))
  (at level 61, right associativity).

Tactic Notation "pinv" hyp(H) "as" ident(ev1) ident(a) ident(H1) :=
  let ev2 := fresh "ev" in
  apply pbind_ok in H; destruct H as (ev1 & a & ev2 & H1 & H & ->); cbv beta in H.




Lemma Ok_inj {A} (a b : A) : Ok a = Ok b -> a = b.
Proof. now intros [= ->]. Qed.






Section File.

Variable DEFAULT_SPEED MIN_CORNER_SPEED : Q.




End File.
End AiFileLayout.

(** ** The direction of the centerline *)

Module DirectionFacts.
Import Py PyFacts GenerateAiLine AiModel AiFileFacts.
Local Open Scope Q_scope.

Lemma fold_sum_from (l : list Q) (acc : Q) : fold_left Qplus l acc == acc + sum_Q l.
Proof.
  unfold sum_Q. revert acc. induction l as [|x l IH]; intro acc; cbn [fold_left].
  - ring.
  - rewrite IH, (IH (0 + x)). ring.
Qed.

Lemma sum_Q_snoc (l : list Q) (x : Q) : sum_Q (l ++ [x]) == sum_Q l + x.
Proof. unfold sum_Q. rewrite fold_left_app. cbn [fold_left]. reflexivity. Qed.

Lemma sum_Q_cons (l : list Q) (x : Q) : sum_Q (x :: l) == x + sum_Q l.
Proof. unfold sum_Q at 1. cbn [fold_left]. rewrite fold_sum_from. ring. Qed.

Lemma signed_area_adjacent pts : signed_area pts = sum_Q (map cross2 (adjacent pts)).
Proof. reflexivity. Qed.

Lemma adjacent_cons p q rest : adjacent (p :: q :: rest) = (p, q) :: adjacent (q :: rest).
Proof. reflexivity. Qed.

Lemma adjacent_snoc l p q : adjacent (l ++ [p; q]) = adjacent (l ++ [p]) ++ [(p, q)].
Proof.
  induction l as [|a [|b l] IH]; [reflexivity | reflexivity |].
  change ((a :: b :: l) ++ [p; q]) with (a :: b :: (l ++ [p; q])).
  change ((a :: b :: l) ++ [p]) with (a :: b :: (l ++ [p])).
  rewrite !adjacent_cons.
  change (b :: (l ++ [p; q])) with ((b :: l) ++ [p; q]).
  rewrite IH. reflexivity.
Qed.

Lemma adjacent_rev l : adjacent (rev l) = map swap2 (rev (adjacent l)).
Proof.
  induction l as [|p [|q r] IH]; [reflexivity | reflexivity |].
  rewrite adjacent_cons.
  change (rev (p :: q :: r)) with ((rev r ++ [q]) ++ [p]).
  rewrite <- app_assoc. cbn [app].
  rewrite adjacent_snoc.
  change (rev r ++ [q]) with (rev (q :: r)).
  rewrite IH. cbn [rev]. rewrite map_app. reflexivity.
Qed.

Lemma cross2_swap2 pq : cross2 (swap2 pq) == - cross2 pq.
Proof. destruct pq as [[x0 y0] [x1 y1]]. unfold swap2, cross2. cbn [fst snd]. ring. Qed.

Lemma sum_cross2_rev L : sum_Q (map cross2 (map swap2 (rev L))) == - sum_Q (map cross2 L).
Proof.
  induction L as [|x L IH]; [reflexivity|].
  cbn [rev]. rewrite !map_app. cbn [map].
  rewrite sum_Q_snoc, sum_Q_cons, IH, cross2_swap2. ring.
Qed.

(** Reversing the order of the points negates the sum that the script
    computes. *)
Lemma signed_area_rev pts : signed_area (rev pts) == - signed_area pts.
Proof. rewrite !signed_area_adjacent, adjacent_rev. apply sum_cross2_rev. Qed.

#[local] Notation "x <- m ;; k" := (pbind m (fun x => k))
  (at level 61, m at next level, right associativity).
#[local] Notation "m ;;; k" := (pbind m (fun _ => k))
  (at level 61, right associativity).

(** What the script itself ensures of its result: the sum over the
    consecutive pairs of the returned points, without the pair that closes
    the polygon, is not positive. *)
Lemma centerline_open_sum_nonpos loop_a loop_b ev centerline :
  centerline_of loop_a loop_b = (ev, Ok centerline) ->
  signed_area (map xy centerline) <= 0.
Proof.
  unfold centerline_of. intro H.
  apply pbind_ok in H as (ev1 & [la lb] & ev2 & _ & H & _).
  apply pbind_ok in H as (? & a0 & ? & _ & H & _).
  apply pbind_ok in H as (? & lb1 & ? & _ & H & _).
  apply pbind_ok in H as (? & a1 & ? & _ & H & _).
  apply pbind_ok in H as (? & b1 & ? & _ & H & _).
  apply pbind_ok in H as (? & bl & ? & _ & H & _).
  apply pbind_ok in H as (? & lb2 & ? & _ & H & _).
  apply pbind_ok in H as (? & [] & ? & _ & H & _).
  set (c := map _ (combine la lb2)) in *.
  destruct (Qlt_le_dec 0 (signed_area (map xy c))) as [Hpos|Hneg].
  - apply pbind_ok in H as (? & [] & ? & _ & H & _).
    injection H as _ <-. rewrite map_rev, signed_area_rev. lra.
  - injection H as _ <-. exact Hneg.
Qed.

End DirectionFacts.

(** ** The speeds before smoothing *)

Module SpeedFacts.
Import Py PyFacts GenerateAiLine AiModel.
Local Open Scope Q_scope.

Lemma Qsign_pos q : 0 < q -> Qsign q = Gt.
Proof.
  destruct q as [[|p|p] d]; unfold Qlt, Qsign; cbn; intro H; try reflexivity; lia.
Qed.

Lemma fl_leb_Fin a b : fl_leb (Fin a) (Fin b) = true <-> a <= b.
Proof.
  cbn [fl_leb]. rewrite Qle_alt.
  destruct (a ?= b); split; intro H; try reflexivity; try discriminate; try congruence.
Qed.

Lemma fl_clip_unit q :
  exists t, fl_clip (Fin q) (Fin 0) (Fin 1) = Fin t /\ 0 <= t <= 1.
Proof.
  unfold fl_clip, fl_gtb. cbn [fl_ltb].
  destruct (q ?= 0) eqn:E0.
  - apply Qeq_alt in E0. destruct (1 ?= q) eqn:E1.
    + exists q. split; [reflexivity | lra].
    + apply Qlt_alt in E1. lra.
    + exists q. split; [reflexivity | lra].
  - exists 0. split; [reflexivity | lra].
  - apply Qgt_alt in E0. destruct (1 ?= q) eqn:E1.
    + apply Qeq_alt in E1. exists q. split; [reflexivity | lra].
    + exists 1. split; [reflexivity | lra].
    + apply Qgt_alt in E1. exists q. split; [reflexivity | lra].
Qed.

(** Where the divisor is positive, that is, unless the 95th percentile of a
    curvature array with a positive maximum is zero, the speeds before
    smoothing are within the two configured speeds. *)
Lemma speeds_within_bounds (D M : Q) (curvature : list Q) :
  M <= D ->
  (0 < max_Q curvature -> 0 < percentile curvature 95) ->
  Forall (fun s => in_interval M D s = true) (speeds_before_smoothing D M curvature).
Proof.
  intros HMD Hp. unfold speeds_before_smoothing.
  set (d := if Qlt_le_dec 0 (max_Q curvature) then percentile curvature 95 else 1).
  assert (Hd : 0 < d).
  { subst d. destruct (Qlt_le_dec 0 (max_Q curvature)); [auto | reflexivity]. }
  rewrite map_map. apply Forall_forall. intros s Hs.
  apply in_map_iff in Hs as (c & <- & _).
  unfold fl_div. rewrite (Qsign_pos d Hd).
  destruct (fl_clip_unit (c / d)) as (t & -> & Ht).
  unfold in_interval, fl_sub. cbn [fl_mul fl_neg fl_add].
  apply andb_true_iff. split; apply fl_leb_Fin; nra.
Qed.

End SpeedFacts.

(** ** Reading a written file back *)

Module Kn5FileFacts.
Import Py PyFacts ExportKn5 Kn5Model ExportKn5Facts TrackViewer TrackViewerFacts Kn5RoundTrip.
Import NodeTreeFacts Kn5Hierarchy Kn5Bytes.

Section WriterBytes.

Context {pystr : Type}.
Variable utf8_encode : pystr -> list byte.

#[local] Notation "m ;;; k" := (wbind m (fun _ => k))
  (at level 61, right associativity).

Ltac winv :=
  repeat match goal with
  | H : wbind _ _ = (_, _, Ok _) |- _ =>
      let o1 := fresh "o" in let l1 := fresh "l" in let a := fresh "a" in
      let o2 := fresh "o" in let l2 := fresh "l" in
      apply wbind_ok in H; destruct H as (o1 & l1 & a & o2 & l2 & ? & H & -> & ->)
  | H : f_write _ = (_, _, Ok _) |- _ => apply f_write_ok in H; destruct H as [H ->]
  | H : wret _ = (_, _, Ok _) |- _ => apply wret_ok in H; destruct H as (-> & -> & ?)
  | H : pack_i _ = Ok _ |- _ => apply pack_i_ok in H; destruct H as [-> H]
  | H : pack_f _ = Ok ?bs |- _ => apply pack_f_ok in H; subst bs
  | H : pack_B _ = Ok _ |- _ => apply pack_B_ok in H; destruct H as [-> H]
  | H : Ok _ = Ok _ |- _ => injection H as H; subst
  | a : unit |- _ => destruct a
  end.

Tactic Notation "wstep" hyp(H) "as" ident(Ha) :=
  apply wbind_ok in H; destruct H as (? & ? & [] & ? & ? & Ha & H & -> & ->).

Lemma write_string_ok s out (log : list (message pystr)) :
  write_string utf8_encode s = (out, log, Ok tt) ->
  out = string_bytes utf8_encode s /\ log = [] /\ len (utf8_encode s) < 2 ^ 31.
Proof.
  unfold write_string, string_bytes. intro H. winv.
  rewrite app_nil_r. split; [reflexivity | split; [reflexivity | lia]].
Qed.





End WriterBytes.

#[local] Notation "x <- m ;; k" := (bind m (fun x => k))
  (at level 61, m at next level, right associativity).
#[local] Notation "m ;;; k" := (bind m (fun _ => k))
  (at level 61, right associativity).





Section ReaderBytes.

Context {pystr : Type}.
Variable utf8_encode : pystr -> list byte.
Variable utf8_decode_replace : list byte -> pystr.

Ltac rstep tac := erewrite bind_ok by tac; cbv beta.

Lemma read_string_bytes (s : pystr) (rest : list byte) :
  short utf8_encode s ->
  read_string utf8_decode_replace (string_bytes utf8_encode s ++ rest)
  = Ok (reread utf8_encode utf8_decode_replace s, rest).
Proof.
  intro H. unfold string_bytes, reread, len. rewrite <- app_assoc.
  apply read_string_app. exact H.
Qed.


Lemma f_read_skip (n : nat) (bs rest : list byte) :
  List.length bs = n -> f_read (Z.of_nat n) (bs ++ rest) = Ok (bs, rest).
Proof. intros <-. now apply f_read_app. Qed.


End ReaderBytes.
End Kn5FileFacts.

(** ** The exported file in the viewer *)

Module ExportedFile.
Import Py PyFacts ExportKn5 Kn5Model ExportKn5Facts TrackViewer TrackViewerFacts Kn5RoundTrip.
Import NodeTreeFacts Kn5Hierarchy Kn5Bytes Kn5FileFacts MarkerModel.

#[local] Notation "x <- m ;; k" := (bind m (fun x => k))
  (at level 61, m at next level, right associativity).
#[local] Notation "m ;;; k" := (bind m (fun _ => k))
  (at level 61, right associativity).

Section File.

Context {pystr : Type}.
Variable utf8_encode : pystr -> list byte.
Variable utf8_decode_replace : list byte -> pystr.
Variable pystr_eqb : pystr -> pystr -> bool.
Variable pista_caudina : pystr.




End File.
End ExportedFile.

(** ** The exported file in the manager *)

Module ManagerFacts.
Import Py PyFacts ExportKn5 Kn5Model ExportKn5Facts TrackViewer TrackViewerFacts Kn5RoundTrip.
Import NodeTreeFacts Kn5Hierarchy Kn5Bytes Kn5FileFacts MarkerModel ExportedFile.

#[local] Notation "x <- m ;; k" := (bind m (fun x => k))
  (at level 61, m at next level, right associativity).
#[local] Notation "m ;;; k" := (bind m (fun _ => k))
  (at level 61, right associativity).



Section Facts.

Context {pystr : Type}.
Variable utf8_encode : pystr -> list byte.
Variable utf8_decode_replace : list byte -> pystr.
Variable starts_with_AC : pystr -> bool.
Variable empty_str : pystr.

#[local] Notation "m ;;;; k" := (wbind m (fun _ => k))
  (at level 61, right associativity).

Ltac winv :=
  repeat match goal with
  | H : wbind _ _ = (_, _, Ok _) |- _ =>
      let o1 := fresh "o" in let l1 := fresh "l" in let a := fresh "a" in
      let o2 := fresh "o" in let l2 := fresh "l" in
      apply wbind_ok in H; destruct H as (o1 & l1 & a & o2 & l2 & ? & H & -> & ->)
  | H : f_write _ = (_, _, Ok _) |- _ => apply f_write_ok in H; destruct H as [H ->]
  | H : wret _ = (_, _, Ok _) |- _ => apply wret_ok in H; destruct H as (-> & -> & ?)
  | H : pack_i _ = Ok _ |- _ => apply pack_i_ok in H; destruct H as [-> H]
  | H : pack_f _ = Ok ?bs |- _ => apply pack_f_ok in H; subst bs
  | H : pack_B _ = Ok _ |- _ => apply pack_B_ok in H; destruct H as [-> H]
  | H : Ok _ = Ok _ |- _ => injection H as H; subst
  end.


Ltac rstep tac := erewrite bind_ok by tac; cbv beta.

Lemma rs_bytes (s : pystr) (rest : list byte) :
  short utf8_encode s ->
  Manager._rs utf8_decode_replace empty_str (string_bytes utf8_encode s ++ rest)
  = Ok (reread utf8_encode utf8_decode_replace s, rest).
Proof.
  intro H. unfold short, len in H. unfold Manager._rs, string_bytes, reread, len.
  rewrite <- app_assoc.
  rstep ltac:(apply read_i_app; lia).
  destruct (Z.ltb_spec (Z.of_nat (List.length (utf8_encode s))) 0); [lia|].
  destruct (Z.ltb_spec 10000 (Z.of_nat (List.length (utf8_encode s)))); [lia|].
  cbn [orb].
  rstep ltac:(apply f_read_app; reflexivity).
  reflexivity.
Qed.





Variable pystr_eqb : pystr -> pystr -> bool.
Variable pista_caudina : pystr.




End Facts.
End ManagerFacts.

(** ** The material map *)

Module MaterialMapFacts.
Import Py ExportKn5 MaterialMap.
Local Open Scope Z_scope.

Section Blender.

Variable pystr : Type.
Variable pystr_eqb : pystr -> pystr -> bool.
Variable is_empty : pystr -> bool.
Variable contains : pystr -> pystr -> bool.
Variable str_add : pystr -> pystr -> pystr.
Variable splitext_ext basename abspath in_tempdir : pystr -> pystr.
Variable TEX_IMAGE dot_png DEFAULT_SHADER txDiffuse : pystr.
Variable ksAmbient ksDiffuse ksSpecular ksSpecularEXP : pystr.

Hypothesis pystr_eqb_eq : forall a b, pystr_eqb a b = true <-> a = b.

#[local] Abbreviation image_texture :=
  (image_texture pystr pystr_eqb is_empty contains str_add splitext_ext basename abspath
                 in_tempdir dot_png).
#[local] Abbreviation texture_of :=
  (texture_of pystr pystr_eqb is_empty contains str_add splitext_ext basename abspath
              in_tempdir TEX_IMAGE dot_png).
#[local] Abbreviation add_material :=
  (add_material pystr pystr_eqb is_empty contains str_add splitext_ext basename abspath
                in_tempdir TEX_IMAGE dot_png DEFAULT_SHADER txDiffuse
                ksAmbient ksDiffuse ksSpecular ksSpecularEXP).
#[local] Abbreviation build_material_map :=
  (build_material_map pystr pystr_eqb is_empty contains str_add splitext_ext basename abspath
                      in_tempdir TEX_IMAGE dot_png DEFAULT_SHADER txDiffuse
                      ksAmbient ksDiffuse ksSpecular ksSpecularEXP).
#[local] Abbreviation name_map_get := (name_map_get pystr pystr_eqb).
#[local] Abbreviation embed := (embed pystr pystr_eqb).
#[local] Abbreviation seen := (seen pystr pystr_eqb).
#[local] Abbreviation sampler_ok := (sampler_ok pystr txDiffuse).
#[local] Abbreviation samplers_ok := (samplers_ok pystr txDiffuse).
#[local] Abbreviation texture_step := (texture_step pystr).
#[local] Abbreviation well_formed := (well_formed pystr).
#[local] Abbreviation extends := (extends pystr).
#[local] Abbreviation mat_name := (ExportKn5.mat_name pystr).
#[local] Abbreviation mat_samplers := (ExportKn5.mat_samplers pystr).

(** *** The dict [mat_name_to_id] *)

Lemma name_map_get_none (m : list (pystr * Z)) (k : pystr) :
  name_map_get m k = None -> ~ In k (map fst m).
Proof.
  induction m as [|[k' i] m IH]; intros H Hin; [exact Hin|].
  cbn in H, Hin. destruct (pystr_eqb k' k) eqn:E; [discriminate|].
  destruct Hin as [Hk|Hin]; [|exact (IH H Hin)].
  apply pystr_eqb_eq in Hk. congruence.
Qed.

Lemma name_map_get_app (m more : list (pystr * Z)) (k : pystr) (i : Z) :
  name_map_get m k = Some i -> name_map_get (m ++ more) k = Some i.
Proof.
  induction m as [|[k' j] m IH]; intro H; [discriminate|].
  cbn in *. destruct (pystr_eqb k' k); [exact H | exact (IH H)].
Qed.

Lemma name_map_get_last (m : list (pystr * Z)) (k : pystr) (i : Z) :
  name_map_get m k = None -> name_map_get (m ++ [(k, i)]) k = Some i.
Proof.
  induction m as [|[k' j] m IH]; intro H.
  - cbn. now rewrite (proj2 (pystr_eqb_eq k k) eq_refl).
  - cbn in *. destruct (pystr_eqb k' k); [discriminate | exact (IH H)].
Qed.

(** A name found in the dict is found at the place that its id gives. *)
Lemma name_map_get_place (m : list (pystr * Z)) (k : pystr) (i : Z) :
  name_map_get m k = Some i ->
  exists j, nth_error m j = Some (k, i).
Proof.
  induction m as [|[k' i'] m IH]; intro H; [discriminate|].
  cbn in H. destruct (pystr_eqb k' k) eqn:E.
  - apply pystr_eqb_eq in E. injection H as ->. subst k'. now exists 0%nat.
  - destruct (IH H) as [j Hj]. now exists (S j).
Qed.

Lemma id_is_place (st : state pystr) (k : pystr) (i : Z) :
  well_formed st ->
  name_map_get (mat_name_to_id st) k = Some i ->
  0 <= i < len (materials_list st) /\
  exists mat, nth_error (materials_list st) (Z.to_nat i) = Some mat /\ mat_name mat = k.
Proof.
  intros (Hnames & Hids & _) H.
  apply name_map_get_place in H. destruct H as [j Hj].
  assert (Hs : nth_error (map snd (mat_name_to_id st)) j = Some i)
    by (now rewrite nth_error_map, Hj).
  assert (Hf : nth_error (map fst (mat_name_to_id st)) j = Some k)
    by (now rewrite nth_error_map, Hj).
  rewrite Hids in Hs. rewrite Hnames in Hf.
  rewrite nth_error_map in Hs, Hf.
  destruct (nth_error (seq 0 _) j) as [j'|] eqn:Ej; [|discriminate].
  assert (Hlt : (j < List.length (seq 0 (List.length (materials_list st))))%nat)
    by (apply nth_error_Some; congruence).
  rewrite length_seq in Hlt.
  apply nth_error_nth with (d := 0%nat) in Ej. rewrite seq_nth in Ej by exact Hlt.
  cbn in Ej. subst j'. cbn in Hs. injection Hs as <-.
  unfold len. split; [lia|]. rewrite Nat2Z.id.
  destruct (nth_error (materials_list st) j) as [mat|]; [|discriminate].
  exists mat. split; [reflexivity|]. now injection Hf.
Qed.

(** *** The textures *)

Lemma seen_In (t : pystr) (l : list pystr) : seen t l = true <-> In t l.
Proof.
  unfold MaterialMap.seen. rewrite existsb_exists. split.
  - intros (x & Hx & E). apply pystr_eqb_eq in E. now subst.
  - intro H. exists t. split; [exact H | now apply pystr_eqb_eq].
Qed.

Lemma extends_refl (st : state pystr) : extends st st.
Proof. repeat split; exists []; now rewrite app_nil_r. Qed.

Lemma extends_trans (a b c : state pystr) : extends a b -> extends b c -> extends a c.
Proof.
  intros ([m1 H1] & [i1 H2] & [t1 H3]) ([m2 H4] & [i2 H5] & [t2 H6]).
  repeat split.
  - exists (m1 ++ m2). now rewrite H4, H1, app_assoc.
  - exists (i1 ++ i2). now rewrite H5, H2, app_assoc.
  - exists (t1 ++ t2). now rewrite H6, H3, app_assoc.
Qed.

Lemma embed_step (t : pystr) (data : list byte) (st : state pystr) :
  texture_step st (embed t data st) /\
  (seen_tex st = map fst (textures st) ->
   exists data', In (t, data') (textures (embed t data st))).
Proof.
  unfold MaterialMap.embed. destruct (seen t (seen_tex st)) eqn:E.
  - split.
    + split; [reflexivity|]. split; [reflexivity|].
      split; [exists []; now rewrite app_nil_r | exact (fun H => H)].
    + intro Hs. apply seen_In in E. rewrite Hs in E. apply in_map_iff in E.
      destruct E as ([t' d] & Ht & Hin). cbn in Ht. subst t'. now exists d.
  - split.
    + split; [reflexivity|]. split; [reflexivity|]. split; [now exists [(t, data)] |].
      intros (H1 & H2 & H3 & H4 & H5). unfold MaterialMap.well_formed. cbn.
      split; [exact H1|]. split; [exact H2|]. split; [exact H3|].
      split.
      * rewrite map_app, H4. reflexivity.
      * apply NoDup_app; [exact H5 | repeat constructor; intros [] |].
        intros x Hx [<-|[]]. apply seen_In in Hx. congruence.
    + intros _. exists data. cbn. apply in_or_app. right. now left.
Qed.

Lemma image_texture_step (img : image pystr) (st : state pystr) :
  texture_step st (snd (image_texture img st)) /\
  (seen_tex st = map fst (textures st) ->
   forall t, fst (image_texture img st) = Some t ->
     exists data, In (t, data) (textures (snd (image_texture img st)))).
Proof.
  unfold MaterialMap.image_texture. destruct (img_packed img).
  - cbv zeta. cbn [fst snd].
    match goal with |- context [embed ?t ?d ?s] => destruct (embed_step t d s) as [Hs Hin] end.
    split; [exact Hs|]. intros Hseen t [= <-]. exact (Hin Hseen).
  - destruct (disk st _) as [data|] eqn:E; cbn [fst snd].
    + match goal with |- context [embed ?t ?d ?s] => destruct (embed_step t d s) as [Hs Hin] end.
      split; [exact Hs|]. intros Hseen t [= <-]. now apply Hin.
    + split; [|discriminate].
      split; [reflexivity|]. split; [reflexivity|].
      split; [exists []; now rewrite app_nil_r | exact (fun H => H)].
Qed.

Lemma texture_of_step (bl_mat : bl_material pystr) (st : state pystr) :
  texture_step st (snd (texture_of bl_mat st)) /\
  (seen_tex st = map fst (textures st) ->
   forall t, fst (texture_of bl_mat st) = Some t ->
     exists data, In (t, data) (textures (snd (texture_of bl_mat st)))).
Proof.
  assert (Hsame : texture_step st st).
  { split; [reflexivity|]. split; [reflexivity|].
    split; [exists []; now rewrite app_nil_r | exact (fun H => H)]. }
  unfold MaterialMap.texture_of.
  destruct (bl_use_nodes bl_mat); [|split; [exact Hsame | discriminate]].
  destruct (find _ _) as [node|]; [|split; [exact Hsame | discriminate]].
  destruct (node_image node) as [img|]; [|split; [exact Hsame | discriminate]].
  apply image_texture_step.
Qed.

(** *** The loop *)

Lemma add_material_step (st : state pystr) (obj : bl_object pystr) :
  well_formed st -> samplers_ok st ->
  well_formed (add_material st obj) /\ samplers_ok (add_material st obj) /\
  extends st (add_material st obj) /\
  forall bl_mat rest, bo_materials obj = bl_mat :: rest ->
    name_map_get (mat_name_to_id (add_material st obj)) (bl_name bl_mat) <> None.
Proof.
  intros Hw Hs. unfold MaterialMap.add_material.
  destruct (bo_materials obj) as [|bl_mat slots].
  - split; [exact Hw|]. split; [exact Hs|]. split; [apply extends_refl | discriminate].
  - destruct (name_map_get (mat_name_to_id st) (bl_name bl_mat)) as [i|] eqn:E.
    + split; [exact Hw|]. split; [exact Hs|]. split; [apply extends_refl|].
      intros b r [= <- _]. congruence.
    + destruct (texture_of_step bl_mat st) as [(Hm & Hi & Ht & Hw') Hin].
      specialize (Hw' Hw).
      assert (Hseen : seen_tex st = map fst (textures st)) by apply Hw.
      specialize (Hin Hseen).
      destruct (texture_of bl_mat st) as [tex_name st1]. cbn [fst snd] in *.
      destruct Hw' as (H1 & H2 & H3 & H4 & H5).
      rewrite Hm, Hi in *.
      split; [|split; [|split]].
      * unfold MaterialMap.well_formed. cbn.
        rewrite !map_app, length_app, seq_app, map_app. cbn.
        rewrite H1, H2. split; [reflexivity|]. split; [reflexivity|].
        split; [|split; [exact H4 | exact H5]].
        rewrite <- H1. apply NoDup_app; [exact H3 | repeat constructor; intros [] |].
        intros x Hx [<-|[]]. now apply (name_map_get_none _ _ E).
      * unfold MaterialMap.samplers_ok. cbn [materials_list]. apply Forall_app. split.
        -- eapply Forall_impl; [|exact Hs]. intros mat [Hok Hlen]. split; [|exact Hlen].
           eapply Forall_impl; [|exact Hok]. intros s Hsok.
           destruct s as [[n slot] t]. destruct Hsok as (Hn & Hslot & data & Hd).
           split; [exact Hn|]. split; [exact Hslot|]. exists data. cbn [textures].
           destruct Ht as [more ->]. apply in_or_app. now left.
        -- constructor; [|constructor]. cbn.
           destruct tex_name as [t|]; [|split; [constructor | cbn; lia]].
           destruct (is_empty t); [split; [constructor | cbn; lia]|].
           split; [|cbn; lia]. constructor; [|constructor].
           split; [reflexivity|]. split; [reflexivity|].
           destruct (Hin t eq_refl) as [data Hd]. now exists data.
      * split; [|split]; cbn.
        -- now eexists.
        -- now eexists.
        -- exact Ht.
      * intros b r [= <- _]. cbn. rewrite (name_map_get_last _ _ _ E). discriminate.
Qed.

Lemma fold_add_material (objs : list (bl_object pystr)) : forall st,
  well_formed st -> samplers_ok st ->
  let st' := fold_left add_material objs st in
  well_formed st' /\ samplers_ok st' /\ extends st st' /\
  forall obj bl_mat rest, In obj objs -> bo_materials obj = bl_mat :: rest ->
    name_map_get (mat_name_to_id st') (bl_name bl_mat) <> None.
Proof.
  induction objs as [|o objs IH]; intros st Hw Hs; cbv zeta.
  - cbn. split; [exact Hw|]. split; [exact Hs|]. split; [apply extends_refl|].
    intros ? ? ? [].
  - cbn [fold_left].
    destruct (add_material_step st o Hw Hs) as (Hw1 & Hs1 & He1 & Hin1).
    destruct (IH _ Hw1 Hs1) as (Hw2 & Hs2 & He2 & Hin2).
    split; [exact Hw2|]. split; [exact Hs2|].
    split; [exact (extends_trans _ _ _ He1 He2)|].
    intros obj bl_mat rest [<-|Hin] Hm.
    + specialize (Hin1 _ _ Hm). destruct He2 as (_ & [more ->] & _).
      destruct (name_map_get _ (bl_name bl_mat)) as [i|] eqn:E; [|congruence].
      rewrite (name_map_get_app _ more _ _ E). discriminate.
    + exact (Hin2 _ _ _ Hin Hm).
Qed.

Lemma build_material_map_ok (d : files pystr) (objs : list (bl_object pystr)) :
  let st := build_material_map d objs in
  well_formed st /\ samplers_ok st /\
  forall obj bl_mat rest, In obj objs -> bo_materials obj = bl_mat :: rest ->
    name_map_get (mat_name_to_id st) (bl_name bl_mat) <> None.
Proof.
  cbv zeta. unfold MaterialMap.build_material_map.
  destruct (fold_add_material objs (State [] [] [] [] d [])) as (Hw & Hs & _ & Hin).
  - unfold MaterialMap.well_formed. cbn. repeat split; constructor.
  - constructor.
  - split; [exact Hw|]. split; [exact Hs | exact Hin].
Qed.

(** Every material of the list was made for the first material of some
    object, at most one for each object. *)
Lemma add_material_origin (st : state pystr) (obj : bl_object pystr) :
  exists more,
    materials_list (add_material st obj) = materials_list st ++ more /\
    (List.length more <= 1)%nat /\
    Forall (fun mat => exists bl_mat rest,
              bo_materials obj = bl_mat :: rest /\ mat_name mat = bl_name bl_mat) more.
Proof.
  unfold MaterialMap.add_material.
  destruct (bo_materials obj) as [|bl_mat slots].
  - exists []. rewrite app_nil_r. split; [reflexivity|]. split; [cbn; lia | constructor].
  - destruct (name_map_get _ _).
    + exists []. rewrite app_nil_r. split; [reflexivity|]. split; [cbn; lia | constructor].
    + destruct (texture_of_step bl_mat st) as [(Hm & _) _].
      destruct (texture_of bl_mat st) as [tex_name st1]. cbn [fst snd] in Hm.
      eexists. cbn [materials_list]. rewrite Hm. split; [reflexivity|].
      split; [cbn; lia|]. constructor; [|constructor]. now exists bl_mat, slots.
Qed.

Lemma fold_add_material_origin (objs : list (bl_object pystr)) : forall st,
  exists more,
    materials_list (fold_left add_material objs st) = materials_list st ++ more /\
    (List.length more <= List.length objs)%nat /\
    Forall (fun mat => exists bl_mat,
              In bl_mat (first_materials pystr objs) /\ mat_name mat = bl_name bl_mat) more.
Proof.
  induction objs as [|o objs IH]; intro st.
  - exists []. cbn. rewrite app_nil_r. split; [reflexivity|]. split; [lia | constructor].
  - cbn [fold_left]. destruct (add_material_origin st o) as (m1 & H1 & L1 & F1).
    destruct (IH (add_material st o)) as (m2 & H2 & L2 & F2).
    exists (m1 ++ m2). rewrite H2, H1, app_assoc. split; [reflexivity|].
    split; [rewrite length_app; cbn; lia|].
    unfold MaterialMap.first_materials. cbn [flat_map]. apply Forall_app. split.
    + eapply Forall_impl; [|exact F1]. intros mat (bl_mat & rest & Hb & Hn).
      exists bl_mat. split; [|exact Hn]. apply in_or_app. left. rewrite Hb. now left.
    + eapply Forall_impl; [|exact F2]. intros mat (bl_mat & Hb & Hn).
      exists bl_mat. split; [|exact Hn]. apply in_or_app. now right.
Qed.

End Blender.

End MaterialMapFacts.

(** ** The vertices and indices of a mesh *)

Module MeshDataFacts.
Import Py PyFacts ExportKn5 Kn5Model ExportKn5Facts MeshModel.

(** A lookup in [vert_map] finds the first vertex whose key equals the
    key looked up, and fails only when there is none. *)
Lemma vert_map_get_some (vs : list vertex) (k : vert_key) : forall start i,
  vert_map_get (combine (map vertex_key vs) (map Z.of_nat (seq start (List.length vs)))) k = Some i ->
  exists j v, i = Z.of_nat (start + j) /\ nth_error vs j = Some v /\
              vert_key_eqb (vertex_key v) k = true.
Proof.
  induction vs as [|v vs IH]; intros start i H; [discriminate|].
  cbn [List.length seq map combine vert_map_get] in H.
  destruct (vert_key_eqb (vertex_key v) k) eqn:E.
  - injection H as <-. exists 0%nat, v. rewrite Nat.add_0_r. auto.
  - destruct (IH _ _ H) as (j & w & -> & Hj & Hk).
    exists (S j), w. split; [f_equal; lia | auto].
Qed.

Lemma vert_map_get_none (vs : list vertex) (k : vert_key) : forall start,
  vert_map_get (combine (map vertex_key vs) (map Z.of_nat (seq start (List.length vs)))) k = None ->
  Forall (fun v => vert_key_eqb (vertex_key v) k = false) vs.
Proof.
  induction vs as [|v vs IH]; intros start H; [constructor|].
  cbn [List.length seq map combine vert_map_get] in H.
  destruct (vert_key_eqb (vertex_key v) k) eqn:E; [discriminate|].
  constructor; [exact E | exact (IH _ H)].
Qed.

Lemma combine_snoc {A B} (l1 : list A) (l2 : list B) a b :
  List.length l1 = List.length l2 ->
  combine (l1 ++ [a]) (l2 ++ [b]) = combine l1 l2 ++ [(a, b)].
Proof.
  revert l2. induction l1 as [|x l1 IH]; intros [|y l2] H; try discriminate; [reflexivity|].
  cbn [app combine]. rewrite IH by (cbn in H; lia). reflexivity.
Qed.

(** What one turn of the corner loop does to a consistent state. *)
Lemma add_corner_cases vertices indices vert_map c :
  consistent (vertices, indices, vert_map) ->
  (exists j v,
     nth_error vertices j = Some v /\
     vert_key_eqb (vertex_key v) (corner_key c) = true /\
     add_corner (vertices, indices, vert_map) c = (vertices, indices ++ [Z.of_nat j], vert_map)) \/
  (exists v,
     vertex_key v = corner_key c /\
     Forall (fun w => vert_key_eqb (vertex_key w) (corner_key c) = false) vertices /\
     add_corner (vertices, indices, vert_map) c
     = (vertices ++ [v], indices ++ [len vertices], vert_map ++ [(corner_key c, len vertices)])).
Proof.
  intros [Hvm _]. unfold add_corner. fold (corner_key c).
  destruct (vert_map_get vert_map (corner_key c)) as [i|] eqn:E; rewrite Hvm in E.
  - left. apply vert_map_get_some in E. destruct E as (j & v & -> & Hj & Hk).
    exists j, v. auto.
  - right. apply vert_map_get_none in E.
    eexists. split; [|split; [exact E | reflexivity]]. reflexivity.
Qed.

Lemma add_corner_consistent st c : consistent st -> consistent (add_corner st c).
Proof.
  destruct st as [[vertices indices] vert_map]. intro H.
  destruct (add_corner_cases vertices indices vert_map c H)
    as [(j & v & Hj & _ & ->) | (v & Hv & _ & ->)]; destruct H as [Hvm Hidx].
  - split; [exact Hvm|]. apply Forall_app. split; [exact Hidx|].
    constructor; [|constructor].
    assert (j < List.length vertices)%nat by (apply nth_error_Some; congruence).
    unfold len. lia.
  - split.
    + rewrite length_app. cbn [List.length]. rewrite Nat.add_1_r, seq_S, !map_app.
      cbn [map Nat.add]. rewrite combine_snoc by (now rewrite !length_map, length_seq).
      rewrite <- Hvm, Hv. reflexivity.
    + apply Forall_app. split.
      * eapply Forall_impl; [|exact Hidx]. intros i Hi. unfold len in *.
        rewrite length_app. cbn [List.length]. lia.
      * constructor; [|constructor]. unfold len. rewrite length_app. cbn [List.length]. lia.
Qed.

Lemma refers_grow vertices v cs indices :
  refers vertices cs indices -> refers (vertices ++ [v]) cs indices.
Proof.
  intro H. induction H as [|c i cs indices (w & Hi & Hw & Hk) _ IH]; constructor; [|exact IH].
  exists w. split; [exact Hi|]. split; [|exact Hk].
  rewrite nth_error_app1; [exact Hw | apply nth_error_Some; congruence].
Qed.

Lemma Forall2_snoc {A B} (R : A -> B -> Prop) l1 l2 a b :
  Forall2 R l1 l2 -> R a b -> Forall2 R (l1 ++ [a]) (l2 ++ [b]).
Proof. intros H Hab. apply Forall2_app; [exact H | constructor; [exact Hab | constructor]]. Qed.

(** The corner loop, from a consistent state on. *)
Lemma fold_add_corner (cs : list corner) : forall vertices indices vert_map done,
  consistent (vertices, indices, vert_map) ->
  distinct_keys vertices ->
  refers vertices done indices ->
  let '(vertices', indices', vert_map') := fold_left add_corner cs (vertices, indices, vert_map) in
  consistent (vertices', indices', vert_map') /\
  distinct_keys vertices' /\
  refers vertices' (done ++ cs) indices' /\
  (List.length vertices' <= List.length vertices + List.length cs)%nat.
Proof.
  induction cs as [|c cs IH]; intros vertices indices vert_map done Hc Hd Hr.
  - cbn [fold_left]. rewrite app_nil_r. repeat split; try assumption; try apply Hc. lia.
  - cbn [fold_left].
    pose proof (add_corner_consistent _ c Hc) as Hc'.
    destruct (add_corner_cases vertices indices vert_map c Hc)
      as [(j & v & Hj & Hk & E) | (v & Hv & Hnew & E)]; rewrite E in *.
    + specialize (IH vertices (indices ++ [Z.of_nat j]) vert_map (done ++ [c]) Hc' Hd).
      destruct (fold_left add_corner cs _) as [[vs' is'] vm'].
      rewrite <- app_assoc in IH. cbn [app] in IH.
      destruct IH as (H1 & H2 & H3 & H4).
      * apply Forall2_snoc; [exact Hr|]. exists v. rewrite Nat2Z.id. split; [lia | auto].
      * repeat split; try assumption; try apply H1. cbn [List.length]. lia.
    + specialize (IH (vertices ++ [v]) (indices ++ [len vertices])
                     (vert_map ++ [(corner_key c, len vertices)]) (done ++ [c]) Hc').
      destruct (fold_left add_corner cs _) as [[vs' is'] vm'].
      rewrite <- app_assoc in IH. cbn [app] in IH.
      destruct IH as (H1 & H2 & H3 & H4).
      * intros i j vi vj Hij Hi Hjv.
        assert (Hjlen : (j < List.length (vertices ++ [v]))%nat) by (apply nth_error_Some; congruence).
        rewrite length_app in Hjlen. cbn [List.length] in Hjlen.
        destruct (Nat.eq_dec j (List.length vertices)) as [-> | Hne].
        -- rewrite nth_error_app2, Nat.sub_diag in Hjv by lia. injection Hjv as <-.
           rewrite nth_error_app1 in Hi by lia. rewrite Hv.
           rewrite Forall_forall in Hnew. apply Hnew. eapply nth_error_In. exact Hi.
        -- rewrite nth_error_app1 in Hi, Hjv by lia. exact (Hd i j vi vj Hij Hi Hjv).
      * apply Forall2_snoc; [now apply refers_grow|].
        exists v. unfold len. rewrite Nat2Z.id. split; [lia|]. split; [|now left].
        rewrite nth_error_app2, Nat.sub_diag by lia. reflexivity.
      * repeat split; try assumption; try apply H1.
        rewrite length_app in H4. cbn [List.length] in *. lia.
Qed.

Section MeshData.

Context {pystr : Type}.

(** What [get_mesh_data] returns: one index per corner, every index within
    the vertices, the vertex an index refers to carrying the position,
    normal and texture coordinates of its corner, no two vertices with the
    same key, and no more vertices than corners. *)
Lemma mesh_data_invariants (obj : mesh_object pystr) :
  let vertices := fst (mesh_data obj) in
  let indices := snd (mesh_data obj) in
  List.length indices = List.length (corners obj) /\
  Forall (fun i => 0 <= i < len vertices) indices /\
  refers vertices (corners obj) indices /\
  distinct_keys vertices /\
  (List.length vertices <= List.length (corners obj))%nat.
Proof.
  unfold mesh_data. fold (corners obj).
  pose proof (fold_add_corner (corners obj) [] [] [] []) as H.
  destruct (fold_left add_corner (corners obj) ([], [], [])) as [[vs is_] vm].
  cbn [fst snd app] in *.
  destruct H as ((_ & Hidx) & Hd & Hr & Hlen).
  - split; [reflexivity | constructor].
  - intros i j vi vj _ Hi. destruct i; discriminate Hi.
  - constructor.
  - split; [|split; [exact Hidx | split; [exact Hr | split; [exact Hd | cbn in Hlen; lia]]]].
    symmetry. eapply Forall2_length. exact Hr.
Qed.

End MeshData.
End MeshDataFacts.

(** ** The bounding sphere *)

Module BoundingSphereFacts.
Import Py PyFacts ExportKn5 MeshModel DistanceFacts.
Local Open Scope Q_scope.

Lemma fl_ltb_Fin a b : fl_ltb (Fin a) (Fin b) = true <-> a < b.
Proof.
  unfold fl_ltb. rewrite Qlt_alt. destruct (a ?= b); split; intro H; try reflexivity; try discriminate.
Qed.

Lemma fl_ltb_Fin_false a b : fl_ltb (Fin a) (Fin b) = false <-> b <= a.
Proof.
  pose proof (fl_ltb_Fin a b) as H. destruct (fl_ltb (Fin a) (Fin b)).
  - split; [discriminate|]. intro Hle. assert (a < b) by now apply H. lra.
  - split; [|reflexivity]. intros _. destruct (Qlt_le_dec a b) as [Hlt|Hle]; [|exact Hle].
    apply H in Hlt. discriminate.
Qed.

(** Python's [min] over finite floats is a lower bound. *)
Lemma py_min_Fin (qs : list Q) : forall q0,
  exists m, py_min (Fin q0) (map Fin qs) = Fin m /\ m <= q0 /\ Forall (fun q => m <= q) qs.
Proof.
  unfold py_min. induction qs as [|q qs IH]; intro q0; cbn [map fold_left].
  - exists q0. split; [reflexivity | split; [lra | constructor]].
  - destruct (fl_ltb (Fin q) (Fin q0)) eqn:E.
    + apply fl_ltb_Fin in E. destruct (IH q) as (m & -> & Hm & HF).
      exists m. split; [reflexivity | split; [lra | constructor; [exact Hm | exact HF]]].
    + apply fl_ltb_Fin_false in E. destruct (IH q0) as (m & -> & Hm & HF).
      exists m. split; [reflexivity | split; [exact Hm | constructor; [lra | exact HF]]].
Qed.

Lemma py_max_Fin (qs : list Q) : forall q0,
  exists m, py_max (Fin q0) (map Fin qs) = Fin m /\ q0 <= m /\ Forall (fun q => q <= m) qs.
Proof.
  unfold py_max, fl_gtb. induction qs as [|q qs IH]; intro q0; cbn [map fold_left].
  - exists q0. split; [reflexivity | split; [lra | constructor]].
  - destruct (fl_ltb (Fin q0) (Fin q)) eqn:E.
    + apply fl_ltb_Fin in E. destruct (IH q) as (m & -> & Hm & HF).
      exists m. split; [reflexivity | split; [lra | constructor; [exact Hm | exact HF]]].
    + apply fl_ltb_Fin_false in E. destruct (IH q0) as (m & -> & Hm & HF).
      exists m. split; [reflexivity | split; [exact Hm | constructor; [lra | exact HF]]].
Qed.

Lemma Qsign_2 : Qsign 2 = Gt.
Proof. reflexivity. Qed.

Lemma fl_sqrt_nonneg_Fin s : 0 <= s -> fl_sqrt (Fin s) = Fin (Qsqrt s).
Proof.
  intro H. cbn [fl_sqrt]. unfold Qsign. destruct (s ?= 0) eqn:E; try reflexivity.
  apply Qlt_alt in E. lra.
Qed.

Lemma square_nonneg q : 0 <= q * q.
Proof.
  destruct (Qlt_le_dec q 0) as [H|H].
  - setoid_replace (q * q) with ((- q) * (- q)) by ring. apply Qmult_le_0_compat; lra.
  - apply Qmult_le_0_compat; lra.
Qed.

(** The loop that computes the radius keeps the largest distance met. *)
Lemma radius_fold (cx cy cz : Q) (vertices : list vertex) : forall r0,
  Forall finite_pos vertices ->
  0 <= r0 ->
  exists r,
    fold_left
      (fun radius v =>
         let dx := fl_sub (fst (fst (v_pos v))) (Fin cx) in
         let dy := fl_sub (snd (fst (v_pos v))) (Fin cy) in
         let dz := fl_sub (snd (v_pos v)) (Fin cz) in
         let d := fl_sqrt (fl_add (fl_add (fl_mul dx dx) (fl_mul dy dy)) (fl_mul dz dz)) in
         if fl_gtb d radius then d else radius)
      vertices (Fin r0) = Fin r /\
    r0 <= r /\
    forall v x y z, In v vertices -> v_pos v = (Fin x, Fin y, Fin z) ->
      distance_from cx cy cz x y z <= r.
Proof.
  induction vertices as [|v vs IH]; intros r0 HF Hr0.
  - exists r0. split; [reflexivity | split; [lra | intros ? ? ? ? []]].
  - inversion HF as [|? ? (x & y & z & Hv) HF']; subst.
    match goal with |- context [fold_left ?f _ _] => set (F := f) end.
    cbn [fold_left].
    assert (Hstep : exists r1, F (Fin r0) v = Fin r1 /\
                               r0 <= r1 /\ distance_from cx cy cz x y z <= r1).
    { unfold F. rewrite Hv. cbn [fst snd]. unfold fl_sub. cbn [fl_neg fl_add fl_mul].
      rewrite fl_sqrt_nonneg_Fin
        by (pose proof (square_nonneg (x + - cx)); pose proof (square_nonneg (y + - cy));
            pose proof (square_nonneg (z + - cz)); lra).
      fold (distance_from cx cy cz x y z). unfold fl_gtb.
      destruct (fl_ltb (Fin r0) (Fin (distance_from cx cy cz x y z))) eqn:E.
      - apply fl_ltb_Fin in E. eexists. split; [reflexivity | split; lra].
      - apply fl_ltb_Fin_false in E. eexists. split; [reflexivity | split; lra]. }
    destruct Hstep as (r1 & -> & Hr1 & Hd).
    destruct (IH r1 HF' ltac:(lra)) as (r & Hr & Hrr & Hall).
    exists r. split; [exact Hr | split; [lra|]].
    intros w x' y' z' [<- | Hin] Hw.
    + rewrite Hv in Hw. injection Hw as <- <- <-. lra.
    + exact (Hall w x' y' z' Hin Hw).
Qed.

Lemma finite_coordinates (vertices : list vertex) :
  Forall finite_pos vertices ->
  exists xs ys zs,
    map (fun v => fst (fst (v_pos v))) vertices = map Fin xs /\
    map (fun v => snd (fst (v_pos v))) vertices = map Fin ys /\
    map (fun v => snd (v_pos v)) vertices = map Fin zs.
Proof.
  induction 1 as [|v vs (x & y & z & Hv) _ (xs & ys & zs & Hx & Hy & Hz)].
  - exists [], [], []. auto.
  - exists (x :: xs), (y :: ys), (z :: zs). cbn [map]. rewrite Hv, Hx, Hy, Hz. auto.
Qed.

Lemma midpoint_Fin a b : fl_div (fl_add (Fin a) (Fin b)) two = Fin ((a + b) / 2).
Proof. reflexivity. Qed.

(** The bounding sphere of vertices at finite positions: a finite center
    and a radius that no distance from the center to a vertex exceeds. *)
Lemma bounding_sphere_contains (vertices : list vertex) :
  Forall finite_pos vertices ->
  exists cx cy cz r,
    compute_bounding_sphere vertices = (Fin cx, Fin cy, Fin cz, Fin r) /\
    0 <= r /\
    forall v x y z, In v vertices -> v_pos v = (Fin x, Fin y, Fin z) ->
      distance_from cx cy cz x y z <= r.
Proof.
  intro HF. destruct vertices as [|v0 rest].
  - exists 0, 0, 0, 0. split; [reflexivity | split; [lra | intros ? ? ? ? []]].
  - unfold compute_bounding_sphere. cbv zeta.
    inversion HF as [|? ? (x0 & y0 & z0 & Hv0) HF']; subst.
    destruct (finite_coordinates rest HF') as (xs & ys & zs & -> & -> & ->).
    rewrite Hv0. cbn [fst snd].
    destruct (py_min_Fin xs x0) as (x1 & -> & _), (py_max_Fin xs x0) as (x2 & -> & _).
    destruct (py_min_Fin ys y0) as (y1 & -> & _), (py_max_Fin ys y0) as (y2 & -> & _).
    destruct (py_min_Fin zs z0) as (z1 & -> & _), (py_max_Fin zs z0) as (z2 & -> & _).
    rewrite !midpoint_Fin.
    destruct (radius_fold ((x1 + x2) / 2) ((y1 + y2) / 2) ((z1 + z2) / 2) (v0 :: rest) 0 HF
                ltac:(lra)) as (r & Hr & Hr0 & Hall).
    exists ((x1 + x2) / 2), ((y1 + y2) / 2), ((z1 + z2) / 2), r.
    split; [|split; [exact Hr0 | exact Hall]].
    cbv zeta in Hr. rewrite Hr. reflexivity.
Qed.

End BoundingSphereFacts.

(** ** Chains and boundary edges *)

Module ChainCount.
Import Py GenerateAiLine AiModel ChainFacts ChainModel.

Section Count.

Variable bm : bmesh.
Variable world_mat : qmatrix4.
Variable edge_set : list nat.

(** One turn of the [while] loop records one vertex and visits one edge. *)
Lemma walk_counts fuel : forall visited current v loop_verts loop_verts' visited',
  walk fuel bm world_mat edge_set visited current v loop_verts = Some (Ok (loop_verts', visited')) ->
  (List.length loop_verts' + List.length visited = List.length loop_verts + List.length visited')%nat /\
  incl visited visited' /\
  (mem current visited = false -> In current visited').
Proof.
  induction fuel as [|fuel IH]; intros visited current v loop_verts lv' vis' H; [discriminate|].
  cbn [walk] in H. destruct (mem current visited) eqn:Hmem.
  - injection H as <- <-. split; [lia | split; [apply incl_refl | discriminate]].
  - destruct (other_vert bm current v) as [other|]; [|discriminate].
    destruct (find _ (vert_link_edges bm other)) as [next_edge|].
    + apply IH in H. destruct H as (Hlen & Hincl & _).
      rewrite length_app in Hlen. cbn [List.length] in Hlen.
      split; [lia|]. split.
      * intros x Hx. apply Hincl. now right.
      * intros _. apply Hincl. now left.
    + injection H as <- <-. rewrite length_app. cbn [List.length].
      split; [lia|]. split; [intros x Hx; now right | intros _; now left].
Qed.

Lemma total_app a b : total (a ++ b) = (total a + total b)%nat.
Proof. unfold total. now rewrite map_app, list_sum_app. Qed.

(** The [for] loop: the chains record as many vertices as edges were
    visited, and every start edge ends up visited. *)
Lemma chain_from_counts starts : forall visited walks all_walks,
  visited_ok edge_set visited ->
  incl starts edge_set ->
  chain_from (fun _ => true) bm world_mat edge_set starts visited walks = Some (Ok all_walks) ->
  exists visited',
    visited_ok edge_set visited' /\
    incl visited visited' /\ incl starts visited' /\
    (total all_walks + List.length visited = total walks + List.length visited')%nat /\
    exists new_walks, all_walks = walks ++ new_walks /\ Forall (fun w => w <> []) new_walks.
Proof.
  induction starts as [|start_edge rest IH]; intros visited walks all_walks Hok Hincl H.
  - cbn in H. injection H as <-. exists visited.
    split; [exact Hok|]. split; [apply incl_refl|]. split; [intros x []|]. split; [lia|].
    exists []. now rewrite app_nil_r.
  - cbn [chain_from] in H.
    assert (Hrest : incl rest edge_set) by (intros x Hx; apply Hincl; now right).
    destruct (mem start_edge visited) eqn:Hmem.
    + destruct (IH _ _ _ Hok Hrest H) as (vis' & Hok' & Hi1 & Hi2 & Hcount & Hnew).
      exists vis'. split; [exact Hok'|]. split; [exact Hi1|]. split; [|split; [exact Hcount | exact Hnew]].
      intros x [<- | Hx]; [apply Hi1; now apply mem_In | now apply Hi2].
    + destruct (walk_enough_fuel bm world_mat edge_set (S (List.length edge_set)) visited start_edge
                  (fst (edge_verts bm start_edge)) [] Hok (Hincl _ (or_introl eq_refl)) ltac:(lia))
        as (r & Hw & Hr).
      rewrite Hw in H. destruct r as [[loop_verts vis1]|e]; [|discriminate].
      pose proof (Hr _ _ eq_refl) as Hok1.
      apply walk_counts in Hw. destruct Hw as (Hlen & Hincl1 & Hin1).
      specialize (Hin1 Hmem).
      destruct (IH _ _ _ Hok1 Hrest H) as (vis' & Hok' & Hi1 & Hi2 & Hcount & new_walks & -> & Hne).
      exists vis'. split; [exact Hok'|]. split; [|split; [|split]].
      * intros x Hx. apply Hi1, Hincl1, Hx.
      * intros x [<- | Hx]; [apply Hi1, Hin1 | now apply Hi2].
      * rewrite !total_app in *.
        change (total [loop_verts]) with (List.length loop_verts + 0)%nat in *.
        cbn [List.length] in Hlen. lia.
      * exists (loop_verts :: new_walks). rewrite <- app_assoc. split; [reflexivity|].
        constructor; [|exact Hne].
        intros ->. cbn [List.length] in Hlen.
        apply mem_not_In in Hmem.
        assert (List.length visited < List.length vis1)%nat.
        { destruct Hok as [Hnd _]. 
          assert (Hincl2 : incl (start_edge :: visited) vis1)
            by (intros x [<- | Hx]; [exact Hin1 | now apply Hincl1]).
          apply NoDup_incl_length in Hincl2; [cbn [List.length] in Hincl2; lia|].
          constructor; assumption. }
        lia.
Qed.

End Count.

Lemma NoDup_boundary_edges bm : NoDup (boundary_edges_of bm).
Proof. unfold boundary_edges_of. apply NoDup_filter, seq_NoDup. Qed.

(** Every boundary edge gives one vertex to one chain: the chains record as
    many vertices as the mesh has boundary edges, and none is empty. *)
Lemma chains_cover_boundary bm world_mat walks :
  chain_from (fun _ => true) bm world_mat (boundary_edges_of bm) (boundary_edges_of bm) [] []
    = Some (Ok walks) ->
  total walks = List.length (boundary_edges_of bm) /\
  Forall (fun w => w <> []) walks.
Proof.
  intro H.
  apply chain_from_counts in H.
  - destruct H as (vis' & [Hnd Hsub] & _ & Hsup & Hcount & new_walks & -> & Hne).
    cbn [app] in *. split; [|exact Hne].
    assert (List.length vis' = List.length (boundary_edges_of bm)).
    { apply Nat.le_antisymm.
      - now apply NoDup_incl_length.
      - apply NoDup_incl_length; [apply NoDup_boundary_edges | exact Hsup]. }
    unfold total at 2 in Hcount. cbn in Hcount. lia.
  - split; [constructor | intros x []].
  - apply incl_refl.
Qed.

End ChainCount.

(** ** The extraction of the centerline *)

Module CenterlineFacts.
Import Py GenerateAiLine AiModel ChainFacts ChainModel AiFileFacts DirectionFacts.
Local Open Scope Q_scope.

#[local] Notation "x <- m ;; k" := (pbind m (fun x => k))
  (at level 61, m at next level, right associativity).
#[local] Notation "m ;;; k" := (pbind m (fun _ => k))
  (at level 61, right associativity).

(** [np.argmin]: the index returned holds a least element, and the first
    one. *)
Lemma argmin_from_spec (l : list Q) : forall (pre : list Q) best best_i,
  (best_i < List.length pre)%nat ->
  nth best_i pre 0 = best ->
  (forall j, (j < List.length pre)%nat ->
     best <= nth j pre 0 /\ ((j < best_i)%nat -> best < nth j pre 0)) ->
  let r := argmin_from l (List.length pre) best best_i in
  (r < List.length (pre ++ l))%nat /\
  forall j, (j < List.length (pre ++ l))%nat ->
    nth r (pre ++ l) 0 <= nth j (pre ++ l) 0 /\
    ((j < r)%nat -> nth r (pre ++ l) 0 < nth j (pre ++ l) 0).
Proof.
  induction l as [|x l IH]; intros pre best best_i Hbi Hbest Hinv; cbn [argmin_from].
  - cbv zeta. rewrite app_nil_r. split; [exact Hbi|]. intros j Hj. rewrite Hbest. now apply Hinv.
  - cbv zeta.
    replace (pre ++ x :: l) with ((pre ++ [x]) ++ l) by (rewrite <- app_assoc; reflexivity).
    assert (Hlen : List.length (pre ++ [x]) = S (List.length pre))
      by (rewrite length_app; cbn; lia).
    destruct (Qlt_le_dec x best) as [Hlt|Hle].
    + rewrite <- Hlen. apply IH.
      * rewrite Hlen. lia.
      * rewrite nth_middle. reflexivity.
      * intros j Hj. rewrite Hlen in Hj.
        destruct (Nat.eq_dec j (List.length pre)) as [-> | Hne].
        -- rewrite nth_middle. split; [lra | lia].
        -- rewrite app_nth1 by lia. destruct (Hinv j ltac:(lia)) as [H1 _].
           split; [lra | intros _; lra].
    + rewrite <- Hlen. apply IH.
      * rewrite Hlen. lia.
      * rewrite app_nth1 by lia. exact Hbest.
      * intros j Hj. rewrite Hlen in Hj.
        destruct (Nat.eq_dec j (List.length pre)) as [-> | Hne].
        -- rewrite nth_middle. split; [exact Hle | lia].
        -- rewrite app_nth1 by lia. apply Hinv. lia.
Qed.

Lemma argmin_spec (l : list Q) (i : nat) :
  argmin l = Ok i ->
  (i < List.length l)%nat /\
  forall j, (j < List.length l)%nat ->
    nth i l 0 <= nth j l 0 /\ ((j < i)%nat -> nth i l 0 < nth j l 0).
Proof.
  destruct l as [|x l]; [discriminate|]. cbn [argmin]. intros [= <-].
  apply (argmin_from_spec l [x] x 0%nat).
  - cbn. lia.
  - reflexivity.
  - intros [|j] Hj; cbn in *; [split; [lra | lia] | lia].
Qed.

Lemma argmin_nonempty (l : list Q) : l <> [] -> exists i, argmin l = Ok i.
Proof. destruct l; [contradiction | eexists; reflexivity]. Qed.

Lemma roll_left_perm {A} (k : nat) (l : list A) : Permutation l (roll_left k l).
Proof.
  unfold roll_left. rewrite <- (firstn_skipn k l) at 1. apply Permutation_app_comm.
Qed.

Lemma roll_left_0 {A} (l : list A) : roll_left 0 l = l.
Proof. unfold roll_left. cbn. apply app_nil_r. Qed.

Lemma roll_left_head {A} (k : nat) (l : list A) (d : A) :
  (k < List.length l)%nat -> nth 0 (roll_left k l) d = nth k l d.
Proof.
  intro H. unfold roll_left. rewrite app_nth1 by (rewrite length_skipn; lia).
  rewrite nth_skipn. f_equal. lia.
Qed.

(** The alignment rotates the loop so that it starts at a point nearest to
    [a0], the first such point of the loop. *)
Lemma align_spec (loop_b : list point3) (a0 : point3) (aligned : list point3) :
  align loop_b a0 = Ok aligned ->
  exists k,
    (k < List.length loop_b)%nat /\ aligned = roll_left k loop_b /\
    forall j, (j < List.length loop_b)%nat ->
      sq_dist (nth k loop_b a0) a0 <= sq_dist (nth j loop_b a0) a0 /\
      ((j < k)%nat -> sq_dist (nth k loop_b a0) a0 < sq_dist (nth j loop_b a0) a0).
Proof.
  unfold align, rbind.
  destruct (argmin (map (fun b => sq_dist b a0) loop_b)) as [k|e] eqn:E; [|discriminate].
  intros [= <-]. apply argmin_spec in E. rewrite length_map in E. destruct E as [Hk Hmin].
  exists k. split; [exact Hk|]. split.
  - destruct k; [now rewrite roll_left_0 | reflexivity].
  - intros j Hj. specialize (Hmin j Hj).
    rewrite (nth_indep _ 0 (sq_dist a0 a0)) in Hmin by (now rewrite length_map).
    rewrite (nth_indep _ 0 (sq_dist a0 a0) (n := j)) in Hmin by (now rewrite length_map).
    rewrite !(map_nth (fun b => sq_dist b a0)) in Hmin.
    exact Hmin.
Qed.

(** *** What the extraction does to the outside world *)

Lemma quiet_pbind {A B} (m : P A) (k : A -> P B) :
  existsb touches_file_system (fst m) = false ->
  (forall a, existsb touches_file_system (fst (k a)) = false) ->
  existsb touches_file_system (fst (pbind m k)) = false.
Proof.
  unfold pbind. destruct m as [ev [a|e]]; cbn [fst]; intros Hm Hk; [|exact Hm].
  specialize (Hk a). destruct (k a) as [ev' r]. cbn [fst] in *.
  now rewrite existsb_app, Hm, Hk.
Qed.

Ltac quiet :=
  repeat first
    [ reflexivity
    | apply quiet_pbind; [| intros ?]
    | match goal with
      | |- context [if ?c then _ else _] => destruct c
      | |- context [let '(_, _) := ?p in _] => destruct p
      end ].

Lemma centerline_of_quiet loop_a loop_b :
  existsb touches_file_system (fst (centerline_of loop_a loop_b)) = false.
Proof. unfold centerline_of. quiet. Qed.

(** The extraction only prints, whatever its outcome. *)
Lemma extract_centerline_quiet sc m :
  extract_centerline sc = Some m -> existsb touches_file_system (fst m) = false.
Proof.
  unfold extract_centerline. destruct (road sc) as [[bm world_mat]|].
  - destruct (_chain_boundary_loops bm world_mat) as [[ev r]|] eqn:E; [|discriminate].
    intro H.
    apply (f_equal (fun o => match o with Some x => x | None => m end)) in H.
    rewrite <- H. apply quiet_pbind.
    + exact (chain_boundary_loops_prints _ _ _ _ E).
    + intro loops. apply quiet_pbind; [reflexivity|]. intros _.
      destruct loops as [|a [|b [|c l]]]; try reflexivity. apply centerline_of_quiet.
  - intros [= <-]. reflexivity.
Qed.

Lemma quiet_written ev : existsb touches_file_system ev = false -> written ev = [].
Proof.
  induction ev as [|e l IH]; [reflexivity|]. cbn [existsb written].
  intro H. apply orb_false_iff in H. destruct H as [He Hl].
  destruct e; try discriminate He. auto.
Qed.

Section Stage.

Variable DEFAULT_SPEED MIN_CORNER_SPEED : Q.

(** When the extraction of the centerline fails, whatever the reason, the
    stage fails in the same way and has only printed: no directory was
    created and the output file was neither opened nor written. *)
Lemma failed_extraction_is_fatal sc ev e :
  extract_centerline sc = Some (ev, Raise e) ->
  main DEFAULT_SPEED MIN_CORNER_SPEED sc = Some (Print Generating :: ev, Raise e) /\
  existsb touches_file_system (Print Generating :: ev) = false /\
  written (Print Generating :: ev) = [].
Proof.
  intro H. pose proof (extract_centerline_quiet sc _ H) as Hq. cbn [fst] in Hq.
  unfold main. rewrite H. split; [reflexivity|].
  assert (Hq' : existsb touches_file_system (Print Generating :: ev) = false) by exact Hq.
  split; [exact Hq' | now apply quiet_written].
Qed.

End Stage.

(** *** The shape of the centerline *)

Lemma incl_firstn {A} (n : nat) (l : list A) : incl (firstn n l) l.
Proof. intros x Hx. rewrite <- (firstn_skipn n l). apply in_or_app. now left. Qed.

Lemma index_ok {A} (l : list A) (i : nat) : (i < List.length l)%nat -> exists x, index l i = Ok x.
Proof.
  intro H. unfold index. destruct (nth_error l i) eqn:E; [eexists; reflexivity|].
  apply nth_error_None in E. lia.
Qed.

Lemma index_last_ok {A} (l : list A) : l <> [] -> exists x, index_last l = Ok x.
Proof.
  intro H. unfold index_last. destruct (rev l) eqn:E; [|eexists; reflexivity].
  apply (f_equal (@List.length A)) in E. rewrite length_rev in E.
  destruct l; [contradiction | discriminate].
Qed.

Lemma align_ok (loop_b : list point3) a0 :
  loop_b <> [] -> exists aligned, align loop_b a0 = Ok aligned.
Proof.
  intro H. unfold align, rbind.
  destruct (argmin_nonempty (map (fun b => sq_dist b a0) loop_b)) as [k ->];
    [destruct loop_b; [contradiction | discriminate] | eexists; reflexivity].
Qed.

Lemma align_perm (loop_b : list point3) a0 aligned :
  align loop_b a0 = Ok aligned -> Permutation loop_b aligned.
Proof.
  intro H. apply align_spec in H. destruct H as (k & _ & -> & _). apply roll_left_perm.
Qed.

(** The points of the centerline are the midpoints of the two loops, the
    longer one cut to the length of the shorter, taken pairwise after the
    second loop was rotated and possibly reversed. *)
Lemma centerline_of_shape loop_a loop_b ev centerline :
  centerline_of loop_a loop_b = (ev, Ok centerline) ->
  let n := Nat.min (List.length loop_a) (List.length loop_b) in
  exists loop_b',
    Permutation (firstn n loop_b) loop_b' /\
    (centerline = map (fun '(a, b) => midpoint a b) (combine (firstn n loop_a) loop_b') \/
     centerline = rev (map (fun '(a, b) => midpoint a b) (combine (firstn n loop_a) loop_b'))).
Proof.
  unfold centerline_of. intro H.
  apply pbind_ok in H as (ev1 & [la lb] & ev2 & Hcut & H & _).
  assert (Hla : la = firstn (Nat.min (List.length loop_a) (List.length loop_b)) loop_a /\
                lb = firstn (Nat.min (List.length loop_a) (List.length loop_b)) loop_b).
  { destruct (Nat.eqb (List.length loop_a) (List.length loop_b)) eqn:E.
    - apply Nat.eqb_eq in E. injection Hcut as _ <- <-.
      rewrite E, Nat.min_id. rewrite <- E at 1. now rewrite !firstn_all.
    - unfold pbind, print, pret in Hcut. injection Hcut as _ <- <-. auto. }
  destruct Hla as [-> ->]. clear Hcut.
  apply pbind_ok in H as (? & a0 & ? & _ & H & _).
  apply pbind_ok in H as (? & lb1 & ? & Hal & H & _).
  apply plift_ok in Hal. destruct Hal as [Hal _]. apply align_perm in Hal.
  apply pbind_ok in H as (? & a1 & ? & _ & H & _).
  apply pbind_ok in H as (? & b1 & ? & _ & H & _).
  apply pbind_ok in H as (? & bl & ? & _ & H & _).
  apply pbind_ok in H as (? & lb2 & ? & Hrev & H & _).
  assert (Hperm : Permutation lb1 lb2).
  { destruct (Qlt_le_dec _ _).
    - apply plift_ok in Hrev. destruct Hrev as [Hrev _]. apply align_perm in Hrev.
      etransitivity; [apply Permutation_rev | exact Hrev].
    - injection Hrev as _ <-. reflexivity. }
  apply pbind_ok in H as (? & [] & ? & _ & H & _).
  cbv zeta. exists lb2. split; [etransitivity; eassumption|].
  destruct (Qlt_le_dec 0 _).
  - apply pbind_ok in H as (? & [] & ? & _ & H & _). injection H as _ <-. now right.
  - injection H as _ <-. now left.
Qed.

(** The centerline has as many points as the shorter loop, and each is the
    midpoint of a point of the first loop and a point of the second. *)
Lemma centerline_of_points loop_a loop_b ev centerline :
  centerline_of loop_a loop_b = (ev, Ok centerline) ->
  List.length centerline = Nat.min (List.length loop_a) (List.length loop_b) /\
  forall p, In p centerline ->
    exists a b, In a loop_a /\ In b loop_b /\ p = midpoint a b.
Proof.
  intro H. apply centerline_of_shape in H. cbv zeta in H.
  destruct H as (lb' & Hperm & Hc).
  set (n := Nat.min (List.length loop_a) (List.length loop_b)) in *.
  assert (Hlen : List.length lb' = n).
  { rewrite <- (Permutation_length Hperm), length_firstn. lia. }
  assert (Hpts : forall p, In p (map (fun '(a, b) => midpoint a b) (combine (firstn n loop_a) lb')) ->
                 exists a b, In a loop_a /\ In b loop_b /\ p = midpoint a b).
  { intros p Hp. apply in_map_iff in Hp. destruct Hp as ([a b] & <- & Hab).
    exists a, b. split; [|split; [|reflexivity]].
    - apply in_combine_l in Hab. now apply incl_firstn in Hab.
    - apply in_combine_r in Hab. apply (Permutation_in _ (Permutation_sym Hperm)) in Hab.
      now apply incl_firstn in Hab. }
  assert (Hl : List.length (map (fun '(a, b) => midpoint a b) (combine (firstn n loop_a) lb')) = n).
  { rewrite length_map, length_combine, length_firstn, Hlen. lia. }
  destruct Hc as [-> | ->].
  - split; [exact Hl | exact Hpts].
  - split; [now rewrite length_rev|]. intros p Hp. apply in_rev in Hp. now apply Hpts.
Qed.

Lemma succeeds_pbind {A B} (m : P A) (k : A -> P B) ev a :
  m = (ev, Ok a) ->
  (exists ev' b, k a = (ev', Ok b)) ->
  exists ev' b, pbind m k = (ev', Ok b).
Proof. intros -> (ev' & b & Hk). unfold pbind. rewrite Hk. eexists _, _. reflexivity. Qed.

(** Two loops of at least two points each always give a centerline. *)
Lemma centerline_of_total loop_a loop_b :
  (2 <= List.length loop_a)%nat -> (2 <= List.length loop_b)%nat ->
  exists ev centerline, centerline_of loop_a loop_b = (ev, Ok centerline).
Proof.
  intros Ha Hb. unfold centerline_of.
  set (cut := if Nat.eqb _ _ then _ else _).
  assert (Hcut : exists ev la lb, cut = (ev, Ok (la, lb)) /\
                   (2 <= List.length la)%nat /\ (2 <= List.length lb)%nat).
  { subst cut. destruct (Nat.eqb _ _).
    - exists [], loop_a, loop_b. auto.
    - eexists _, _, _. split; [reflexivity|]. rewrite !length_firstn. lia. }
  destruct Hcut as (ev0 & la & lb & Hcut & Hla & Hlb).
  eapply succeeds_pbind; [exact Hcut|]. cbv beta iota.
  destruct (index_ok la 0 ltac:(lia)) as [a0 Ha0].
  eapply succeeds_pbind; [rewrite Ha0; reflexivity|].
  destruct (align_ok lb a0) as [lb1 Hal]; [destruct lb; [cbn in Hlb; lia | discriminate]|].
  pose proof (Permutation_length (align_perm _ _ _ Hal)) as Hl1.
  eapply succeeds_pbind; [rewrite Hal; reflexivity|].
  destruct (index_ok la 1 ltac:(lia)) as [a1 Ha1].
  eapply succeeds_pbind; [rewrite Ha1; reflexivity|].
  destruct (index_ok lb1 1 ltac:(lia)) as [b1 Hb1].
  eapply succeeds_pbind; [rewrite Hb1; reflexivity|].
  destruct (index_last_ok lb1) as [bl Hbl]; [destruct lb1; [cbn in Hl1; lia | discriminate]|].
  eapply succeeds_pbind; [rewrite Hbl; reflexivity|].
  assert (Hrev : exists lb2,
            (if Qlt_le_dec (sq_dist a1 bl) (sq_dist a1 b1)
             then plift (align (rev lb1) a0) else pret lb1) = ([], Ok lb2)).
  { destruct (Qlt_le_dec _ _); [|eexists; reflexivity].
    destruct (align_ok (rev lb1) a0) as [lb2 ->]; [|eexists; reflexivity].
    intro E. apply (f_equal (@List.length point3)) in E. rewrite length_rev in E. cbn in E. lia. }
  destruct Hrev as [lb2 Hrev].
  eapply succeeds_pbind; [exact Hrev|]. cbv zeta.
  eapply succeeds_pbind; [reflexivity|].
  destruct (Qlt_le_dec 0 _).
  - eapply succeeds_pbind; [reflexivity|]. eexists _, _. reflexivity.
  - eexists _, _. reflexivity.
Qed.

End CenterlineFacts.

(** ** Curvature and smoothing *)

Module CurvatureFacts.
Import Py GenerateAiLine AiModel SpeedModel DistanceFacts SpeedFacts CenterlineFacts.
Local Open Scope Q_scope.

Lemma length_compute_curvature pts : List.length (compute_curvature pts) = List.length pts.
Proof. unfold compute_curvature. now rewrite length_map, length_seq. Qed.

Lemma Qsqrt_zero q : q == 0 -> ~ 0 < Qsqrt q.
Proof.
  intros Hq Hlt. unfold Qeq in Hq. cbn in Hq. rewrite Z.mul_1_r in Hq.
  unfold Qsqrt, Qlt in Hlt. rewrite Hq in Hlt. cbn in Hlt. lia.
Qed.

Lemma Qdiv_nonneg a b : 0 <= a -> 0 < b -> 0 <= a / b.
Proof.
  intros Ha Hb. unfold Qdiv. apply Qmult_le_0_compat; [exact Ha|].
  apply Qlt_le_weak, Qinv_lt_0_compat, Hb.
Qed.

Lemma Qmult_pos a b : 0 < a -> 0 < b -> 0 < a * b.
Proof. intros Ha Hb. nra. Qed.

(** The curvature is never negative. *)
Lemma compute_curvature_nonneg pts : Forall (fun c => 0 <= c) (compute_curvature pts).
Proof.
  unfold compute_curvature. apply Forall_forall. intros c Hc.
  apply in_map_iff in Hc. destruct Hc as (i & <- & _). cbv zeta.
  destruct (Qlt_le_dec 0 _) as [H1|_]; [|lra].
  destruct (Qlt_le_dec 0 _) as [H2|_]; [|lra].
  apply Qdiv_nonneg; [apply Qabs_nonneg | now apply Qmult_pos].
Qed.

(** Where a point coincides with its predecessor or its successor, the
    curvature is 0: nothing is divided by zero. *)
Lemma compute_curvature_degenerate (pts : list point2) i :
  (i < List.length pts)%nat ->
  let n := List.length pts in
  @nth point2 ((i + n - 1) mod n) pts (0, 0) = @nth point2 i pts (0, 0) \/
  @nth point2 ((i + 1) mod n) pts (0, 0) = @nth point2 i pts (0, 0) ->
  nth i (compute_curvature pts) 0 = 0.
Proof.
  intros Hi n Hdeg. unfold compute_curvature.
  match goal with
  | |- nth i (map ?f _) _ = _ =>
      rewrite (nth_indep _ 0 (f 0%nat)) by (now rewrite length_map, length_seq);
      rewrite (map_nth f)
  end.
  rewrite seq_nth by exact Hi. cbn [Nat.add]. cbv beta zeta. cbn [fst snd].
  subst n.
  destruct Hdeg as [E | E]; rewrite E.
  - destruct (Qlt_le_dec 0 _) as [H1|_]; [|reflexivity].
    exfalso. revert H1. apply Qsqrt_zero. cbn [Qpower Qpower_positive pow_pos]. ring.
  - destruct (Qlt_le_dec 0 _) as [H1|_]; [|reflexivity].
    destruct (Qlt_le_dec 0 _) as [H2|_]; [|reflexivity].
    exfalso. revert H2. apply Qsqrt_zero. cbn [Qpower Qpower_positive pow_pos]. ring.
Qed.

End CurvatureFacts.

Module SmoothingFacts.
Import Py GenerateAiLine AiModel SpeedModel DistanceFacts SpeedFacts CenterlineFacts CurvatureFacts.
Local Open Scope Q_scope.

Lemma length_convolve_same a v :
  List.length (convolve_same a v) = Nat.max (List.length a) (List.length v).
Proof.
  unfold convolve_same. destruct (Nat.ltb (List.length a) (List.length v)) eqn:E.
  - apply Nat.ltb_lt in E. rewrite length_map, length_seq. lia.
  - apply Nat.ltb_ge in E. rewrite length_map, length_seq. lia.
Qed.

Lemma length_speeds_before_smoothing D M curvature :
  List.length (speeds_before_smoothing D M curvature) = List.length curvature.
Proof. unfold speeds_before_smoothing. now rewrite !length_map. Qed.

(** The speeds are as many as the points, but never fewer than the 15
    values of the smoothing kernel; without a point there is no speed. *)
Lemma length_compute_speeds D M curvature :
  match compute_speeds D M curvature with
  | Ok speeds =>
      curvature <> [] /\
      List.length speeds = Nat.max (List.length curvature) 15
  | Raise e => curvature = [] /\ e = ValueError_empty_reduction
  end.
Proof.
  destruct curvature as [|c l]; [split; reflexivity|].
  unfold compute_speeds. split; [discriminate|].
  rewrite length_convolve_same, length_speeds_before_smoothing, repeat_length. reflexivity.
Qed.

(** *** The smoothing filter *)

Lemma bounded_nth hi (l : list float) (i : nat) :
  Forall (bounded hi) l -> (i < List.length l)%nat -> bounded hi (nth i l NaN).
Proof. intros HF Hi. rewrite Forall_forall in HF. apply HF, nth_In, Hi. Qed.

(** The indices that contribute to entry [j] of a convolution. *)
Lemma window_size (j la lv : nat) :
  (List.length (filter (fun i => Nat.leb i j && Nat.ltb (j - i) lv) (seq 0 la))
   <= Nat.min la lv)%nat.
Proof.
  apply Nat.min_glb.
  - etransitivity; [apply filter_length_le | now rewrite length_seq].
  - set (w := filter _ _).
    assert (Hnd : NoDup (map (fun i => (j - i)%nat) w)).
    { assert (Hw : NoDup w) by (apply NoDup_filter, seq_NoDup).
      assert (Hle : Forall (fun i => (i <= j)%nat) w).
      { apply Forall_forall. intros i Hi. apply filter_In in Hi. destruct Hi as [_ Hi].
        apply andb_true_iff in Hi. destruct Hi as [Hi _]. now apply Nat.leb_le. }
      clearbody w. induction Hw as [|x l Hx Hl IH]; [constructor|].
      inversion Hle; subst. cbn [map]. constructor; [|now apply IH].
      intro Hin. apply in_map_iff in Hin. destruct Hin as (y & Hy & Hyl).
      assert (y <= j)%nat by (rewrite Forall_forall in H2; now apply H2).
      assert (x = y) by lia. subst. contradiction. }
    assert (Hgoal : (List.length (map (fun i => (j - i)%nat) w) <= List.length (seq 0 lv))%nat);
      [|now rewrite length_map, length_seq in Hgoal].
    apply NoDup_incl_length; [exact Hnd|].
    intros k Hk. apply in_map_iff in Hk. destruct Hk as (i & <- & Hi).
    apply filter_In in Hi. destruct Hi as [_ Hi]. apply andb_true_iff in Hi.
    destruct Hi as [_ Hi]. apply Nat.ltb_lt in Hi. apply in_seq. lia.
Qed.

Lemma fold_convolve (a v : list float) (j : nat) (A B : Q) :
  Forall (bounded A) a -> Forall (bounded B) v -> 0 <= A -> 0 <= B ->
  forall (l : list nat) (q0 : Q),
    Forall (fun i => (i < List.length a)%nat) l ->
    0 <= q0 ->
    exists q,
      fold_left
        (fun acc i =>
           if Nat.leb i j && Nat.ltb (j - i) (List.length v)
           then fl_add acc (fl_mul (nth i a NaN) (nth (j - i) v NaN))
           else acc) l (Fin q0) = Fin q /\
      q0 <= q /\
      q <= q0 + inject_Z (Z.of_nat
             (List.length (filter (fun i => Nat.leb i j && Nat.ltb (j - i) (List.length v)) l)))
             * (A * B).
Proof.
  intros Ha Hv HA HB. induction l as [|i l IH]; intros q0 Hl Hq0.
  - exists q0. cbn [fold_left filter List.length].
    change (inject_Z (Z.of_nat 0)) with 0.
    split; [reflexivity | split; lra].
  - inversion Hl as [|? ? Hi Hl']; subst. cbn [fold_left filter].
    destruct (Nat.leb i j && Nat.ltb (j - i) (List.length v)) eqn:E.
    + apply andb_true_iff in E. destruct E as [_ E]. apply Nat.ltb_lt in E.
      destruct (bounded_nth A a i Ha Hi) as (x & -> & Hx).
      destruct (bounded_nth B v (j - i) Hv E) as (y & -> & Hy).
      cbn [fl_mul fl_add].
      assert (Hxy : 0 <= x * y <= A * B) by nra.
      destruct (IH (q0 + x * y) Hl' ltac:(lra)) as (q & -> & Hq1 & Hq2).
      exists q. split; [reflexivity | split; [lra|]].
      cbn [List.length]. rewrite Nat2Z.inj_succ, <- Z.add_1_r, inject_Z_plus.
      change (inject_Z 1) with 1. nra.
    + destruct (IH q0 Hl' Hq0) as (q & -> & Hq1 & Hq2).
      exists q. split; [reflexivity | split; assumption].
Qed.

(** An entry of a convolution of bounded arrays is bounded. *)
Lemma convolve_at_bounded (a v : list float) (j : nat) (A B : Q) :
  Forall (bounded A) a -> Forall (bounded B) v -> 0 <= A -> 0 <= B ->
  bounded (inject_Z (Z.of_nat (Nat.min (List.length a) (List.length v))) * (A * B))
          (convolve_at a v j).
Proof.
  intros Ha Hv HA HB. unfold convolve_at.
  destruct (fold_convolve a v j A B Ha Hv HA HB (seq 0 (List.length a)) 0) as (q & -> & Hq1 & Hq2).
  - apply Forall_forall. intros i Hi. apply in_seq in Hi. lia.
  - lra.
  - exists q. split; [reflexivity|]. split; [exact Hq1|].
    pose proof (window_size j (List.length a) (List.length v)) as Hw.
    apply inj_le in Hw. rewrite Zle_Qle in Hw.
    assert (0 <= A * B) by nra. nra.
Qed.

Lemma bounded_weaken hi hi' x : hi <= hi' -> bounded hi x -> bounded hi' x.
Proof. intros H (q & -> & Hq). exists q. split; [reflexivity | lra]. Qed.

Lemma kernel_bounded : Forall (bounded (1 # 15)) (repeat (fl_div (Fin 1) (Fin (inject_Z (Z.of_nat kernel_size)))) kernel_size).
Proof.
  apply Forall_forall. intros x Hx. apply repeat_spec in Hx. subst x.
  eexists. split; [reflexivity|]. split; [discriminate | apply Qle_refl].
Qed.

Section Smoothing.

Variable D M : Q.

(** Smoothing keeps the speeds finite, non-negative and at most the
    default speed. *)
Lemma compute_speeds_bounded curvature speeds :
  0 <= M -> M <= D ->
  Forall (fun s => in_interval M D s = true) (speeds_before_smoothing D M curvature) ->
  compute_speeds D M curvature = Ok speeds ->
  Forall (bounded D) speeds.
Proof.
  intros HM HMD Hbefore H.
  destruct curvature as [|c0 cs]; [discriminate|].
  unfold compute_speeds in H. cbv zeta in H. apply AiFileLayout.Ok_inj in H. subst speeds.
  set (before := speeds_before_smoothing D M (c0 :: cs)) in *.
  assert (Hb : Forall (bounded D) before).
  { eapply Forall_impl; [|exact Hbefore]. intros s Hs. unfold in_interval in Hs.
    apply andb_true_iff in Hs. destruct Hs as [H1 H2].
    destruct s as [q| | |]; try discriminate.
    apply fl_leb_Fin in H1, H2. exists q. split; [reflexivity | lra]. }
  pose proof kernel_bounded as Hk.
  set (kernel := repeat _ kernel_size) in *.
  assert (Hlen : List.length kernel = 15%nat) by apply repeat_length.
  assert (H15 : forall m : nat, (m <= 15)%nat -> inject_Z (Z.of_nat m) <= 15).
  { intros m Hm. change 15 with (inject_Z 15). rewrite <- Zle_Qle. lia. }
  unfold convolve_same.
  destruct (Nat.ltb (List.length before) (List.length kernel)); apply Forall_forall;
    intros s Hs; apply in_map_iff in Hs; destruct Hs as (k & <- & _).
  - eapply bounded_weaken; [|apply (convolve_at_bounded kernel before _ (1 # 15) D Hk Hb); lra].
    pose proof (H15 (Nat.min (List.length kernel) (List.length before)) ltac:(lia)). nra.
  - eapply bounded_weaken; [|apply (convolve_at_bounded before kernel _ D (1 # 15) Hb Hk); lra].
    pose proof (H15 (Nat.min (List.length before) (List.length kernel)) ltac:(lia)). nra.
Qed.

End Smoothing.
End SmoothingFacts.

(** ** The bytes of the racing-line file *)

Module AiFileBytes.
Import Py PyFacts GenerateAiLine AiModel SpeedModel ChainFacts AiFileFacts AiFileLayout.
Import CenterlineFacts.

#[local] Notation "x <- m ;; k" := (pbind m (fun x => k))
  (at level 61, m at next level, right associativity).
#[local] Notation "m ;;; k" := (pbind m (fun _ => k))
  (at level 61, right associativity).

(** The marker missing, the line starts at index 0; otherwise at the first
    of the points nearest to the marker in the XY plane. *)
Lemma find_start_index_spec start_obj (pts : list point3) ev idx :
  find_start_index start_obj pts = (ev, Ok idx) ->
  match start_obj with
  | None => idx = 0%nat /\ ev = [Print Warning_start_not_found]
  | Some pos =>
      (idx < List.length pts)%nat /\
      forall j, (j < List.length pts)%nat ->
        (xy_distance2 pos (nth idx pts pos) <= xy_distance2 pos (nth j pts pos))%Q /\
        ((j < idx)%nat ->
         (xy_distance2 pos (nth idx pts pos) < xy_distance2 pos (nth j pts pos))%Q)
  end.
Proof.
  unfold find_start_index. destruct start_obj as [[[px py] pz]|].
  - destruct (argmin _) as [i|e] eqn:E; [|discriminate].
    unfold pbind, plift, print, pret. intros [= _ <-].
    apply argmin_spec in E. rewrite length_map in E. destruct E as [Hi Hmin].
    split; [exact Hi|]. intros j Hj. specialize (Hmin j Hj).
    set (f := fun '(x, y, _) => ((x - px) ^ 2 + (y - py) ^ 2)%Q) in *.
    rewrite (nth_indep _ 0%Q (f (px, py, pz))) in Hmin by (now rewrite length_map).
    rewrite (nth_indep _ 0%Q (f (px, py, pz)) (n := j)) in Hmin by (now rewrite length_map).
    rewrite !(map_nth f) in Hmin.
    assert (Hf : forall p, xy_distance2 (px, py, pz) p = f p) by (intros [[x y] z]; reflexivity).
    rewrite !Hf. exact Hmin.
  - unfold pbind, print, pret. intros [= <- <-]. auto.
Qed.





Section File.

Variable DEFAULT_SPEED MIN_CORNER_SPEED : Q.


End File.
End AiFileBytes.

(** * The specification, claim by claim *)

Module Spec.
Import Py PyFacts ExportKn5 Kn5Model ExportKn5Facts TrackViewer TrackViewerFacts Kn5RoundTrip.
Import NodeTreeFacts ExportKn5Overflow.
Import GenerateAiLine AiModel ChainFacts AiLineFacts DistanceFacts AiFileFacts AiFileLayout.
Import Examples.

(** Claim C1, as amended.  A mesh node that the writer wrote without raising
    and whose name encodes to at most 10000 bytes is read back by the reader
    as one mesh: the positions, normals and texture coordinates of its
    vertices rounded to float32, the same indices (one triangle per three
    indices) and the same material id.  The reader stops right after the
    node. *)
Theorem mesh_node_round_trip :
  forall (pystr : Type) (utf8_encode : pystr -> list byte)
         (utf8_decode_replace : list byte -> pystr)
         (name : pystr) (vertices : list vertex) (indices : list Z) (material_id : Z)
         (out : list byte) (log : list (ExportKn5.message pystr))
         (depth : nat) (meshes : list (mesh pystr)) (rest : list byte),
    write_mesh_node utf8_encode name vertices indices material_id = (out, log, Ok tt) ->
    len (utf8_encode name) <= 10000 ->
    parse_node utf8_decode_replace (S depth) meshes (out ++ rest)
    = Ok (meshes ++ [mesh_read_back utf8_encode utf8_decode_replace
                       name vertices indices material_id], rest).
Proof.
  intros. eapply parse_written_mesh_node; eassumption.
Qed.

(** The box mesh of a marker is read back. *)
Lemma mesh_node_round_trip_witness :
  let box := make_box_mesh default_half in
  let written := write_mesh_node ascii_encode "AC_START_0"%string (fst box) (snd box) 0 in
  parse_node ascii_decode 1 [] (file_of written ++ [])
  = Ok ([] ++ [mesh_read_back ascii_encode ascii_decode "AC_START_0"%string
                 (fst box) (snd box) 0], []).
Proof.
  cbv zeta.
  apply (mesh_node_round_trip string ascii_encode ascii_decode "AC_START_0"%string
           _ _ 0 _ [] 0%nat [] []).
  - vm_compute. reflexivity.
  - vm_compute. discriminate.
Defined.

(** Claim C1 as stated fails for a node whose name is longer than 10000
    bytes: the writer writes it, the reader raises. *)
Lemma long_name_breaks_round_trip :
  outcome_of (write_mesh_node ascii_encode long_name [] [] 0) = Ok tt /\
  parse_node ascii_decode 1 [] (file_of (write_mesh_node ascii_encode long_name [] [] 0))
  = Raise (ValueError_bad_string_length 10001).
Proof. split; vm_compute; reflexivity. Qed.

(** Claim C2 fails on the code: for the triangular ring, whose two boundary
    loops run counter-clockwise, the sum the extractor tests is negative, the
    centerline is returned as it is, and the polygon it describes has a
    positive signed area: the racing line runs counter-clockwise. *)
Theorem ring_centerline_runs_counter_clockwise :
  exists ev centerline,
    extract_centerline ring_scene = Some (ev, Ok centerline) /\
    (signed_area (map xy centerline) <= 0)%Q /\
    (0 < polygon_signed_area2 (map xy centerline))%Q.
Proof. exact ring_centerline_ccw. Qed.

(** Claim C3 fails on the code: on a rectangular centerline of 100 points
    the curvature is 1 at the four corners and 0 elsewhere, its 95th
    percentile is 0 while its maximum is not, and the speeds before
    smoothing are NaN at every point of the straights. *)
Theorem rectangle_speeds_are_nan :
  let curvature := compute_curvature (map xy rectangle) in
  List.length curvature = 100%nat /\
  forallb (fun c => Qle_bool 0 c) curvature = true /\
  (percentile curvature 95 == 0)%Q /\
  nth 1 (speeds_before_smoothing 80 40 curvature) (Fin 0) = NaN /\
  forallb (in_interval 40 80) (speeds_before_smoothing 80 40 curvature) = false.
Proof. exact rectangle_speeds_nan. Qed.

(** Claim C4.  When the chaining of the boundary edges returns a number of
    loops other than 2, the racing-line stage prints the number of loops
    found and exits with status 1; it neither creates the output directory
    nor opens or writes the output file. *)
Theorem wrong_loop_count_is_fatal :
  forall (DEFAULT_SPEED MIN_CORNER_SPEED : Q) (sc : scene) (bm : bmesh)
         (world_mat : qmatrix4) (ev : list event) (loops : list (list point3)),
    road sc = Some (bm, world_mat) ->
    _chain_boundary_loops bm world_mat = Some (ev, Ok loops) ->
    List.length loops <> 2%nat ->
    let events :=
      Print Generating :: ev ++
      [Print (Found_boundary_loops (List.length loops) (map (@List.length point3) loops));
       Print (Error_expected_two_loops (List.length loops))] in
    GenerateAiLine.main DEFAULT_SPEED MIN_CORNER_SPEED sc = Some (events, Raise (SystemExit 1)) /\
    existsb touches_file_system events = false /\
    written events = [].
Proof. exact wrong_loop_count. Qed.

(** A road mesh with three boundary loops. *)
Lemma wrong_loop_count_is_fatal_witness :
  let events :=
    [Print Generating; Print (Found_boundary_edges 9);
     Print (Found_boundary_loops 3 [3; 3; 3]%nat); Print (Error_expected_two_loops 3)] in
  GenerateAiLine.main 80 40 three_triangles_scene = Some (events, Raise (SystemExit 1)) /\
  existsb touches_file_system events = false /\
  written events = [].
Proof.
  cbv zeta.
  apply (wrong_loop_count_is_fatal 80 40 three_triangles_scene three_triangles identity
           [Print (Found_boundary_edges 9)] three_triangles_loops).
  - reflexivity.
  - vm_compute. reflexivity.
  - vm_compute. discriminate.
Defined.

(** Claim C5 as stated fails: on a declared length that is negative or
    greater than 10000, [read_string] raises, nothing is returned, and the
    whole parse of the file is aborted. *)
Lemma read_string_raises_on_bad_length :
  read_string ascii_decode (le_bytes 4 (-1)) = Raise (ValueError_bad_string_length (-1)) /\
  read_string ascii_decode (le_bytes 4 10001 ++ ascii_encode long_name)
  = Raise (ValueError_bad_string_length 10001) /\
  parse_kn5 ascii_decode
    ([x73; x63; x36; x39; x36; x39] ++ le_bytes 4 6 ++ le_bytes 4 0 ++
     le_bytes 4 1 ++ le_bytes 4 1 ++ le_bytes 4 (-1))
  = Raise (ValueError_bad_string_length (-1)).
Proof. repeat split; vm_compute; reflexivity. Qed.

(** Claim C5, as amended.  On a declared length that is negative or greater
    than 10000, [read_string] raises a [ValueError] that carries the length,
    and so does whatever was to continue with the string; on a declared
    length in [0, 10000] it returns the decoding of the bytes that follow
    (as many as declared, or those that are left) and leaves the stream after
    them. *)
Theorem read_string_guard :
  forall (pystr : Type) (utf8_decode_replace : list byte -> pystr)
         (length : Z) (rest : list byte),
    - 2 ^ 31 <= length < 2 ^ 31 ->
    let stream := le_bytes 4 length ++ rest in
    let bad := (length <? 0) || (10000 <? length) in
    read_string utf8_decode_replace stream
    = (if bad then Raise (ValueError_bad_string_length length)
       else Ok (utf8_decode_replace (firstn (Z.to_nat length) rest),
                skipn (Z.to_nat length) rest)) /\
    forall (B : Type) (k : pystr -> R B),
      bind (read_string utf8_decode_replace) k stream
      = (if bad then Raise (ValueError_bad_string_length length)
         else k (utf8_decode_replace (firstn (Z.to_nat length) rest))
                (skipn (Z.to_nat length) rest)).
Proof.
  intros pystr dec length rest Hrange stream bad.
  assert (H : read_string dec stream
              = if bad then Raise (ValueError_bad_string_length length)
                else Ok (dec (firstn (Z.to_nat length) rest), skipn (Z.to_nat length) rest)).
  { subst stream bad. unfold read_string.
    rewrite (bind_ok _ _ _ _ _ (read_i_app length rest Hrange)).
    destruct ((length <? 0) || (10000 <? length)) eqn:E; [reflexivity|].
    apply orb_false_iff in E. destruct E as [E _].
    unfold bind, f_read, ret. rewrite E. reflexivity. }
  split; [exact H|].
  intros B k. unfold bind at 1. rewrite H. destruct bad; reflexivity.
Qed.

(** A declared length of 10001. *)
Lemma read_string_guard_witness :
  read_string ascii_decode (le_bytes 4 10001 ++ ascii_encode long_name)
  = Raise (ValueError_bad_string_length 10001) /\
  forall (B : Type) (k : string -> R B),
    bind (read_string ascii_decode) k (le_bytes 4 10001 ++ ascii_encode long_name)
    = Raise (ValueError_bad_string_length 10001).
Proof.
  apply (read_string_guard string ascii_decode 10001 (ascii_encode long_name)).
  lia.
Defined.

(** Claim C6 fails on the code: the export of a scene whose only mesh has
    65538 vertices prints the warning and then stops with an exception, in
    the node of that mesh, which cannot be written. *)
Theorem export_stops_at_big_mesh :
  let run := ExportKn5.main ascii_encode String.eqb "pista_caudina"%string
               [big_mesh] [] [] [] [] in
  let vertices := fst (mesh_data big_mesh) in
  let indices := snd (mesh_data big_mesh) in
  len vertices = 65538 /\
  In (Warning_needs_splitting "1ROAD"%string (Z.to_nat 65538)) (log_of run) /\
  raises (write_mesh_node ascii_encode "1ROAD"%string vertices indices
            (get_material_id String.eqb big_mesh [])) /\
  raises run.
Proof.
  cbv zeta. split; [|split; [|split]].
  - apply big_mesh_vertices.
  - apply big_mesh_warning.
  - apply write_mesh_node_overflow. rewrite big_mesh_vertices. reflexivity.
  - apply (main_overflow ascii_encode String.eqb "pista_caudina"%string
             [big_mesh] [] [] [] [] big_mesh).
    + left. reflexivity.
    + rewrite big_mesh_vertices. reflexivity.
Qed.






(** Claim C10.  The loops that the chaining returns are the chained walks
    that recorded more than two vertices, in order: a walk of fewer than
    three vertices is not among them, nothing but the number of boundary
    edges is printed, and nothing is raised. *)
Theorem short_chains_are_dropped :
  forall (bm : bmesh) (world_mat : qmatrix4) (walks : list (list point3)),
    boundary_edges_of bm <> [] ->
    chain_from (fun _ => true) bm world_mat (boundary_edges_of bm) (boundary_edges_of bm) [] []
      = Some (Ok walks) ->
    let loops := filter more_than_two walks in
    _chain_boundary_loops bm world_mat
      = Some ([Print (Found_boundary_edges (List.length (boundary_edges_of bm)))], Ok loops) /\
    (forall w, In w walks -> (List.length w < 3)%nat -> ~ In w loops) /\
    (forall w, In w walks -> (3 <= List.length w)%nat -> In w loops).
Proof. exact short_chains_dropped. Qed.

(** Three triangles around one edge: the second chain has two vertices and
    only the first one is returned. *)
Lemma short_chains_are_dropped_witness :
  let loops := filter more_than_two fan_walks in
  _chain_boundary_loops fan identity
    = Some ([Print (Found_boundary_edges (List.length (boundary_edges_of fan)))], Ok loops) /\
  (forall w, In w fan_walks -> (List.length w < 3)%nat -> ~ In w loops) /\
  (forall w, In w fan_walks -> (3 <= List.length w)%nat -> In w loops).
Proof.
  cbv zeta. apply (short_chains_are_dropped fan identity fan_walks).
  - vm_compute. discriminate.
  - vm_compute. reflexivity.
Defined.

End Spec.

(** * Further properties of the code *)

(** ** The scene file between the exporter, the viewer and the manager *)

Module Kn5Behaviour.
Import Py PyFacts ExportKn5 Kn5Model ExportKn5Facts TrackViewer TrackViewerFacts Kn5RoundTrip.
Import NodeTreeFacts Kn5Hierarchy Kn5Bytes Kn5FileFacts MarkerModel ExportedFile ManagerFacts.
Import Examples SmallScene.

(** X1.  A string that [write_string] wrote is read back by [read_string]
    as the decoding of its encoding, the stream left right after it, when
    the encoding has at most 10000 bytes; a longer one makes [read_string]
    raise a [ValueError] that carries its length. *)
Theorem written_string_is_read_back :
  forall (pystr : Type) (utf8_encode : pystr -> list byte)
         (utf8_decode_replace : list byte -> pystr)
         (s : pystr) (out : list byte) (log : list (ExportKn5.message pystr))
         (rest : list byte),
    write_string utf8_encode s = (out, log, Ok tt) ->
    read_string utf8_decode_replace (out ++ rest)
    = (if len (utf8_encode s) <=? 10000
       then Ok (utf8_decode_replace (utf8_encode s), rest)
       else Raise (ValueError_bad_string_length (len (utf8_encode s)))).
Proof.
  intros pystr enc dec s out log rest H.
  apply write_string_ok in H. destruct H as (-> & _ & Hlen).
  unfold string_bytes. rewrite <- app_assoc.
  destruct (Z.leb_spec (len (enc s)) 10000) as [Hle|Hgt].
  - apply read_string_app. exact Hle.
  - apply read_string_bad_length; unfold len in *; lia.
Qed.

Lemma written_string_is_read_back_witness :
  read_string ascii_decode (file_of (write_string ascii_encode "AC_START_0"%string) ++ [x01])
  = (if len (ascii_encode "AC_START_0"%string) <=? 10000
     then Ok (ascii_decode (ascii_encode "AC_START_0"%string), [x01])
     else Raise (ValueError_bad_string_length (len (ascii_encode "AC_START_0"%string)))).
Proof.
  apply (written_string_is_read_back string ascii_encode ascii_decode "AC_START_0"%string
           _ [] [x01]).
  reflexivity.
Defined.





(** X4.  On a stream that does not start with the six bytes [sc6969], the
    viewer raises a [ValueError] that carries the bytes it read, while the
    manager returns no marker and raises nothing. *)
Theorem wrong_magic :
  forall (pystr : Type) (utf8_decode_replace : list byte -> pystr)
         (starts_with_AC : pystr -> bool) (empty_str : pystr) (stream : list byte),
    firstn 6 stream <> [x73; x63; x36; x39; x36; x39] ->
    parse_kn5 utf8_decode_replace stream = Raise (ValueError_not_kn5 (firstn 6 stream)) /\
    Manager.parse_kn5_empties utf8_decode_replace starts_with_AC empty_str stream
    = Ok ([], skipn 6 stream).
Proof.
  intros pystr dec ac e stream H. split.
  - unfold parse_kn5, bind at 1. unfold f_read at 1. cbn [Z.ltb Z.compare Z.to_nat Pos.to_nat].
    change (Pos.iter_op Nat.add 6 1%nat) with 6%nat. cbv beta iota.
    unfold bind at 1. destruct (list_eq_dec _ _ _) as [E|_]; [contradiction|]. reflexivity.
  - unfold Manager.parse_kn5_empties, bind at 1. unfold f_read at 1.
    cbn [Z.ltb Z.compare Z.to_nat Pos.to_nat].
    change (Pos.iter_op Nat.add 6 1%nat) with 6%nat. cbv beta iota.
    destruct (list_eq_dec _ _ _) as [E|_]; [contradiction|]. reflexivity.
Qed.

Lemma wrong_magic_witness :
  parse_kn5 ascii_decode [x50; x4b; x03; x04; x00; x00; x00]
  = Raise (ValueError_not_kn5 (firstn 6 [x50; x4b; x03; x04; x00; x00; x00])) /\
  Manager.parse_kn5_empties ascii_decode starts_with_AC ""%string
    [x50; x4b; x03; x04; x00; x00; x00]
  = Ok ([], skipn 6 [x50; x4b; x03; x04; x00; x00; x00]).
Proof.
  apply (wrong_magic string ascii_decode starts_with_AC ""%string
           [x50; x4b; x03; x04; x00; x00; x00]).
  vm_compute. discriminate.
Defined.

(** X5.  The string reader of the manager is tolerant where the one of the
    viewer is not: on a declared length that is negative or greater than
    10000 it returns the empty string and leaves the stream right after
    the four bytes of the length; on a length in [0, 10000] it returns the
    decoding of the bytes that follow, as [read_string] does. *)
Theorem manager_string_reader :
  forall (pystr : Type) (utf8_decode_replace : list byte -> pystr) (empty_str : pystr)
         (length : Z) (rest : list byte),
    - 2 ^ 31 <= length < 2 ^ 31 ->
    let stream := le_bytes 4 length ++ rest in
    Manager._rs utf8_decode_replace empty_str stream
    = (if (length <? 0) || (10000 <? length)
       then Ok (empty_str, rest)
       else read_string utf8_decode_replace stream) /\
    (0 <= length <= 10000 ->
     read_string utf8_decode_replace stream
     = Ok (utf8_decode_replace (firstn (Z.to_nat length) rest), skipn (Z.to_nat length) rest)).
Proof.
  intros pystr dec e length rest Hr stream. subst stream. split.
  - unfold Manager._rs, read_string.
    rewrite !(bind_ok _ _ _ _ _ (read_i_app length rest Hr)).
    destruct ((length <? 0) || (10000 <? length)); reflexivity.
  - intro Hin. unfold read_string.
    rewrite (bind_ok _ _ _ _ _ (read_i_app length rest Hr)).
    destruct (Z.ltb_spec length 0); [lia|]. destruct (Z.ltb_spec 10000 length); [lia|].
    cbn [orb]. unfold bind, f_read, ret.
    destruct (Z.ltb_spec length 0); [lia | reflexivity].
Qed.

Lemma manager_string_reader_witness :
  Manager._rs ascii_decode ""%string (le_bytes 4 (-1) ++ [x41; x42])
  = (if (-1 <? 0) || (10000 <? -1)
     then Ok (""%string, [x41; x42])
     else read_string ascii_decode (le_bytes 4 (-1) ++ [x41; x42])) /\
  (0 <= -1 <= 10000 ->
   read_string ascii_decode (le_bytes 4 (-1) ++ [x41; x42])
   = Ok (ascii_decode (firstn (Z.to_nat (-1)) [x41; x42]), skipn (Z.to_nat (-1)) [x41; x42])).
Proof.
  apply (manager_string_reader string ascii_decode ""%string (-1) [x41; x42]). lia.
Defined.

(** X6.  A node whose type is neither 1 nor 2 is passed over by both
    readers with its header only: nothing is appended, and the children it
    declares are not read. *)
Theorem unknown_node_type_is_skipped :
  forall (pystr : Type) (utf8_encode : pystr -> list byte)
         (utf8_decode_replace : list byte -> pystr)
         (starts_with_AC : pystr -> bool) (empty_str : pystr)
         (node_type : Z) (name : pystr) (num_children flag : Z) (depth : nat)
         (meshes : list (mesh pystr)) (empties : list (Manager.empty pystr))
         (rest : list byte),
    node_type <> 1 -> node_type <> 2 ->
    - 2 ^ 31 <= node_type < 2 ^ 31 ->
    - 2 ^ 31 <= num_children < 2 ^ 31 ->
    0 <= flag < 2 ^ 8 ->
    short utf8_encode name ->
    let stream := le_bytes 4 node_type ++ string_bytes utf8_encode name ++
                  le_bytes 4 num_children ++ le_bytes 1 flag ++ rest in
    parse_node utf8_decode_replace (S depth) meshes stream = Ok (meshes, rest) /\
    Manager.parse_node utf8_decode_replace starts_with_AC empty_str (S depth) empties stream
    = Ok (empties, rest).
Proof.
  intros pystr enc dec ac e node_type name n flag depth meshes empties rest
         H1 H2 Ht Hn Hf Hname stream. subst stream.
  assert (E1 : (node_type =? 1) = false) by now apply Z.eqb_neq.
  assert (E2 : (node_type =? 2) = false) by now apply Z.eqb_neq.
  split.
  - cbn [parse_node].
    erewrite bind_ok by (apply read_i_app; exact Ht). cbv beta.
    erewrite bind_ok by (apply read_string_bytes; exact Hname). cbv beta.
    erewrite bind_ok by (apply read_i_app; exact Hn). cbv beta.
    erewrite bind_ok by (apply read_B_app; exact Hf). cbv beta.
    rewrite E1, E2. reflexivity.
  - cbn [Manager.parse_node].
    erewrite bind_ok by (apply read_i_app; exact Ht). cbv beta.
    erewrite bind_ok by (apply rs_bytes; exact Hname). cbv beta.
    erewrite bind_ok by (apply read_i_app; exact Hn). cbv beta.
    erewrite bind_ok by (apply (f_read_skip 1); apply length_le_bytes). cbv beta.
    rewrite E1, E2. reflexivity.
Qed.

Lemma unknown_node_type_is_skipped_witness :
  let stream := le_bytes 4 3 ++ string_bytes ascii_encode "SKINNED"%string ++
                le_bytes 4 5 ++ le_bytes 1 1 ++ [x07] in
  parse_node ascii_decode 1 [] stream = Ok ([], [x07]) /\
  Manager.parse_node ascii_decode starts_with_AC ""%string 1 [] stream = Ok ([], [x07]).
Proof.
  cbv zeta.
  apply (unknown_node_type_is_skipped string ascii_encode ascii_decode starts_with_AC ""%string
           3 "SKINNED"%string 5 1 0 [] [] [x07]); try lia.
  vm_compute. discriminate.
Defined.

End Kn5Behaviour.

(** ** The meshes of the exporter *)

Module MeshBehaviour.
Import Py PyFacts ExportKn5 Kn5Model ExportKn5Facts ExportKn5Overflow.
Import MeshModel MeshDataFacts BoundingSphereFacts Examples SmallScene.

(** X7.  [get_mesh_data] raises nothing and writes nothing; it returns one
    index per face corner, every index refers to a vertex of the list it
    returns, every vertex is referred to by some index, and there are no
    more vertices than corners. *)
Theorem mesh_indices_are_valid :
  forall (pystr : Type) (obj : mesh_object pystr),
    let vertices := fst (mesh_data obj) in
    let indices := snd (mesh_data obj) in
    outcome_of (get_mesh_data obj) = Ok (vertices, indices) /\
    file_of (get_mesh_data obj) = [] /\
    List.length indices = List.length (corners obj) /\
    Forall (fun i => 0 <= i < len vertices) indices /\
    (forall i, 0 <= i < len vertices -> In i indices) /\
    (List.length vertices <= List.length (corners obj))%nat.
Proof.
  intros pystr obj vertices indices.
  destruct (mesh_data_invariants obj) as (Hlen & Hidx & _ & _ & Hle).
  split; [|split; [|split; [exact Hlen | split; [exact Hidx | split; [|exact Hle]]]]].
  - subst vertices indices. unfold get_mesh_data.
    destruct (mesh_data obj) as [vs is_]. cbn [fst snd].
    destruct (65535 <? len vs); reflexivity.
  - unfold get_mesh_data. destruct (mesh_data obj) as [vs is_].
    destruct (65535 <? len vs); reflexivity.
  - intros i Hi. now apply mesh_data_covered.
Qed.

(** X8.  The vertices that [get_mesh_data] returns are deduplicated by
    position, normal and texture coordinates: the vertex that the index of
    a corner refers to has the rounded, axis-swapped position, normal and
    texture coordinates of that corner, and no two vertices of the list
    have equal keys. *)
Theorem mesh_vertices_are_deduplicated :
  forall (pystr : Type) (obj : mesh_object pystr),
    let vertices := fst (mesh_data obj) in
    let indices := snd (mesh_data obj) in
    Forall2 (fun c i =>
               exists v, 0 <= i /\ nth_error vertices (Z.to_nat i) = Some v /\
                         (vertex_key v = corner_key c \/
                          vert_key_eqb (vertex_key v) (corner_key c) = true))
            (corners obj) indices /\
    (forall i j vi vj, (i < j)%nat ->
       nth_error vertices i = Some vi -> nth_error vertices j = Some vj ->
       vert_key_eqb (vertex_key vi) (vertex_key vj) = false).
Proof.
  intros pystr obj vertices indices.
  destruct (mesh_data_invariants obj) as (_ & _ & Hr & Hd & _).
  split; [exact Hr | exact Hd].
Qed.

(** X9.  [write_mesh_node] raises when the number of indices is not a
    multiple of 3 or when an index does not fit an unsigned 16-bit
    integer. *)
Theorem bad_indices_are_rejected :
  forall (pystr : Type) (utf8_encode : pystr -> list byte)
         (name : pystr) (vertices : list vertex) (indices : list Z) (material_id : Z),
    (List.length indices mod 3 <> 0)%nat \/ Exists (fun i => i < 0 \/ 2 ^ 16 <= i) indices ->
    raises (write_mesh_node utf8_encode name vertices indices material_id).
Proof.
  intros pystr enc name vertices indices material_id Hbad. unfold raises.
  destruct (write_mesh_node enc name vertices indices material_id) as [[out log] [[]|e]] eqn:E;
    [|now exists e].
  exfalso. apply write_mesh_node_ok in E.
  destruct E as (_ & _ & _ & _ & _ & _ & _ & HF & Hm & _).
  destruct Hbad as [Hbad | Hbad]; [contradiction|].
  apply Exists_exists in Hbad. destruct Hbad as (i & Hi & Hout).
  rewrite Forall_forall in HF. specialize (HF i Hi). lia.
Qed.

Lemma bad_indices_are_rejected_witness :
  raises (write_mesh_node ascii_encode "1ROAD"%string [] [0; 1; 2; 65536] 0).
Proof.
  apply (bad_indices_are_rejected string ascii_encode "1ROAD"%string [] [0; 1; 2; 65536] 0).
  left. vm_compute. discriminate.
Defined.

(** X10.  Whatever the scene, if one of its mesh objects has more than
    65536 deduplicated vertices, the export raises: no complete file is
    written. *)
Theorem oversized_mesh_stops_the_export :
  forall (pystr : Type) (utf8_encode : pystr -> list byte)
         (pystr_eqb : pystr -> pystr -> bool) (pista_caudina : pystr)
         (mesh_objects : list (mesh_object pystr)) (empty_objects : list (empty_object pystr))
         (materials_list : list (ExportKn5.material pystr)) (mat_name_to_id : list (pystr * Z))
         (textures : list (pystr * list byte)) (obj : mesh_object pystr),
    In obj mesh_objects ->
    65536 < len (fst (mesh_data obj)) ->
    raises (ExportKn5.main utf8_encode pystr_eqb pista_caudina mesh_objects empty_objects
              materials_list mat_name_to_id textures).
Proof. intros. eapply main_overflow; eassumption. Qed.

Lemma oversized_mesh_stops_the_export_witness :
  raises (ExportKn5.main ascii_encode String.eqb "pista_caudina"%string
            [triangle_mesh; big_mesh] [start_marker] [asphalt] [("asphalt"%string, 0)]
            [road_png]).
Proof.
  apply (oversized_mesh_stops_the_export string ascii_encode String.eqb "pista_caudina"%string
           [triangle_mesh; big_mesh] [start_marker] [asphalt] [("asphalt"%string, 0)]
           [road_png] big_mesh).
  - right. left. reflexivity.
  - rewrite big_mesh_vertices. reflexivity.
Defined.

(** X11.  For vertices at finite positions, [compute_bounding_sphere]
    returns a finite center and a non-negative radius, and the distance it
    computes from the center to any of the vertices is at most the radius;
    for no vertex at all it returns four zeros. *)
Theorem bounding_sphere_contains_the_vertices :
  forall vertices : list vertex,
    Forall finite_pos vertices ->
    compute_bounding_sphere [] = (Fin 0, Fin 0, Fin 0, Fin 0) /\
    exists cx cy cz r : Q,
      compute_bounding_sphere vertices = (Fin cx, Fin cy, Fin cz, Fin r) /\
      (0 <= r)%Q /\
      forall v x y z, In v vertices -> v_pos v = (Fin x, Fin y, Fin z) ->
        (distance_from cx cy cz x y z <= r)%Q.
Proof.
  intros vertices HF. split; [reflexivity|]. now apply bounding_sphere_contains.
Qed.

Lemma bounding_sphere_contains_the_vertices_witness :
  compute_bounding_sphere [] = (Fin 0, Fin 0, Fin 0, Fin 0) /\
  exists cx cy cz r : Q,
    compute_bounding_sphere (fst (make_box_mesh default_half))
    = (Fin cx, Fin cy, Fin cz, Fin r) /\
    (0 <= r)%Q /\
    forall v x y z, In v (fst (make_box_mesh default_half)) ->
      v_pos v = (Fin x, Fin y, Fin z) ->
      (distance_from cx cy cz x y z <= r)%Q.
Proof.
  apply (bounding_sphere_contains_the_vertices (fst (make_box_mesh default_half))).
  vm_compute. repeat constructor; eexists _, _, _; reflexivity.
Defined.

End MeshBehaviour.

Module AiLineBehaviour.
Import Py PyFacts GenerateAiLine AiModel SpeedModel ChainModel ChainFacts AiLineFacts.
Import DistanceFacts AiFileFacts AiFileLayout DirectionFacts SpeedFacts.
Import ChainCount CenterlineFacts CurvatureFacts SmoothingFacts AiFileBytes.
Import Examples SmallScene.
Local Open Scope Q_scope.

#[local] Notation "x <- m ;; k" := (pbind m (fun x => k))
  (at level 61, m at next level, right associativity).
#[local] Notation "m ;;; k" := (pbind m (fun _ => k))
  (at level 61, right associativity).

(** X12.  In the chaining of the boundary edges, every boundary edge gives
    exactly one vertex to exactly one chain: the chains, the short ones
    included, record together as many vertices as the mesh has boundary
    edges, and no chain is empty. *)
Theorem chains_cover_the_boundary :
  forall (bm : bmesh) (world_mat : qmatrix4) (walks : list (list point3)),
    chain_from (fun _ => true) bm world_mat (boundary_edges_of bm) (boundary_edges_of bm) [] []
      = Some (Ok walks) ->
    total walks = List.length (boundary_edges_of bm) /\
    Forall (fun w => w <> []) walks.
Proof. intros bm world_mat walks H. exact (chains_cover_boundary bm world_mat walks H). Qed.

Lemma chains_cover_the_boundary_witness :
  total fan_walks = List.length (boundary_edges_of fan) /\
  Forall (fun w => w <> []) fan_walks.
Proof.
  apply (chains_cover_the_boundary fan identity fan_walks).
  vm_compute. reflexivity.
Defined.

(** X13.  The chaining terminates on every mesh, well formed or not: the
    [while] loop, which visits a new boundary edge at each turn, never
    needs more turns than there are boundary edges; so does the whole
    stage on every scene. *)
Theorem chaining_terminates :
  (forall (bm : bmesh) (world_mat : qmatrix4),
     exists r, _chain_boundary_loops bm world_mat = Some r) /\
  (forall (DEFAULT_SPEED MIN_CORNER_SPEED : Q) (sc : scene),
     exists r, GenerateAiLine.main DEFAULT_SPEED MIN_CORNER_SPEED sc = Some r).
Proof.
  split.
  - intros bm world_mat. pose proof (chain_boundary_loops_terminates bm world_mat) as H.
    destruct (_chain_boundary_loops bm world_mat) as [r|]; [now exists r | contradiction].
  - intros D M sc. pose proof (main_terminates D M sc) as H.
    destruct (GenerateAiLine.main D M sc) as [r|]; [now exists r | contradiction].
Qed.

(** X14.  When the extraction of the centerline fails, for whatever reason
    (the road object is missing, the mesh has no boundary edge, the loops
    are not two, an edge is malformed), the stage fails with the same
    exception after having only printed: the output directory is not
    created and the output file is neither opened nor written. *)
Theorem failed_extraction_writes_nothing :
  forall (DEFAULT_SPEED MIN_CORNER_SPEED : Q) (sc : scene) (ev : list event) (e : pyerr),
    extract_centerline sc = Some (ev, Raise e) ->
    GenerateAiLine.main DEFAULT_SPEED MIN_CORNER_SPEED sc
    = Some (Print Generating :: ev, Raise e) /\
    existsb touches_file_system (Print Generating :: ev) = false /\
    written (Print Generating :: ev) = [].
Proof. intros D M sc ev e H. exact (failed_extraction_is_fatal D M sc ev e H). Qed.

Lemma failed_extraction_writes_nothing_witness :
  GenerateAiLine.main 80 40 (Scene None None)
  = Some (Print Generating :: [Print Error_object_not_found], Raise (SystemExit 1)) /\
  existsb touches_file_system (Print Generating :: [Print Error_object_not_found]) = false /\
  written (Print Generating :: [Print Error_object_not_found]) = [].
Proof.
  apply (failed_extraction_writes_nothing 80 40 (Scene None None)
           [Print Error_object_not_found] (SystemExit 1)).
  reflexivity.
Defined.

(** X15.  What the direction test ensures of the centerline returned: the
    sum that the extractor computes, over the consecutive pairs of points
    and without the pair that closes the polygon, is not positive. *)
Theorem centerline_open_sum_is_not_positive :
  forall (loop_a loop_b : list point3) (ev : list event) (centerline : list point3),
    centerline_of loop_a loop_b = (ev, Ok centerline) ->
    signed_area (map xy centerline) <= 0.
Proof. intros. eapply centerline_open_sum_nonpos. eassumption. Qed.

Lemma centerline_open_sum_is_not_positive_witness :
  signed_area (map xy small_centerline) <= 0.
Proof.
  apply (centerline_open_sum_is_not_positive small_loop inner_loop
           (fst (centerline_of small_loop inner_loop)) small_centerline).
  vm_compute. reflexivity.
Defined.



Lemma chain_from_keeps (bm : bmesh) (world_mat : qmatrix4) (edge_set : list nat)
    (starts : list nat) : forall visited loops result,
  chain_from more_than_two bm world_mat edge_set starts visited loops = Some (Ok result) ->
  Forall (fun l => more_than_two l = true) loops ->
  Forall (fun l => more_than_two l = true) result.
Proof.
  induction starts as [|s rest IH]; intros visited loops result H HF.
  - cbn in H. now injection H as <-.
  - cbn [chain_from] in H. destruct (mem s visited); [now apply (IH _ _ _ H)|].
    destruct (walk _ _ _ _ _ _ _ _) as [[[lv vis]|e]|]; try discriminate.
    apply (IH _ _ _ H). destruct (more_than_two lv) eqn:E; [|exact HF].
    apply Forall_app. split; [exact HF | now constructor].
Qed.

(** X17.  When the chaining returns exactly two loops, the extraction
    raises nothing: it returns a centerline of at least three points, as
    many as the shorter loop has. *)
Theorem two_loops_give_a_centerline :
  forall (sc : scene) (bm : bmesh) (world_mat : qmatrix4) (ev : list event)
         (loop_a loop_b : list point3),
    road sc = Some (bm, world_mat) ->
    _chain_boundary_loops bm world_mat = Some (ev, Ok [loop_a; loop_b]) ->
    exists ev' centerline,
      extract_centerline sc = Some (ev', Ok centerline) /\
      List.length centerline = Nat.min (List.length loop_a) (List.length loop_b) /\
      (3 <= List.length centerline)%nat.
Proof.
  intros sc bm world_mat ev la lb Hroad Hchain.
  assert (Hlong : (3 <= List.length la)%nat /\ (3 <= List.length lb)%nat).
  { unfold _chain_boundary_loops in Hchain.
    destruct (boundary_edges_of bm) as [|e0 es]; [discriminate|].
    destruct (chain_from _ _ _ _ _ _ _) as [[loops|e]|] eqn:E; try discriminate.
    apply chain_from_keeps in E; [|constructor].
    cbv in Hchain. injection Hchain as _ Hl. subst loops.
    inversion E as [|? ? Ha E']; subst. inversion E' as [|? ? Hb _]; subst.
    unfold more_than_two in Ha, Hb. apply Nat.ltb_lt in Ha, Hb. lia. }
  destruct Hlong as [Ha Hb].
  destruct (centerline_of_total la lb ltac:(lia) ltac:(lia)) as (ev1 & c & Hc).
  pose proof (centerline_of_points _ _ _ _ Hc) as [Hlen _].
  unfold extract_centerline. rewrite Hroad, Hchain.
  eexists _, c. split; [|split; [exact Hlen | lia]].
  unfold pbind at 1. unfold pbind at 1. cbn [print]. rewrite Hc. reflexivity.
Qed.

Lemma two_loops_give_a_centerline_witness :
  exists ev' centerline,
    extract_centerline ring_scene = Some (ev', Ok centerline) /\
    List.length centerline
    = Nat.min (List.length (nth 0 ring_loops [])) (List.length (nth 1 ring_loops [])) /\
    (3 <= List.length centerline)%nat.
Proof.
  apply (two_loops_give_a_centerline ring_scene ring identity
           [Print (Found_boundary_edges 6)] (nth 0 ring_loops []) (nth 1 ring_loops [])).
  - reflexivity.
  - vm_compute. reflexivity.
Defined.

(** X18.  The alignment rotates the second loop, without losing or
    changing a point, so that it starts at the point nearest to the first
    point of the first loop, the earliest one if several are as near. *)
Theorem alignment_starts_at_the_nearest_point :
  forall (loop_b : list point3) (a0 : point3) (aligned : list point3),
    align loop_b a0 = Ok aligned ->
    exists k,
      (k < List.length loop_b)%nat /\
      aligned = skipn k loop_b ++ firstn k loop_b /\
      nth 0 aligned a0 = nth k loop_b a0 /\
      forall j, (j < List.length loop_b)%nat ->
        sq_dist (nth k loop_b a0) a0 <= sq_dist (nth j loop_b a0) a0 /\
        ((j < k)%nat -> sq_dist (nth k loop_b a0) a0 < sq_dist (nth j loop_b a0) a0).
Proof.
  intros loop_b a0 aligned H. apply align_spec in H.
  destruct H as (k & Hk & -> & Hmin). exists k.
  split; [exact Hk|]. split; [reflexivity|]. split; [now apply roll_left_head | exact Hmin].
Qed.

Lemma alignment_starts_at_the_nearest_point_witness :
  exists k,
    (k < List.length small_loop)%nat /\
    [(0, 3, 0); (-3, 0, 0); (0, -3, 0); (3, 0, 0)]
    = skipn k small_loop ++ firstn k small_loop /\
    nth 0 [(0, 3, 0); (-3, 0, 0); (0, -3, 0); (3, 0, 0)] line_start
    = nth k small_loop line_start /\
    forall j, (j < List.length small_loop)%nat ->
      sq_dist (nth k small_loop line_start) line_start
      <= sq_dist (nth j small_loop line_start) line_start /\
      ((j < k)%nat ->
       sq_dist (nth k small_loop line_start) line_start
       < sq_dist (nth j small_loop line_start) line_start).
Proof.
  apply (alignment_starts_at_the_nearest_point small_loop line_start
           [(0, 3, 0); (-3, 0, 0); (0, -3, 0); (3, 0, 0)]).
  vm_compute. reflexivity.
Defined.

(** X19.  [compute_curvature] returns one value per point, none negative;
    where a point coincides with the point before it or after it (the path
    being closed), the value is 0 and nothing is divided by zero. *)
Theorem curvature_is_defined_everywhere :
  forall pts : list point2,
    List.length (compute_curvature pts) = List.length pts /\
    Forall (fun c => 0 <= c) (compute_curvature pts) /\
    forall i, (i < List.length pts)%nat ->
      let n := List.length pts in
      @nth point2 ((i + n - 1) mod n) pts (0, 0) = @nth point2 i pts (0, 0) \/
      @nth point2 ((i + 1) mod n) pts (0, 0) = @nth point2 i pts (0, 0) ->
      nth i (compute_curvature pts) 0 = 0.
Proof.
  intro pts. split; [apply length_compute_curvature|].
  split; [apply compute_curvature_nonneg|].
  intros i Hi. now apply compute_curvature_degenerate.
Qed.

(** X20.  [compute_speeds] raises a [ValueError] on an empty curvature
    array; on any other it returns as many speeds as there are curvature
    values, but never fewer than 15, the length of the smoothing kernel. *)
Theorem speeds_are_at_least_fifteen :
  forall (DEFAULT_SPEED MIN_CORNER_SPEED : Q) (curvature : list Q),
    match compute_speeds DEFAULT_SPEED MIN_CORNER_SPEED curvature with
    | Ok speeds =>
        curvature <> [] /\
        List.length speeds = Nat.max (List.length curvature) 15
    | Raise e => curvature = [] /\ e = ValueError_empty_reduction
    end.
Proof. intros. apply length_compute_speeds. Qed.

(** X21.  Where the divisor of the normalization is positive (the 95th
    percentile of the curvature is positive, or no curvature is), and
    [min_corner_speed] is at most [default_speed], every speed before
    smoothing lies between the two. *)
Theorem speeds_before_smoothing_are_within_bounds :
  forall (DEFAULT_SPEED MIN_CORNER_SPEED : Q) (curvature : list Q),
    MIN_CORNER_SPEED <= DEFAULT_SPEED ->
    (0 < max_Q curvature -> 0 < percentile curvature 95) ->
    Forall (fun s => in_interval MIN_CORNER_SPEED DEFAULT_SPEED s = true)
           (speeds_before_smoothing DEFAULT_SPEED MIN_CORNER_SPEED curvature).
Proof. intros. now apply speeds_within_bounds. Qed.

Lemma speeds_before_smoothing_are_within_bounds_witness :
  Forall (fun s => in_interval 40 80 s = true)
         (speeds_before_smoothing 80 40 [1 # 2; 1; 0; 1 # 4]).
Proof.
  apply (speeds_before_smoothing_are_within_bounds 80 40 [1 # 2; 1; 0; 1 # 4]).
  - vm_compute. discriminate.
  - intros _. vm_compute. reflexivity.
Defined.

(** X22.  Smoothing keeps the speeds finite, never negative and never
    above [default_speed], when the speeds before smoothing lie between a
    non-negative [min_corner_speed] and [default_speed]. *)
Theorem smoothed_speeds_stay_below_default :
  forall (DEFAULT_SPEED MIN_CORNER_SPEED : Q) (curvature : list Q) (speeds : list float),
    0 <= MIN_CORNER_SPEED -> MIN_CORNER_SPEED <= DEFAULT_SPEED ->
    Forall (fun s => in_interval MIN_CORNER_SPEED DEFAULT_SPEED s = true)
           (speeds_before_smoothing DEFAULT_SPEED MIN_CORNER_SPEED curvature) ->
    compute_speeds DEFAULT_SPEED MIN_CORNER_SPEED curvature = Ok speeds ->
    Forall (bounded DEFAULT_SPEED) speeds.
Proof. intros D M c s H0 H1 H2 H3. exact (compute_speeds_bounded D M c s H0 H1 H2 H3). Qed.

Lemma smoothed_speeds_stay_below_default_witness :
  Forall (bounded 80)
         (convolve_same (speeds_before_smoothing 80 40 [1 # 2; 1; 0; 1 # 4])
                        (repeat (fl_div (Fin 1) (Fin (inject_Z (Z.of_nat kernel_size))))
                                kernel_size)).
Proof.
  apply (smoothed_speeds_stay_below_default 80 40 [1 # 2; 1; 0; 1 # 4]).
  - vm_compute. discriminate.
  - vm_compute. discriminate.
  - vm_compute. repeat constructor.
  - reflexivity.
Defined.

(** X23.  [find_start_index] returns the index of the point of the
    centerline nearest, in the Blender XY plane, to the marker
    [AC_START_0], the first one if several are as near; without the marker
    it prints a warning and returns 0. *)
Theorem start_index_is_the_nearest_point :
  forall (start_obj : option point3) (pts : list point3) (ev : list event) (idx : nat),
    find_start_index start_obj pts = (ev, Ok idx) ->
    match start_obj with
    | None => idx = 0%nat /\ ev = [Print Warning_start_not_found]
    | Some pos =>
        (idx < List.length pts)%nat /\
        forall j, (j < List.length pts)%nat ->
          xy_distance2 pos (nth idx pts pos) <= xy_distance2 pos (nth j pts pos) /\
          ((j < idx)%nat ->
           xy_distance2 pos (nth idx pts pos) < xy_distance2 pos (nth j pts pos))
    end.
Proof. intros. now apply find_start_index_spec. Qed.

Lemma start_index_is_the_nearest_point_witness :
  (1 < List.length small_loop)%nat /\
  forall j, (j < List.length small_loop)%nat ->
    xy_distance2 line_start (nth 1 small_loop line_start)
    <= xy_distance2 line_start (nth j small_loop line_start) /\
    ((j < 1)%nat ->
     xy_distance2 line_start (nth 1 small_loop line_start)
     < xy_distance2 line_start (nth j small_loop line_start)).
Proof.
  apply (start_index_is_the_nearest_point (Some line_start) small_loop
           [Print (Start_finish_at 0 2 1)] 1%nat).
  vm_compute. reflexivity.
Defined.





End AiLineBehaviour.

(** ** The materials of the exporter *)

Module MaterialBehaviour.
Import Py ExportKn5 MaterialMap MaterialMapFacts SmallScene.
Local Open Scope Z_scope.

Section Blender.

Variable pystr : Type.
Variable pystr_eqb : pystr -> pystr -> bool.
Variable is_empty : pystr -> bool.
Variable contains : pystr -> pystr -> bool.
Variable str_add : pystr -> pystr -> pystr.
Variable splitext_ext basename abspath in_tempdir : pystr -> pystr.
Variable TEX_IMAGE dot_png DEFAULT_SHADER txDiffuse : pystr.
Variable ksAmbient ksDiffuse ksSpecular ksSpecularEXP : pystr.

#[local] Abbreviation build_material_map :=
  (build_material_map pystr pystr_eqb is_empty contains str_add splitext_ext basename abspath
                      in_tempdir TEX_IMAGE dot_png DEFAULT_SHADER txDiffuse
                      ksAmbient ksDiffuse ksSpecular ksSpecularEXP).
#[local] Abbreviation build_material_map_ok :=
  (build_material_map_ok pystr pystr_eqb is_empty contains str_add splitext_ext basename
                         abspath in_tempdir TEX_IMAGE dot_png DEFAULT_SHADER txDiffuse
                         ksAmbient ksDiffuse ksSpecular ksSpecularEXP).

(** X26.  The material id that [get_material_id] gives to a mesh object
    with a material is the index, in the list that [build_material_map]
    returns, of the material that has the name of the object's first
    material. *)
Theorem material_id_is_the_index_of_the_material :
  forall (d : files pystr) (mesh_objects : list (bl_object pystr))
         (obj : bl_object pystr) (bl_mat : bl_material pystr) (rest : list (bl_material pystr)),
    (forall a b, pystr_eqb a b = true <-> a = b) ->
    In obj mesh_objects ->
    bo_materials obj = bl_mat :: rest ->
    let st := build_material_map d mesh_objects in
    let mat_id := get_material_id pystr_eqb (as_mesh_object pystr obj) (mat_name_to_id st) in
    0 <= mat_id < len (materials_list st) /\
    exists mat,
      nth_error (materials_list st) (Z.to_nat mat_id) = Some mat /\
      ExportKn5.mat_name pystr mat = bl_name bl_mat.
Proof.
  intros d objs obj bl_mat rest Heq Hin Hm st mat_id.
  destruct (build_material_map_ok Heq d objs) as (Hw & _ & Hfound).
  specialize (Hfound obj bl_mat rest Hin Hm).
  subst mat_id. unfold get_material_id, as_mesh_object. cbn [obj_material]. rewrite Hm.
  fold st in Hfound, Hw.
  destruct (name_map_get pystr pystr_eqb (mat_name_to_id st) (bl_name bl_mat)) as [i|] eqn:E;
    [|congruence].
  exact (id_is_place pystr pystr_eqb Heq st _ _ Hw E).
Qed.

(** X27.  In what [build_material_map] returns, a material has at most one
    sampler, which is [txDiffuse] in slot 0; the texture that a sampler
    names is among the textures returned, and no two of these textures
    have the same name. *)
Theorem samplers_name_embedded_textures :
  forall (d : files pystr) (mesh_objects : list (bl_object pystr)),
    (forall a b, pystr_eqb a b = true <-> a = b) ->
    let st := build_material_map d mesh_objects in
    NoDup (map fst (textures st)) /\
    forall mat, In mat (materials_list st) ->
      (List.length (ExportKn5.mat_samplers pystr mat) <= 1)%nat /\
      forall name slot tex_name,
        In (name, slot, tex_name) (ExportKn5.mat_samplers pystr mat) ->
        name = txDiffuse /\ slot = 0 /\ exists data, In (tex_name, data) (textures st).
Proof.
  intros d objs Heq st.
  destruct (build_material_map_ok Heq d objs) as ((_ & _ & _ & Hseen & Hnd) & Hs & _).
  fold st in Hseen, Hnd, Hs. split; [now rewrite <- Hseen|].
  intros mat Hmat. unfold samplers_ok in Hs. rewrite Forall_forall in Hs.
  destruct (Hs mat Hmat) as [Hok Hlen]. split; [exact Hlen|].
  intros name slot tex_name Hin. rewrite Forall_forall in Hok.
  exact (Hok _ Hin).
Qed.

(** X28.  [build_material_map] returns no two materials of the same name;
    every material has the name of the first material of some mesh object,
    and there are no more materials than mesh objects. *)
Theorem material_names_are_distinct :
  forall (d : files pystr) (mesh_objects : list (bl_object pystr)),
    (forall a b, pystr_eqb a b = true <-> a = b) ->
    let st := build_material_map d mesh_objects in
    NoDup (map (ExportKn5.mat_name pystr) (materials_list st)) /\
    (List.length (materials_list st) <= List.length mesh_objects)%nat /\
    forall mat, In mat (materials_list st) ->
      exists bl_mat,
        In bl_mat (first_materials pystr mesh_objects) /\
        ExportKn5.mat_name pystr mat = bl_name bl_mat.
Proof.
  intros d objs Heq st.
  destruct (build_material_map_ok Heq d objs) as ((Hnames & _ & Hnd & _) & _).
  fold st in Hnames, Hnd. split; [now rewrite <- Hnames|].
  destruct (fold_add_material_origin pystr pystr_eqb is_empty contains str_add splitext_ext
              basename abspath in_tempdir TEX_IMAGE dot_png DEFAULT_SHADER txDiffuse
              ksAmbient ksDiffuse ksSpecular ksSpecularEXP Heq objs (State [] [] [] [] d []))
    as (more & Hmore & Hlen & Hfrom).
  cbn [materials_list app] in Hmore.
  assert (Hst : materials_list st = more) by exact Hmore.
  rewrite Hst. split; [exact Hlen|]. now apply Forall_forall.
Qed.

(** X29.  When no mesh object has a material, [build_material_map] returns
    no material and no texture, and [get_material_id] still gives every
    mesh object the material id 0, the index of no material. *)
Theorem scene_without_materials :
  forall (d : files pystr) (mesh_objects : list (bl_object pystr)),
    (forall obj, In obj mesh_objects -> bo_materials obj = []) ->
    let st := build_material_map d mesh_objects in
    materials_list st = [] /\ mat_name_to_id st = [] /\ textures st = [] /\
    forall obj, In obj mesh_objects ->
      let mat_id :=
        get_material_id pystr_eqb (as_mesh_object pystr obj) (mat_name_to_id st) in
      mat_id = 0 /\ nth_error (materials_list st) (Z.to_nat mat_id) = None.
Proof.
  intros d objs Hnone st.
  assert (Hst : st = State [] [] [] [] d []).
  { subst st. unfold MaterialMap.build_material_map.
    generalize (State (pystr := pystr) [] [] [] [] d []) as st0.
    induction objs as [|o objs IH]; intro st0; [reflexivity|].
    cbn [fold_left]. unfold add_material at 2.
    rewrite (Hnone o (or_introl eq_refl)).
    apply IH. intros obj Hin. apply Hnone. now right. }
  rewrite Hst. cbn [materials_list mat_name_to_id textures].
  split; [reflexivity|]. split; [reflexivity|]. split; [reflexivity|].
  intros obj Hin. cbv zeta. unfold get_material_id, as_mesh_object. cbn [obj_material].
  rewrite (Hnone obj Hin). split; reflexivity.
Qed.

End Blender.

Lemma material_id_is_the_index_of_the_material_witness :
  let st := string_material_map small_disk [road_object; grass_object; kerb_object; pit_object] in
  let mat_id :=
    get_material_id String.eqb
      (as_mesh_object string kerb_object) (mat_name_to_id st) in
  0 <= mat_id < len (materials_list st) /\
  exists mat,
    nth_error (materials_list st) (Z.to_nat mat_id) = Some mat /\
    ExportKn5.mat_name string mat = bl_name kerb_material.
Proof.
  apply (material_id_is_the_index_of_the_material string String.eqb
           (fun s => String.eqb s ""%string) str_contains String.append extension
           (fun path => path) (fun path => path) (fun name => name)
           "TEX_IMAGE"%string ".png"%string "ksPerPixel"%string "txDiffuse"%string
           "ksAmbient"%string "ksDiffuse"%string "ksSpecular"%string "ksSpecularEXP"%string
           small_disk [road_object; grass_object; kerb_object; pit_object] kerb_object kerb_material []).
  - exact String.eqb_eq.
  - cbn. auto.
  - reflexivity.
Defined.

Lemma samplers_name_embedded_textures_witness :
  let st := string_material_map small_disk [road_object; grass_object; kerb_object; pit_object] in
  NoDup (map fst (textures st)) /\
  forall mat, In mat (materials_list st) ->
    (List.length (ExportKn5.mat_samplers string mat) <= 1)%nat /\
    forall name slot tex_name,
      In (name, slot, tex_name) (ExportKn5.mat_samplers string mat) ->
      name = "txDiffuse"%string /\ slot = 0 /\
      exists data, In (tex_name, data) (textures st).
Proof.
  apply (samplers_name_embedded_textures string String.eqb
           (fun s => String.eqb s ""%string) str_contains String.append extension
           (fun path => path) (fun path => path) (fun name => name)
           "TEX_IMAGE"%string ".png"%string "ksPerPixel"%string "txDiffuse"%string
           "ksAmbient"%string "ksDiffuse"%string "ksSpecular"%string "ksSpecularEXP"%string
           small_disk [road_object; grass_object; kerb_object; pit_object]).
  exact String.eqb_eq.
Defined.

Lemma material_names_are_distinct_witness :
  let st := string_material_map small_disk [road_object; grass_object; kerb_object; pit_object] in
  NoDup (map (ExportKn5.mat_name string) (materials_list st)) /\
  (List.length (materials_list st) <= 4)%nat /\
  forall mat, In mat (materials_list st) ->
    exists bl_mat,
      In bl_mat (first_materials string [road_object; grass_object; kerb_object; pit_object]) /\
      ExportKn5.mat_name string mat = bl_name bl_mat.
Proof.
  apply (material_names_are_distinct string String.eqb
           (fun s => String.eqb s ""%string) str_contains String.append extension
           (fun path => path) (fun path => path) (fun name => name)
           "TEX_IMAGE"%string ".png"%string "ksPerPixel"%string "txDiffuse"%string
           "ksAmbient"%string "ksDiffuse"%string "ksSpecular"%string "ksSpecularEXP"%string
           small_disk [road_object; grass_object; kerb_object; pit_object]).
  exact String.eqb_eq.
Defined.

Lemma scene_without_materials_witness :
  let st := string_material_map small_disk [grass_object] in
  materials_list st = [] /\ mat_name_to_id st = [] /\ textures st = [] /\
  forall obj, In obj [grass_object] ->
    let mat_id :=
      get_material_id String.eqb (as_mesh_object string obj) (mat_name_to_id st) in
    mat_id = 0 /\ nth_error (materials_list st) (Z.to_nat mat_id) = None.
Proof.
  apply (scene_without_materials string String.eqb
           (fun s => String.eqb s ""%string) str_contains String.append extension
           (fun path => path) (fun path => path) (fun name => name)
           "TEX_IMAGE"%string ".png"%string "ksPerPixel"%string "txDiffuse"%string
           "ksAmbient"%string "ksDiffuse"%string "ksSpecular"%string "ksSpecularEXP"%string
           small_disk [grass_object]).
  intros obj [<-|[]]. reflexivity.
Defined.

End MaterialBehaviour.
